(** * lib/thread_with_file.c: a worker thread behind a file descriptor

    A shallow embedding of [src/lib/thread_with_file.c]: the two byte
    buffers of a [stdio_redirect], the worker-side calls
    ([stdio_redirect_read], [stdio_redirect_readline],
    [stdio_redirect_vprintf]), the file operations of the descriptor
    ([thread_with_stdio_read], [thread_with_stdio_write],
    [thread_with_stdio_poll], [thread_with_stdio_release]) and the start-up
    path [run_thread_with_file].

    Conventions.
    - Sizes, counts and return values are [Z]; the conversions of the C code
      that can leave the range of their type are written out ([to_size_t],
      [to_int]).
    - What other threads do to the shared structure while a thread sleeps is
      an explicit argument, a list of state transformers.  A thread in a
      [wait_event_timeout] loop looks at its condition after each of them; a
      thread in [wait_event] or [wait_event_interruptible] only after one
      that has called [wake_up] on its queue.
    - What the kernel answers (allocation, page faults, signals, descriptor
      and thread creation) is an explicit argument too.
    - Calls into the kernel that leave no mark on the structure
      ([wake_up], [kthread_stop], [fd_install], ...) are appended to a log. *)

From Stdlib Require Import Strings.Byte Strings.String.
From Stdlib Require Import ZArith List Bool Lia.
Import ListNotations.
Local Open Scope Z_scope.

(** ** C integer types *)

Module C.

(** [size_t] and [unsigned long]: 64 bits, unsigned. *)
Definition to_size_t (x : Z) : Z := x mod 2 ^ 64.

(** [int]: 32 bits, two's complement. *)
Definition to_int (x : Z) : Z := (x + 2 ^ 31) mod 2 ^ 32 - 2 ^ 31.

(** [long] and [ssize_t]: 64 bits, two's complement. *)
Definition to_long (x : Z) : Z := (x + 2 ^ 63) mod 2 ^ 64 - 2 ^ 63.

(** The GNU conditional [a ?: b]. *)
Definition elvis (a b : Z) : Z := if a =? 0 then b else a.

End C.

(** ** Constants of the kernel headers *)

Definition EAGAIN : Z := 11.
Definition ENOMEM : Z := 12.
Definition EFAULT : Z := 14.
Definition EPIPE : Z := 32.
Definition ERESTARTSYS : Z := 512.
Definition MAX_ERRNO : Z := 4095.

Definition EPOLLIN : Z := 1.
Definition EPOLLOUT : Z := 4.
Definition EPOLLERR : Z := 8.
Definition EPOLLHUP : Z := 16.

Definition O_RDONLY : Z := 0.
Definition O_WRONLY : Z := 1.
Definition O_RDWR : Z := 2.
Definition O_CLOEXEC : Z := 524288.

Definition newline : byte := x0a.
Definition NUL : byte := x00.

(** [IS_ERR], [PTR_ERR] and [PTR_ERR_OR_ZERO] of linux/err.h.  A pointer is
    the 64-bit number it holds; the last [MAX_ERRNO] addresses encode the
    negative error numbers. *)
Definition IS_ERR (ptr : Z) : bool := C.to_size_t (- MAX_ERRNO) <=? ptr.

Definition PTR_ERR (ptr : Z) : Z := C.to_long ptr.

Definition PTR_ERR_OR_ZERO (ptr : Z) : Z :=
  if IS_ERR ptr then C.to_int (PTR_ERR ptr) else 0.

(** [roundup_pow_of_two(n)] of linux/log2.h, for [n >= 1]. *)
Definition roundup_pow_of_two (n : Z) : Z := 2 ^ Z.log2_up n.

(** ** Library routines on bytes *)

(** [memchr(s, c, n)]: the offset of the first [c] among the first [n] bytes
    of [s], if there is one. *)
Fixpoint memchr (s : list byte) (c : byte) (n : nat) : option Z :=
  match n, s with
  | S n', x :: s' =>
      if Byte.eqb x c then Some 0
      else match memchr s' c n' with
           | Some i => Some (i + 1)
           | None => None
           end
  | _, _ => None
  end.

(** [vsnprintf(buf, size, fmt, args)]: [fmt] stands for the fully formatted
    text.  At most [size - 1] of its bytes are stored, followed by a NUL;
    nothing is stored when [size] is 0.  The value returned is the length of
    the whole text. *)
Definition vsnprintf_stored (size : Z) (fmt : list byte) : list byte :=
  if size <=? 0 then [] else firstn (Z.to_nat (size - 1)) fmt ++ [NUL].

Definition vsnprintf (fmt : list byte) : Z := Z.of_nat (length fmt).

(** ** linux/darray.h

    The header and lib/darray.c are not under src/; the code uses the array
    through [nr], [size], [data], [darray_room], [darray_top],
    [darray_remove_items], [darray_make_room_gfp], [darray_init] and
    [darray_exit]. *)

(** Modelled from the spec: [darray_char] of linux/darray.h (not under src/),
    the storage of the spec's bounded buffer, an "ordered sequence of bytes
    (front = oldest)".  [data] holds the [nr] live bytes, front first; [size]
    is the number of bytes allocated. *)
Record darray_char : Type := mk_darray {
  data : list byte;
  size : Z
}.

(** Modelled from the spec: the field [nr] of a darray (linux/darray.h is not
    under src/), the buffer's "length". *)
Definition nr (d : darray_char) : Z := Z.of_nat (length (data d)).

(** Modelled from the spec: [darray_init] of linux/darray.h (not under src/);
    a buffer starts with no bytes and no storage. *)
Definition darray_init : darray_char := {| data := []; size := 0 |}.

(** Modelled from the spec: [darray_exit] of linux/darray.h (not under src/),
    which "releases" the buffer's "storage". *)
Definition darray_exit (d : darray_char) : darray_char := darray_init.

(** Modelled from the spec: [darray_room] of linux/darray.h (not under src/),
    what still fits in the storage, [d.size - d.nr] on [size_t]. *)
Definition darray_room (d : darray_char) : Z := C.to_size_t (size d - nr d).

(** Modelled from the spec: [darray_remove_items(d, d->data + pos, n)] of
    linux/darray.h (not under src/); with [pos] 0 it "removes ... up to
    [maxLen] leading bytes". *)
Definition darray_remove_items (d : darray_char) (pos n : Z) : darray_char :=
  {| data := firstn (Z.to_nat pos) (data d) ++ skipn (Z.to_nat (pos + n)) (data d);
     size := size d |}.

(** Modelled from the spec: [d->nr += n] of a darray (linux/darray.h is not
    under src/), the [n] bytes [bytes] having been stored at [darray_top(d)],
    the end of the live bytes. *)
Definition darray_push (d : darray_char) (bytes : list byte) : darray_char :=
  {| data := data d ++ bytes; size := size d |}.

(** ** The shared structure *)

(** Modelled from the spec: [struct thread_with_file] of
    linux/thread_with_file.h (not under src/), the spec's WorkerLifecycle
    "{ workerThread: optional thread handle, exitCode: int }", with the three
    fields the code uses: [thr->task] (a pointer), [thr->ret] and
    [thr->done]. *)
Record thread_with_file : Type := mk_thread_with_file {
  twf_task : Z;
  twf_ret : Z;
  twf_done : bool
}.

(** Modelled from the spec: [struct stdio_redirect] of
    linux/thread_with_file.h (not under src/), the spec's DuplexChannel
    "{ input: BoundedBuffer, output: BoundedBuffer, closed: bool }".  A
    [struct stdio_buf] is its [darray_char]: its spinlock and its wait queue
    hold no data. *)
Record stdio_redirect : Type := mk_stdio_redirect {
  input : darray_char;
  output : darray_char;
  done : bool
}.

Inductive wait_queue : Type := input_wait | output_wait.

(** Calls into the kernel that change nothing in the structure. *)
Inductive kcall : Type :=
| wake_up (q : wait_queue)
| poll_wait (q : wait_queue)
| kthread_create
| get_unused_fd_flags (flags : Z)
| anon_inode_getfile (flags : Z)
| get_task_struct (task : Z)
| wake_up_process (task : Z)
| fd_install (fd file : Z)
| put_unused_fd (fd : Z)
| kthread_stop (task : Z)
| put_task_struct (task : Z)
| call_exit.

(** Modelled from the spec: [struct thread_with_stdio] of
    linux/thread_with_file.h (not under src/), which "owns one
    WorkerLifecycle and one DuplexChannel"; the entry function and the exit
    callback it refers to are arguments of the calls that run them.  [klog]
    is the log of the kernel calls made on behalf of the structure. *)
Record thread_with_stdio : Type := mk_thread_with_stdio {
  thr : thread_with_file;
  stdio : stdio_redirect;
  klog : list kcall
}.

Definition set_input (b : darray_char) (s : thread_with_stdio) : thread_with_stdio :=
  {| thr := thr s;
     stdio := {| input := b; output := output (stdio s); done := done (stdio s) |};
     klog := klog s |}.

Definition set_output (b : darray_char) (s : thread_with_stdio) : thread_with_stdio :=
  {| thr := thr s;
     stdio := {| input := input (stdio s); output := b; done := done (stdio s) |};
     klog := klog s |}.

Definition logs (cs : list kcall) (s : thread_with_stdio) : thread_with_stdio :=
  {| thr := thr s; stdio := stdio s; klog := klog s ++ cs |}.

Definition log (c : kcall) (s : thread_with_stdio) : thread_with_stdio :=
  logs [c] s.

(** ** Sleeping and waking *)

(** What another thread does to the structure while this one sleeps. *)
Definition interference : Type := thread_with_stdio -> thread_with_stdio.

(** What happens while a thread is in an interruptible sleep: a step of
    another thread, or a signal. *)
Inductive wakeup : Type :=
| Other (f : interference)
| Signal.

(** How a call ends, as far as the recorded interference and kernel answers
    tell: it returns [r]; or it sleeps in a wait nobody ends; or it is still
    looping when the record of kernel answers ends. *)
Inductive outcome (A : Type) : Type :=
| Returns (r : A) (s : thread_with_stdio)
| Sleeps (s : thread_with_stdio)
| Running (s : thread_with_stdio).

Arguments Returns {A} r s.
Arguments Sleeps {A} s.
Arguments Running {A} s.

(** The structure as the call leaves it, or as it is when last seen. *)
Definition final {A : Type} (o : outcome A) : thread_with_stdio :=
  match o with
  | Returns _ s => s
  | Sleeps s => s
  | Running s => s
  end.

(** The value returned, if the call returns. *)
Definition returned {A : Type} (o : outcome A) : option A :=
  match o with
  | Returns r _ => Some r
  | _ => None
  end.

Section Model.

(** [#define STDIO_REDIRECT_BUFSIZE 4096]: the capacity, a parameter of the
    definitions below. *)
Variable STDIO_REDIRECT_BUFSIZE : Z.

(** Modelled from the spec: the size an allocation of linux/darray.h is
    rounded to (lib/darray.c is not under src/); the spec leaves it open. *)
Variable darray_grow : Z -> Z.

(** Modelled from the spec: the resize of linux/darray.h (not under src/).
    Nothing happens when the storage is large enough; otherwise new storage
    is allocated and the live bytes move to it.  When the allocator has no
    memory to give under the caller's gfp flags ([alloc_ok] false) the array
    stays as it is and [-ENOMEM] is returned: "a growth operation whose
    failure mode is" to fail fast. *)
Definition __darray_resize (alloc_ok : bool) (d : darray_char) (new_size : Z)
  : darray_char * Z :=
  if size d <? new_size then
    if alloc_ok then ({| data := data d; size := darray_grow new_size |}, 0)
    else (d, - ENOMEM)
  else (d, 0).

(** Modelled from the spec: [darray_make_room_gfp(d, more, gfp)] of
    linux/darray.h (not under src/). *)
Definition darray_make_room_gfp (alloc_ok : bool) (d : darray_char) (more : Z)
  : darray_char * Z :=
  __darray_resize alloc_ok d (nr d + more).

(** The loop [do wait_event_timeout(wq, cond, t) while (!cond)]: sleep until
    [cond] holds.  The time-out wakes the sleeper whether or not [wq] is
    woken, so it looks at [cond] again after each step of [env]; a thread
    that looks less often sees the steps in between as one.  [Some rest] is
    the interference left when the thread goes on, [None] says that it
    sleeps on when [env] is over. *)
Fixpoint wait_event_timeout (cond : thread_with_stdio -> bool)
  (env : list interference) (s : thread_with_stdio)
  : thread_with_stdio * option (list interference) :=
  if cond s then (s, Some env)
  else match env with
       | [] => (s, None)
       | f :: env' => wait_event_timeout cond env' (f s)
       end.

(** [wake_up(q)] among the kernel calls. *)
Definition is_wake_up (q : wait_queue) (c : kcall) : bool :=
  match c, q with
  | wake_up input_wait, input_wait => true
  | wake_up output_wait, output_wait => true
  | _, _ => false
  end.

(** How many times [q] has been woken. *)
Definition wake_ups (q : wait_queue) (s : thread_with_stdio) : nat :=
  length (filter (is_wake_up q) (klog s)).

(** A step that took the structure from [s] to [s'] has called
    [wake_up(q)]. *)
Definition woken (q : wait_queue) (s s' : thread_with_stdio) : bool :=
  (wake_ups q s <? wake_ups q s')%nat.

(** A thread asleep on [q] with no time-out: it looks at [cond] again only
    after a step that has woken [q]; the other steps pass it by. *)
Fixpoint asleep (q : wait_queue) (cond : thread_with_stdio -> bool)
  (env : list interference) (s : thread_with_stdio)
  : thread_with_stdio * option (list interference) :=
  match env with
  | [] => (s, None)
  | f :: env' =>
      if woken q s (f s) && cond (f s) then (f s, Some env')
      else asleep q cond env' (f s)
  end.

(** [wait_event(wq, cond)]: no sleep when [cond] holds already. *)
Definition wait_event (q : wait_queue) (cond : thread_with_stdio -> bool)
  (env : list interference) (s : thread_with_stdio)
  : thread_with_stdio * option (list interference) :=
  if cond s then (s, Some env) else asleep q cond env s.

(** A thread asleep on [q] with no time-out, that a signal interrupts. *)
Fixpoint asleep_interruptible (q : wait_queue) (cond : thread_with_stdio -> bool)
  (env : list wakeup) (s : thread_with_stdio) : thread_with_stdio * option Z :=
  match env with
  | [] => (s, None)
  | Signal :: _ => (s, Some (- ERESTARTSYS))
  | Other f :: env' =>
      if woken q s (f s) && cond (f s) then (f s, Some 0)
      else asleep_interruptible q cond env' (f s)
  end.

(** [wait_event_interruptible(wq, cond)]: 0 once [cond] holds,
    [-ERESTARTSYS] when a signal arrives first. *)
Definition wait_event_interruptible (q : wait_queue)
  (cond : thread_with_stdio -> bool) (env : list wakeup) (s : thread_with_stdio)
  : thread_with_stdio * option Z :=
  if cond s then (s, Some 0) else asleep_interruptible q cond env s.

(** ** stdio_redirect *)

(** The four conditions take the enclosing [thread_with_stdio] where the C
    functions take its [stdio]. *)
Definition stdio_redirect_has_input (s : thread_with_stdio) : bool :=
  negb (nr (input (stdio s)) =? 0) || done (stdio s).

Definition stdio_redirect_has_output (s : thread_with_stdio) : bool :=
  negb (nr (output (stdio s)) =? 0) || done (stdio s).

Definition stdio_redirect_has_input_space (s : thread_with_stdio) : bool :=
  (nr (input (stdio s)) <? STDIO_REDIRECT_BUFSIZE) || done (stdio s).

Definition stdio_redirect_has_output_space (s : thread_with_stdio) : bool :=
  (nr (output (stdio s)) <? STDIO_REDIRECT_BUFSIZE) || done (stdio s).

Definition stdio_buf_init (b : darray_char) : darray_char := darray_init.

(** [stdio_redirect_read(stdio, ubuf, len)]: the value returned and the bytes
    stored at [ubuf].  [env] is what other threads do while the call
    sleeps. *)
Definition stdio_redirect_read (env : list interference) (s : thread_with_stdio)
  (len : Z) : outcome (Z * list byte) :=
  match wait_event_timeout stdio_redirect_has_input env s with
  | (s, None) => Sleeps s
  | (s, Some _) =>
      if done (stdio s) then Returns (-1, []) s
      else
        let buf := input (stdio s) in
        let ret := C.to_int (Z.min len (nr buf)) in
        let ubuf := firstn (Z.to_nat ret) (data buf) in
        let s := set_input (darray_remove_items buf 0 ret) s in
        let s := log (wake_up input_wait) s in
        Returns (ret, ubuf) s
  end.

(** The loop of [stdio_redirect_readline] from the label [again]; [ubuf] is
    what has been stored so far.  Every turn but the first removes a byte at
    least, so [fuel] beyond [len] is never used up. *)
Fixpoint readline_again (fuel : nat) (env : list interference)
  (s : thread_with_stdio) (ubuf : list byte) (len copied : Z)
  : outcome (Z * list byte) :=
  match fuel with
  | O => Running s
  | S fuel' =>
      match wait_event_timeout stdio_redirect_has_input env s with
      | (s, None) => Sleeps s
      | (s, Some env) =>
          if done (stdio s) then
            Returns (C.to_int (C.elvis copied (-1)), ubuf) s
          else
            let buf := input (stdio s) in
            let b := Z.min len (nr buf) in
            let n := memchr (data buf) newline (Z.to_nat b) in
            let b := match n with
                     | Some i => Z.min b (i + 1)
                     | None => b
                     end in
            let ubuf := ubuf ++ firstn (Z.to_nat b) (data buf) in
            let s := set_input (darray_remove_items buf 0 b) s in
            let len := len - b in
            let copied := copied + b in
            let s := log (wake_up input_wait) s in
            match n with
            | None =>
                if negb (len =? 0) then readline_again fuel' env s ubuf len copied
                else Returns (C.to_int (C.elvis copied 0), ubuf) s
            | Some _ => Returns (C.to_int (C.elvis copied 0), ubuf) s
            end
      end
  end.

(** [stdio_redirect_readline(stdio, ubuf, len)] *)
Definition stdio_redirect_readline (env : list interference)
  (s : thread_with_stdio) (len : Z) : outcome (Z * list byte) :=
  readline_again (S (Z.to_nat len)) env s [] len 0.

(** The [do ... while] loop of [darray_vprintf]: the array and the value of
    [len] when the loop is left.  [allocs] are the allocator's answers to the
    successive requests, none left meaning no memory. *)
Fixpoint darray_vprintf_loop (allocs : list bool) (out : darray_char)
  (fmt : list byte) : darray_char * Z :=
  let len := vsnprintf fmt in
  if darray_room out <? len + 1 then
    match allocs with
    | [] => (fst (darray_make_room_gfp false out (len + 1)), len)
    | alloc_ok :: allocs' =>
        let (out', err) := darray_make_room_gfp alloc_ok out (len + 1) in
        if err =? 0 then darray_vprintf_loop allocs' out' fmt
        else (out', len)
    end
  else (out, len).

(** [darray_vprintf(out, gfp, fmt, args)]: the last [vsnprintf] of the loop
    stored its bytes at [out->data + out->nr]; [out->nr] then moves over
    [min(len, darray_room(out))] of them.  The gfp flags decide what the
    allocator may answer. *)
Definition darray_vprintf (allocs : list bool) (out : darray_char)
  (fmt : list byte) : darray_char :=
  let (out, len) := darray_vprintf_loop allocs out fmt in
  let stored := vsnprintf_stored (darray_room out) fmt in
  darray_push out (firstn (Z.to_nat (Z.min len (darray_room out))) stored).

(** [stdio_redirect_vprintf] from [if (stdio->done)] on. *)
Definition vprintf_checked (allocs : list bool) (s : thread_with_stdio)
  (fmt : list byte) : outcome unit :=
  if done (stdio s) then Returns tt s
  else
    let s := set_output (darray_vprintf allocs (output (stdio s)) fmt) s in
    let s := log (wake_up output_wait) s in
    Returns tt s.

(** [stdio_redirect_vprintf(stdio, nonblocking, fmt, args)]; the function is
    [void]. *)
Definition stdio_redirect_vprintf (env : list interference) (allocs : list bool)
  (s : thread_with_stdio) (nonblocking : bool) (fmt : list byte) : outcome unit :=
  if negb nonblocking then
    match wait_event output_wait stdio_redirect_has_output_space env s with
    | (s, None) => Sleeps s
    | (s, Some _) => vprintf_checked allocs s fmt
    end
  else if negb (stdio_redirect_has_output_space s) then Returns tt s
  else vprintf_checked allocs s fmt.

(** [stdio_redirect_printf]: the same, [fmt] being the text. *)
Definition stdio_redirect_printf := stdio_redirect_vprintf.

(** ** thread with file *)

(** [thread_with_file_exit(thr)]: the kernel calls it makes. *)
Definition thread_with_file_exit (t : thread_with_file) : list kcall :=
  if negb (twf_task t =? 0) then [kthread_stop (twf_task t); put_task_struct (twf_task t)]
  else [].

(** Which operations a [struct file_operations] provides (non-null
    pointers). *)
Record file_operations : Type := mk_file_operations {
  fop_read : bool;
  fop_write : bool
}.

(** What the kernel answers to [run_thread_with_file]: the pointer returned
    by [kthread_create], the value of [get_unused_fd_flags], the pointer
    returned by [anon_inode_getfile]. *)
Record run_answers : Type := mk_run_answers {
  kthread_create_ret : Z;
  get_unused_fd_flags_ret : Z;
  anon_inode_getfile_ret : Z
}.

(** The label [err] of [run_thread_with_file]. *)
Definition run_err (t : thread_with_file) (fd ret : Z) (calls : list kcall)
  : Z * thread_with_file * list kcall :=
  let calls := if 0 <=? fd then calls ++ [put_unused_fd fd] else calls in
  let calls := if negb (twf_task t =? 0) then calls ++ [kthread_stop (twf_task t)]
               else calls in
  (ret, t, calls).

(** The value of [fd_flags] in [run_thread_with_file]. *)
Definition run_fd_flags (fops : file_operations) : Z :=
  let fd_flags := O_CLOEXEC in
  if fop_read fops && fop_write fops then Z.lor fd_flags O_RDWR
  else if fop_read fops then Z.lor fd_flags O_RDONLY
  else if fop_write fops then Z.lor fd_flags O_WRONLY
  else fd_flags.

(** [run_thread_with_file(thr, fops, fn)]: the value returned, the structure
    and the kernel calls made, in order. *)
Definition run_thread_with_file (k : run_answers) (t : thread_with_file)
  (fops : file_operations) : Z * thread_with_file * list kcall :=
  let fd := -1 in
  let fd_flags := run_fd_flags fops in
  let t := {| twf_task := kthread_create_ret k; twf_ret := 0; twf_done := twf_done t |} in
  let calls := [kthread_create] in
  let ret := PTR_ERR_OR_ZERO (twf_task t) in
  if negb (ret =? 0) then (ret, t, calls)
  else
    let ret := get_unused_fd_flags_ret k in
    let calls := calls ++ [get_unused_fd_flags fd_flags] in
    if ret <? 0 then run_err t fd ret calls
    else
      let fd := ret in
      let file := anon_inode_getfile_ret k in
      let calls := calls ++ [anon_inode_getfile fd_flags] in
      let ret := PTR_ERR_OR_ZERO file in
      if negb (ret =? 0) then run_err t fd ret calls
      else
        let calls := calls ++ [get_task_struct (twf_task t);
                               wake_up_process (twf_task t);
                               fd_install fd file] in
        (fd, t, calls).

(** ** thread_with_stdio *)

(** [thread_with_stdio_done(thr)] *)
Definition thread_with_stdio_done (s : thread_with_stdio) : thread_with_stdio :=
  {| thr := {| twf_task := twf_task (thr s); twf_ret := twf_ret (thr s); twf_done := true |};
     stdio := {| input := input (stdio s); output := output (stdio s); done := true |};
     klog := klog s ++ [wake_up input_wait; wake_up output_wait] |}.

(** What the kernel answers in one turn of the loop of
    [thread_with_stdio_read]. *)
Record read_answers : Type := mk_read_answers {
  fault_in_writeable : Z;
  copy_to_user_nofault : Z
}.

(** The [while] loop of [thread_with_stdio_read]; [ubuf] is what has been
    copied to the caller so far. *)
Fixpoint read_loop (k : list read_answers) (s : thread_with_stdio)
  (ubuf : list byte) (len copied ret : Z) : outcome (Z * list byte) :=
  if negb (len =? 0) && negb (nr (output (stdio s)) =? 0) then
    match k with
    | [] => Running s
    | a :: k' =>
        if fault_in_writeable a =? len then
          Returns (C.to_long (C.elvis copied (- EFAULT)), ubuf) s
        else
          let buf := output (stdio s) in
          let b := Z.min len (nr buf) in
          if negb (b =? 0) && (copy_to_user_nofault a =? 0) then
            read_loop k' (set_output (darray_remove_items buf 0 b) s)
              (ubuf ++ firstn (Z.to_nat b) (data buf)) (len - b) (copied + b) ret
          else read_loop k' s ubuf len copied ret
    end
  else Returns (C.to_long (C.elvis copied ret), ubuf) s.

(** [thread_with_stdio_read(file, ubuf, len, ppos)]; [nonblock] is
    [file->f_flags & O_NONBLOCK]. *)
Definition thread_with_stdio_read (nonblock : bool) (env : list wakeup)
  (k : list read_answers) (s : thread_with_stdio) (len : Z)
  : outcome (Z * list byte) :=
  if negb nonblock then
    match wait_event_interruptible output_wait stdio_redirect_has_output env s with
    | (s, None) => Sleeps s
    | (s, Some ret) =>
        if negb (ret =? 0) then Returns (ret, []) s
        else read_loop k s [] len 0 ret
    end
  else if negb (stdio_redirect_has_output s) then Returns (- EAGAIN, []) s
  else read_loop k s [] len 0 0.

(** What the kernel answers in one turn of the loop of
    [thread_with_stdio_write], and what happens while the turn sleeps. *)
Record write_answers : Type := mk_write_answers {
  fault_in_readable : Z;
  alloc_ok : bool;
  copy_from_user_nofault : Z;
  sleep : list wakeup
}.

(** The part of a turn of that loop between [spin_lock] and [spin_unlock],
    [b] being the number of bytes faulted in: the input array, the new value
    of [b], and whether bytes were copied. *)
Definition write_locked (a : write_answers) (b : Z) (ubuf : list byte)
  (buf : darray_char) : darray_char * Z * bool :=
  let len := Z.of_nat (length ubuf) in
  let buf :=
    if nr buf <? STDIO_REDIRECT_BUFSIZE then
      fst (darray_make_room_gfp (alloc_ok a) buf
             (Z.min b (STDIO_REDIRECT_BUFSIZE - nr buf)))
    else buf in
  let b := Z.min len (darray_room buf) in
  let copy := negb (b =? 0) && (copy_from_user_nofault a =? 0) in
  let buf := if copy then darray_push buf (firstn (Z.to_nat b) ubuf) else buf in
  (buf, b, copy).

(** The [while] loop of [thread_with_stdio_write]; [ubuf] holds the [len]
    bytes the caller has left to write. *)
Fixpoint write_loop (nonblock : bool) (k : list write_answers)
  (s : thread_with_stdio) (ubuf : list byte) (copied ret : Z) : outcome Z :=
  let len := Z.of_nat (length ubuf) in
  if len =? 0 then Returns (C.to_long (C.elvis copied ret)) s
  else if twf_done (thr s) then Returns (C.to_long (C.elvis copied (- EPIPE))) s
  else
    match k with
    | [] => Running s
    | a :: k' =>
        let b := C.to_size_t (len - fault_in_readable a) in
        if b =? 0 then Returns (C.to_long (C.elvis copied (- EFAULT))) s
        else
          let '(buf, b, copy) := write_locked a b ubuf (input (stdio s)) in
          let ubuf := if copy then skipn (Z.to_nat b) ubuf else ubuf in
          let copied := if copy then copied + b else copied in
          let s := set_input buf s in
          if negb (b =? 0) then
            write_loop nonblock k' (log (wake_up input_wait) s) ubuf copied ret
          else if nonblock then Returns (C.to_long (C.elvis copied (- EAGAIN))) s
          else
            match wait_event_interruptible input_wait stdio_redirect_has_input_space
                    (sleep a) s with
            | (s, None) => Sleeps s
            | (s, Some ret) =>
                if negb (ret =? 0) then Returns (C.to_long (C.elvis copied ret)) s
                else write_loop nonblock k' s ubuf copied ret
            end
    end.

(** [thread_with_stdio_write(file, ubuf, len, ppos)]: [ubuf] is the [len]
    bytes at the caller's address; [nonblock] is
    [file->f_flags & O_NONBLOCK]. *)
Definition thread_with_stdio_write (nonblock : bool) (k : list write_answers)
  (s : thread_with_stdio) (ubuf : list byte) : outcome Z :=
  write_loop nonblock k s ubuf 0 0.

(** [thread_with_stdio_poll(file, wait)]: the mask. *)
Definition thread_with_stdio_poll (s : thread_with_stdio) : Z * thread_with_stdio :=
  let s := log (poll_wait output_wait) s in
  let s := log (poll_wait input_wait) s in
  let mask := 0 in
  let mask := if stdio_redirect_has_output s then Z.lor mask EPOLLIN else mask in
  let mask := if stdio_redirect_has_input_space s then Z.lor mask EPOLLOUT else mask in
  let mask := if twf_done (thr s) then Z.lor mask (Z.lor EPOLLHUP EPOLLERR) else mask in
  (mask, s).

(** [thread_with_stdio_release(inode, file)] *)
Definition thread_with_stdio_release (s : thread_with_stdio) : Z * thread_with_stdio :=
  let s := thread_with_stdio_done s in
  let s := logs (thread_with_file_exit (thr s)) s in
  let s := set_input (darray_exit (input (stdio s))) s in
  let s := set_output (darray_exit (output (stdio s))) s in
  let s := log call_exit s in
  (0, s).

(** [thread_with_stdio_fn(arg)]: [fn] is what the worker's function
    [thr->fn] does to the structure before it returns. *)
Definition thread_with_stdio_fn (fn : interference) (s : thread_with_stdio)
  : Z * thread_with_stdio :=
  (0, thread_with_stdio_done (fn s)).

(** [thread_with_stdio_fops] has both [.read] and [.write]. *)
Definition thread_with_stdio_fops : file_operations :=
  {| fop_read := true; fop_write := true |}.

(** [run_thread_with_stdio(thr, exit, fn)] *)
Definition run_thread_with_stdio (k : run_answers) (s : thread_with_stdio)
  : Z * thread_with_stdio :=
  let s := set_input (stdio_buf_init (input (stdio s))) s in
  let s := set_output (stdio_buf_init (output (stdio s))) s in
  let '(ret, t, calls) := run_thread_with_file k (thr s) thread_with_stdio_fops in
  (ret, {| thr := t; stdio := stdio s; klog := klog s ++ calls |}).

(** ** What holds in every state the system reaches *)

(** The input array is within its allocation, which is within
    [STDIO_REDIRECT_BUFSIZE]. *)
Definition input_bounded (s : thread_with_stdio) : bool :=
  (nr (input (stdio s)) <=? size (input (stdio s)))
  && (size (input (stdio s)) <=? STDIO_REDIRECT_BUFSIZE).

(** The close flag, as [thread_with_stdio_done] sets it. *)
Definition closed (s : thread_with_stdio) : bool :=
  twf_done (thr s) && done (stdio s).

(** The functions among the causes of a wake-up. *)
Fixpoint others (env : list wakeup) : list interference :=
  match env with
  | [] => []
  | Other f :: env' => f :: others env'
  | Signal :: env' => others env'
  end.

(** Everything a thread of the system does to the structure in one call: the
    calls of this file, each from its start to where it returns, sleeps for
    good or is last seen running, with other threads of the system
    interfering while it sleeps; and calls one after another. *)
#[warnings="-register-all"]
Inductive system_step : interference -> Prop :=
| step_read (env : list interference) (len : Z) :
    Forall system_step env ->
    system_step (fun s => final (stdio_redirect_read env s len))
| step_readline (env : list interference) (len : Z) :
    Forall system_step env ->
    system_step (fun s => final (stdio_redirect_readline env s len))
| step_vprintf (env : list interference) (allocs : list bool)
    (nonblocking : bool) (fmt : list byte) :
    Forall system_step env ->
    system_step (fun s => final (stdio_redirect_vprintf env allocs s nonblocking fmt))
| step_file_read (nonblock : bool) (env : list wakeup) (k : list read_answers)
    (len : Z) :
    Forall system_step (others env) ->
    system_step (fun s => final (thread_with_stdio_read nonblock env k s len))
| step_file_write (nonblock : bool) (k : list write_answers) (ubuf : list byte) :
    Forall system_step (flat_map (fun a => others (sleep a)) k) ->
    system_step (fun s => final (thread_with_stdio_write nonblock k s ubuf))
| step_poll :
    system_step (fun s => snd (thread_with_stdio_poll s))
| step_release :
    system_step (fun s => snd (thread_with_stdio_release s))
| step_fn (fn : interference) :
    system_step fn ->
    system_step (fun s => snd (thread_with_stdio_fn fn s))
| step_run (k : run_answers) :
    system_step (fun s => snd (run_thread_with_stdio k s))
| step_skip :
    system_step (fun s => s)
| step_seq (f g : interference) :
    system_step f -> system_step g -> system_step (fun s => g (f s)).

(** The states of a structure in use: its owner handed it in with the close
    flags clear (the code never clears them), [run_thread_with_stdio] set it
    up, and threads of the system worked on it. *)
Inductive reachable : thread_with_stdio -> Prop :=
| reach_run (k : run_answers) (s : thread_with_stdio) :
    twf_done (thr s) = false ->
    done (stdio s) = false ->
    reachable (snd (run_thread_with_stdio k s))
| reach_step (f : interference) (s : thread_with_stdio) :
    system_step f -> reachable s -> reachable (f s).

(** Induction on [system_step] with the hypothesis for the interference
    too. *)
Section SystemStepInd.

Variable P : interference -> Prop.

Hypothesis P_read : forall env len,
  Forall P env -> P (fun s => final (stdio_redirect_read env s len)).
Hypothesis P_readline : forall env len,
  Forall P env -> P (fun s => final (stdio_redirect_readline env s len)).
Hypothesis P_vprintf : forall env allocs nonblocking fmt,
  Forall P env ->
  P (fun s => final (stdio_redirect_vprintf env allocs s nonblocking fmt)).
Hypothesis P_file_read : forall nonblock env k len,
  Forall P (others env) ->
  P (fun s => final (thread_with_stdio_read nonblock env k s len)).
Hypothesis P_file_write : forall nonblock k ubuf,
  Forall P (flat_map (fun a => others (sleep a)) k) ->
  P (fun s => final (thread_with_stdio_write nonblock k s ubuf)).
Hypothesis P_poll : P (fun s => snd (thread_with_stdio_poll s)).
Hypothesis P_release : P (fun s => snd (thread_with_stdio_release s)).
Hypothesis P_fn : forall fn, P fn -> P (fun s => snd (thread_with_stdio_fn fn s)).
Hypothesis P_run : forall k, P (fun s => snd (run_thread_with_stdio k s)).
Hypothesis P_skip : P (fun s => s).
Hypothesis P_seq : forall f g, P f -> P g -> P (fun s => g (f s)).

Fixpoint system_step_nested_ind (f : interference) (H : system_step f) {struct H} : P f :=
  let all :=
    fix all (l : list interference) (Hl : Forall system_step l) {struct Hl}
      : Forall P l :=
      match Hl with
      | Forall_nil _ => Forall_nil P
      | @Forall_cons _ _ x l' Hx Hl' =>
          @Forall_cons _ P x l' (system_step_nested_ind x Hx) (all l' Hl')
      end in
  match H with
  | step_read env len He => P_read env len (all env He)
  | step_readline env len He => P_readline env len (all env He)
  | step_vprintf env allocs nb fmt He => P_vprintf env allocs nb fmt (all env He)
  | step_file_read nb env k len He => P_file_read nb env k len (all _ He)
  | step_file_write nb k ubuf He => P_file_write nb k ubuf (all _ He)
  | step_poll => P_poll
  | step_release => P_release
  | step_fn fn Hf => P_fn fn (system_step_nested_ind fn Hf)
  | step_run k => P_run k
  | step_skip => P_skip
  | step_seq f g Hf Hg => P_seq f g (system_step_nested_ind f Hf) (system_step_nested_ind g Hg)
  end.

End SystemStepInd.

(** ** The vocabulary of the statements *)

(** [f] keeps the property [Q]. *)
Definition stable (Q : thread_with_stdio -> Prop) (f : interference) : Prop :=
  forall s, Q s -> Q (f s).

(** What [stdio_redirect_readline] promises of a call that has [acc] stored
    already and [len] bytes of room left. *)
Definition readline_post (len : Z) (acc : list byte)
  (o : outcome (Z * list byte)) : Prop :=
  match o with
  | Returns (r, out) s' =>
      exists more,
        out = acc ++ more /\
        Z.of_nat (length more) <= len /\
        ~ In newline (removelast more) /\
        (done (stdio s') = true -> r = C.elvis (Z.of_nat (length out)) (-1)) /\
        (done (stdio s') = false ->
         r = Z.of_nat (length out) /\
         ((exists pre, more = pre ++ [newline]) \/ Z.of_nat (length more) = len))
  | Sleeps s' => stdio_redirect_has_input s' = false
  | Running _ => False
  end.

(** The kernel's answers when nothing goes wrong: all the bytes are faulted
    in, the allocator has memory, the copy succeeds. *)
Definition faultless (a : write_answers) : bool :=
  (fault_in_readable a =? 0) && alloc_ok a && (copy_from_user_nofault a =? 0).

(** Interference of a consumer: it takes bytes from the front of the input
    buffer, or leaves it alone. *)
Definition consumes (f : interference) : Prop :=
  forall s, exists taken, taken ++ data (input (stdio (f s))) = data (input (stdio s)).

(** Interference that feeds the input buffer, or leaves it alone: it puts
    bytes at the end of it, as a write of the caller does, and takes none
    away; setting the close flag is of this kind too. *)
Definition feeds (f : interference) : Prop :=
  forall s, exists added,
    data (input (stdio (f s))) = data (input (stdio s)) ++ added.


(** What [thread_with_stdio_write] returns, for a loop that has accepted
    [copied] bytes already: with [n] the number of bytes of [ubuf] it goes on
    to put at the end of the input buffer, [copied + n] unless that is 0, and
    then 0 for an empty write or else the error that stopped it. *)
Definition write_post (s : thread_with_stdio) (ubuf : list byte) (copied : Z)
  (r : Z) (s' : thread_with_stdio) : Prop :=
  exists n taken,
    0 <= n <= Z.of_nat (length ubuf) /\
    taken ++ data (input (stdio s')) =
      data (input (stdio s)) ++ firstn (Z.to_nat n) ubuf /\
    (copied + n <> 0 -> r = copied + n) /\
    (copied + n = 0 ->
     (r = 0 /\ ubuf = []) \/ In r [- EPIPE; - EFAULT; - EAGAIN; - ERESTARTSYS]).

(** Readable, writable, hangup and error. *)
Definition EPOLL_ALL : Z := Z.lor EPOLLIN (Z.lor EPOLLOUT (Z.lor EPOLLHUP EPOLLERR)).

End Model.

(** ** The code as compiled, and states of a structure in use

    The capacity is 4096 bytes and [roundup_pow_of_two] rounds the sizes. *)

(** A structure as its owner allocates it, zeroed. *)
Definition zeroed : thread_with_stdio :=
  {| thr := {| twf_task := 0; twf_ret := 0; twf_done := false |};
     stdio := {| input := darray_init; output := darray_init; done := false |};
     klog := [] |}.

(** The kernel creates the thread, reserves descriptor 3 and makes the
    file. *)
Definition run_ok : run_answers :=
  {| kthread_create_ret := 2 ^ 47; get_unused_fd_flags_ret := 3;
     anon_inode_getfile_ret := 2 ^ 47 + 4096 |}.

(** The kernel faults in every byte, has memory, and copies. *)
Definition no_fault : write_answers :=
  {| fault_in_readable := 0; alloc_ok := true; copy_from_user_nofault := 0;
     sleep := [] |}.

(** The structure once [run_thread_with_stdio] has started the thread. *)
Definition started : thread_with_stdio := snd (run_thread_with_stdio run_ok zeroed).

(** The caller has written "A" and nobody has read it. *)
Definition wrote_A : thread_with_stdio :=
  final (thread_with_stdio_write 4096 roundup_pow_of_two true [no_fault; no_fault]
           started [x41]).

(** Then the worker's function returned: the channel is closed with "A"
    still in the input buffer. *)
Definition closed_A : thread_with_stdio :=
  snd (thread_with_stdio_fn (fun s => s) wrote_A).

(** The caller has written "abc", a line not yet ended. *)
Definition wrote_abc : thread_with_stdio :=
  final (thread_with_stdio_write 4096 roundup_pow_of_two true [no_fault; no_fault]
           started (list_byte_of_string "abc")).

(** Then the worker's function returned. *)
Definition closed_abc : thread_with_stdio :=
  snd (thread_with_stdio_fn (fun s => s) wrote_abc).

(** The caller has filled the input buffer, 4096 bytes. *)
Definition filled : thread_with_stdio :=
  final (thread_with_stdio_write 4096 roundup_pow_of_two true [no_fault; no_fault]
           started (repeat x41 4096)).

(** The worker has printed "abc" and the caller has read it: the output
    buffer is empty, with 4 bytes allocated. *)
Definition drained : thread_with_stdio :=
  final (thread_with_stdio_read true []
           [{| fault_in_writeable := 0; copy_to_user_nofault := 0 |}]
           (final (stdio_redirect_vprintf 4096 roundup_pow_of_two [] [true] started true
                     (list_byte_of_string "abc")))
           3).

(** The kernel finds the caller's buffer writable, and copies. *)
Definition read_ok : read_answers :=
  {| fault_in_writeable := 0; copy_to_user_nofault := 0 |}.

(** The allocator has no memory to give. *)
Definition no_memory : write_answers :=
  {| fault_in_readable := 0; alloc_ok := false; copy_from_user_nofault := 0;
     sleep := [] |}.

(** The worker prints "abc", memory being there for it. *)
Definition print_abc : interference :=
  fun s => final (stdio_redirect_vprintf 4096 roundup_pow_of_two [] [true] s true
                    (list_byte_of_string "abc")).

(** The worker has printed "abc" and nobody has read it. *)
Definition printed_abc : thread_with_stdio := print_abc started.

(** The worker has printed 5000 bytes at once: the output buffer is over
    its capacity. *)
Definition flooded : thread_with_stdio :=
  final (stdio_redirect_vprintf 4096 roundup_pow_of_two [] [true] started true
           (repeat x41 5000)).

(** The caller writes "lo" and the end of the line. *)
Definition write_lo : interference :=
  fun s => final (thread_with_stdio_write 4096 roundup_pow_of_two true
                    [no_fault; no_fault] s (list_byte_of_string "lo" ++ [newline])).

(** The caller has written "hel", the start of a line. *)
Definition wrote_hel : thread_with_stdio :=
  final (thread_with_stdio_write 4096 roundup_pow_of_two true [no_fault; no_fault]
           started (list_byte_of_string "hel")).

(** The caller has written a line, "hi", and the start of the next, "yo". *)
Definition wrote_line : thread_with_stdio :=
  final (thread_with_stdio_write 4096 roundup_pow_of_two true [no_fault; no_fault]
           started (list_byte_of_string "hi" ++ [newline] ++ list_byte_of_string "yo")).

(** The caller writes "xyz". *)
Definition write_xyz : interference :=
  fun s => final (thread_with_stdio_write 4096 roundup_pow_of_two true
                    [no_fault; no_fault] s (list_byte_of_string "xyz")).

(** The caller writes "xyz" and the channel is closed, before the sleeper
    looks again. *)
Definition write_xyz_and_close : interference :=
  fun s => thread_with_stdio_done (write_xyz s).

(** The worker reads one byte. *)
Definition read_one : interference :=
  fun s => final (stdio_redirect_read [] s 1).

(** The kernel's answers in a turn of a write that sleeps until the worker
    has read a byte. *)
Definition until_read : write_answers :=
  {| fault_in_readable := 0; alloc_ok := true; copy_from_user_nofault := 0;
     sleep := [Other read_one] |}.

(** The kernel's answers in a turn of a write that sleeps until a signal
    comes. *)
Definition until_signal : write_answers :=
  {| fault_in_readable := 0; alloc_ok := true; copy_from_user_nofault := 0;
     sleep := [Signal] |}.

(** The kernel's answers in a turn of a write that sleeps until the worker's
    function has returned. *)
Definition until_done : write_answers :=
  {| fault_in_readable := 0; alloc_ok := true; copy_from_user_nofault := 0;
     sleep := [Other thread_with_stdio_done] |}.

(** A closed statement about numbers and flags, by evaluation. *)
Ltac evaluate :=
  vm_compute; repeat split;
  solve [reflexivity | let H := fresh in intros H; discriminate H].

(** * Properties

    For every capacity and every rounding of allocations, unless a statement
    assumes more of them. *)

Section Proofs.

Variable STDIO_REDIRECT_BUFSIZE : Z.
Variable darray_grow : Z -> Z.

Local Abbreviation __darray_resize := (__darray_resize darray_grow).
Local Abbreviation darray_make_room_gfp := (darray_make_room_gfp darray_grow).
Local Abbreviation stdio_redirect_has_input_space :=
  (stdio_redirect_has_input_space STDIO_REDIRECT_BUFSIZE).
Local Abbreviation stdio_redirect_has_output_space :=
  (stdio_redirect_has_output_space STDIO_REDIRECT_BUFSIZE).
Local Abbreviation darray_vprintf_loop := (darray_vprintf_loop darray_grow).
Local Abbreviation darray_vprintf := (darray_vprintf darray_grow).
Local Abbreviation vprintf_checked := (vprintf_checked darray_grow).
Local Abbreviation stdio_redirect_vprintf :=
  (stdio_redirect_vprintf STDIO_REDIRECT_BUFSIZE darray_grow).
Local Abbreviation write_locked := (write_locked STDIO_REDIRECT_BUFSIZE darray_grow).
Local Abbreviation write_loop := (write_loop STDIO_REDIRECT_BUFSIZE darray_grow).
Local Abbreviation thread_with_stdio_write :=
  (thread_with_stdio_write STDIO_REDIRECT_BUFSIZE darray_grow).
Local Abbreviation thread_with_stdio_poll :=
  (thread_with_stdio_poll STDIO_REDIRECT_BUFSIZE).
Local Abbreviation input_bounded := (input_bounded STDIO_REDIRECT_BUFSIZE).
Local Abbreviation system_step := (system_step STDIO_REDIRECT_BUFSIZE darray_grow).
Local Abbreviation reachable := (reachable STDIO_REDIRECT_BUFSIZE darray_grow).
Local Abbreviation system_step_nested_ind :=
  (system_step_nested_ind STDIO_REDIRECT_BUFSIZE darray_grow).

(** ** Unfolding equations *)

Lemma write_loop_nil nonblock s ubuf copied ret :
  write_loop nonblock [] s ubuf copied ret =
  if Z.of_nat (length ubuf) =? 0 then Returns (C.to_long (C.elvis copied ret)) s
  else if twf_done (thr s) then Returns (C.to_long (C.elvis copied (- EPIPE))) s
  else Running s.
Proof. reflexivity. Qed.

Lemma write_loop_cons nonblock a k s ubuf copied ret :
  write_loop nonblock (a :: k) s ubuf copied ret =
  let len := Z.of_nat (length ubuf) in
  if len =? 0 then Returns (C.to_long (C.elvis copied ret)) s
  else if twf_done (thr s) then Returns (C.to_long (C.elvis copied (- EPIPE))) s
  else
    let b := C.to_size_t (len - fault_in_readable a) in
    if b =? 0 then Returns (C.to_long (C.elvis copied (- EFAULT))) s
    else
      let '(buf, b, copy) := write_locked a b ubuf (input (stdio s)) in
      let ubuf := if copy then skipn (Z.to_nat b) ubuf else ubuf in
      let copied := if copy then copied + b else copied in
      let s := set_input buf s in
      if negb (b =? 0) then
        write_loop nonblock k (log (wake_up input_wait) s) ubuf copied ret
      else if nonblock then Returns (C.to_long (C.elvis copied (- EAGAIN))) s
      else
        match wait_event_interruptible input_wait stdio_redirect_has_input_space
                    (sleep a) s with
        | (s, None) => Sleeps s
        | (s, Some ret) =>
            if negb (ret =? 0) then Returns (C.to_long (C.elvis copied ret)) s
            else write_loop nonblock k s ubuf copied ret
        end.
Proof. reflexivity. Qed.

(** ** Properties every call keeps

    A property of the input array and the two flags that the elementary
    updates keep is kept by every step of the system. *)
Section Stable.

Variable Q : thread_with_stdio -> Prop.

Hypothesis Q_frame : forall s s',
  input (stdio s') = input (stdio s) ->
  done (stdio s') = done (stdio s) ->
  twf_done (thr s') = twf_done (thr s) ->
  Q s -> Q s'.
Hypothesis Q_done : forall s, Q s -> Q (thread_with_stdio_done s).
Hypothesis Q_remove : forall s n,
  Q s -> Q (set_input (darray_remove_items (input (stdio s)) 0 n) s).
Hypothesis Q_init : forall s, Q s -> Q (set_input darray_init s).
Hypothesis Q_write : forall s a b ubuf,
  Q s -> Q (set_input (fst (fst (write_locked a b ubuf (input (stdio s))))) s).

Local Abbreviation stable := (stable Q).

Lemma Q_logs cs s : Q s -> Q (logs cs s).
Proof. apply Q_frame; reflexivity. Qed.

Lemma Q_log c s : Q s -> Q (log c s).
Proof. apply Q_logs. Qed.

Lemma Q_set_output b s : Q s -> Q (set_output b s).
Proof. apply Q_frame; reflexivity. Qed.

Lemma wait_event_timeout_stable cond env :
  Forall stable env ->
  forall s s' rest,
    wait_event_timeout cond env s = (s', rest) ->
    Q s ->
    Q s' /\ match rest with Some env' => Forall stable env' | None => True end.
Proof.
  induction 1 as [|f env Hf Henv IH]; intros s s' rest E HQ; simpl in E.
  - destruct (cond s); inversion E; subst; split; auto.
  - destruct (cond s).
    + inversion E; subst. split; auto.
    + eapply IH; eauto.
Qed.

Lemma asleep_stable q cond env :
  Forall stable env ->
  forall s s' rest,
    asleep q cond env s = (s', rest) ->
    Q s ->
    Q s' /\ match rest with Some env' => Forall stable env' | None => True end.
Proof.
  induction 1 as [|f env Hf Henv IH]; intros s s' rest E HQ; cbn [asleep] in E.
  - inversion E; subst; split; auto.
  - destruct (woken q s (f s) && cond (f s)).
    + inversion E; subst. split; auto.
    + eapply IH; eauto.
Qed.

Lemma wait_event_stable q cond env :
  Forall stable env ->
  forall s s' rest,
    wait_event q cond env s = (s', rest) ->
    Q s ->
    Q s' /\ match rest with Some env' => Forall stable env' | None => True end.
Proof.
  intros Henv s s' rest E HQ. unfold wait_event in E.
  destruct (cond s); [inversion E; subst; split; auto|].
  eapply asleep_stable; eauto.
Qed.

Lemma asleep_interruptible_stable q cond env :
  Forall stable (others env) ->
  forall s s' r,
    asleep_interruptible q cond env s = (s', r) -> Q s -> Q s'.
Proof.
  induction env as [|w env IH]; intros Henv s s' r E HQ;
    cbn [asleep_interruptible] in E.
  - inversion E; subst; auto.
  - destruct w as [f|]; simpl in Henv.
    + inversion Henv; subst.
      destruct (woken q s (f s) && cond (f s)); [inversion E; subst; auto|].
      eapply IH; eauto.
    + inversion E; subst; auto.
Qed.

Lemma wait_event_interruptible_stable q cond env :
  Forall stable (others env) ->
  forall s s' r,
    wait_event_interruptible q cond env s = (s', r) -> Q s -> Q s'.
Proof.
  intros Henv s s' r E HQ. unfold wait_event_interruptible in E.
  destruct (cond s); [inversion E; subst; auto|].
  eapply asleep_interruptible_stable; eauto.
Qed.

Lemma stdio_redirect_read_stable env len :
  Forall stable env -> stable (fun s => final (stdio_redirect_read env s len)).
Proof.
  intros Henv s HQ. unfold stdio_redirect_read.
  destruct (wait_event_timeout stdio_redirect_has_input env s) as [s' rest] eqn:E.
  destruct (wait_event_timeout_stable _ _ Henv _ _ _ E HQ) as [HQ' _].
  destruct rest; simpl; auto.
  destruct (done (stdio s')); simpl; auto.
  apply Q_log, Q_remove, HQ'.
Qed.

Lemma readline_again_stable fuel :
  forall env s ubuf len copied,
    Forall stable env -> Q s ->
    Q (final (readline_again fuel env s ubuf len copied)).
Proof.
  induction fuel as [|fuel IH]; intros env s ubuf len copied Henv HQ; simpl; auto.
  destruct (wait_event_timeout stdio_redirect_has_input env s) as [s' rest] eqn:E.
  destruct (wait_event_timeout_stable _ _ Henv _ _ _ E HQ) as [HQ' Hrest].
  destruct rest as [env'|]; simpl; auto.
  destruct (done (stdio s')); simpl; auto.
  destruct (memchr _ _ _); simpl.
  - apply Q_log, Q_remove, HQ'.
  - destruct (negb _); simpl.
    + apply IH; auto. apply Q_log, Q_remove, HQ'.
    + apply Q_log, Q_remove, HQ'.
Qed.

Lemma stdio_redirect_readline_stable env len :
  Forall stable env -> stable (fun s => final (stdio_redirect_readline env s len)).
Proof. intros Henv s HQ. apply readline_again_stable; auto. Qed.

Lemma vprintf_checked_stable allocs fmt s :
  Q s -> Q (final (vprintf_checked allocs s fmt)).
Proof.
  intros HQ. unfold vprintf_checked.
  destruct (done (stdio s)); simpl; auto.
  apply Q_log, Q_set_output, HQ.
Qed.

Lemma stdio_redirect_vprintf_stable env allocs nonblocking fmt :
  Forall stable env ->
  stable (fun s => final (stdio_redirect_vprintf env allocs s nonblocking fmt)).
Proof.
  intros Henv s HQ. unfold stdio_redirect_vprintf.
  destruct nonblocking; simpl.
  - destruct (stdio_redirect_has_output_space s); simpl; auto.
    apply vprintf_checked_stable, HQ.
  - destruct (wait_event output_wait stdio_redirect_has_output_space env s) as [s' rest] eqn:E.
    destruct (wait_event_stable _ _ _ Henv _ _ _ E HQ) as [HQ' _].
    destruct rest; simpl; auto.
    apply vprintf_checked_stable, HQ'.
Qed.

Lemma read_loop_stable k :
  forall s ubuf len copied ret,
    Q s -> Q (final (read_loop k s ubuf len copied ret)).
Proof.
  induction k as [|a k IH]; intros s ubuf len copied ret HQ; simpl.
  - destruct (negb (len =? 0) && negb (nr (output (stdio s)) =? 0)); simpl; auto.
  - destruct (negb (len =? 0) && negb (nr (output (stdio s)) =? 0)); simpl; auto.
    destruct (fault_in_writeable a =? len); simpl; auto.
    destruct (negb _ && _); apply IH; auto.
    apply Q_set_output, HQ.
Qed.

Lemma thread_with_stdio_read_stable nonblock env k len :
  Forall stable (others env) ->
  stable (fun s => final (thread_with_stdio_read nonblock env k s len)).
Proof.
  intros Henv s HQ. unfold thread_with_stdio_read.
  destruct nonblock; simpl.
  - destruct (stdio_redirect_has_output s); simpl; auto.
    apply read_loop_stable, HQ.
  - destruct (wait_event_interruptible output_wait stdio_redirect_has_output env s)
      as [s' r] eqn:E.
    pose proof (wait_event_interruptible_stable _ _ _ Henv _ _ _ E HQ) as HQ'.
    destruct r as [r|]; simpl; auto.
    destruct (negb (r =? 0)); simpl; auto.
    apply read_loop_stable, HQ'.
Qed.

Lemma write_loop_stable nonblock k :
  Forall stable (flat_map (fun a => others (sleep a)) k) ->
  forall s ubuf copied ret,
    Q s -> Q (final (write_loop nonblock k s ubuf copied ret)).
Proof.
  induction k as [|a k IH]; intros Hk s ubuf copied ret HQ.
  - rewrite write_loop_nil.
    destruct (Z.of_nat (length ubuf) =? 0); simpl; auto.
    destruct (twf_done (thr s)); simpl; auto.
  - rewrite write_loop_cons. cbv zeta.
    destruct (Z.of_nat (length ubuf) =? 0); [exact HQ|].
    destruct (twf_done (thr s)); [exact HQ|].
    destruct (C.to_size_t _ =? 0); [exact HQ|].
    simpl in Hk. apply Forall_app in Hk. destruct Hk as [Ha Hk].
    specialize (IH Hk).
    pose proof (Q_write s a (C.to_size_t (Z.of_nat (length ubuf) - fault_in_readable a))
                  ubuf HQ) as HQ'.
    destruct (write_locked a _ ubuf (input (stdio s))) as [[buf b] copy].
    simpl in HQ'.
    destruct (negb (b =? 0)).
    + apply IH, Q_log, HQ'.
    + destruct nonblock; [exact HQ'|].
      destruct (wait_event_interruptible input_wait stdio_redirect_has_input_space (sleep a)
                  (set_input buf s)) as [s' r] eqn:E.
      pose proof (wait_event_interruptible_stable _ _ _ Ha _ _ _ E HQ') as HQ''.
      destruct r as [r|]; [|exact HQ''].
      destruct (negb (r =? 0)); [exact HQ''|].
      apply IH, HQ''.
Qed.

Lemma thread_with_stdio_write_stable nonblock k ubuf :
  Forall stable (flat_map (fun a => others (sleep a)) k) ->
  stable (fun s => final (thread_with_stdio_write nonblock k s ubuf)).
Proof. intros Hk s HQ. apply write_loop_stable; auto. Qed.

Lemma thread_with_stdio_poll_stable :
  stable (fun s => snd (thread_with_stdio_poll s)).
Proof. intros s HQ. simpl. apply Q_log, Q_log, HQ. Qed.

Lemma thread_with_stdio_release_stable :
  stable (fun s => snd (thread_with_stdio_release s)).
Proof.
  intros s HQ. unfold thread_with_stdio_release, snd.
  apply Q_log, Q_set_output.
  unfold darray_exit. apply Q_init, Q_logs, Q_done, HQ.
Qed.

Lemma run_thread_with_stdio_stable k :
  stable (fun s => snd (run_thread_with_stdio k s)).
Proof.
  intros s HQ. unfold run_thread_with_stdio.
  pose proof (Q_set_output darray_init _ (Q_init s HQ)) as HQ'.
  unfold stdio_buf_init.
  destruct (run_thread_with_file k _ _) as [[ret t] calls] eqn:E.
  simpl. revert HQ'. apply Q_frame; try reflexivity.
  simpl. unfold run_thread_with_file, run_err in E.
  repeat match type of E with
         | context [if ?c then _ else _] => destruct c
         end; inversion E; reflexivity.
Qed.

(** Every step of the system keeps [Q]. *)
Lemma system_step_stable f : system_step f -> stable f.
Proof.
  revert f. apply (system_step_nested_ind stable).
  - intros env len H. apply stdio_redirect_read_stable; assumption.
  - intros env len H. apply stdio_redirect_readline_stable; assumption.
  - intros env allocs nonblocking fmt H. apply stdio_redirect_vprintf_stable; assumption.
  - intros nonblock env k len H. apply thread_with_stdio_read_stable; assumption.
  - intros nonblock k ubuf H. apply thread_with_stdio_write_stable; assumption.
  - apply thread_with_stdio_poll_stable.
  - apply thread_with_stdio_release_stable.
  - intros fn H s HQ. simpl. apply Q_done. auto.
  - apply run_thread_with_stdio_stable.
  - intros s HQ. exact HQ.
  - intros f g Hf Hg s HQ. auto.
Qed.

Lemma system_steps_stable fs :
  Forall system_step fs ->
  forall s, Q s -> Q (fold_left (fun s f => f s) fs s).
Proof.
  induction 1 as [|f fs Hf Hfs IH]; intros s HQ; simpl; auto.
  apply IH. apply (system_step_stable f Hf), HQ.
Qed.

End Stable.


(** ** The close flags only ever go up *)

Lemma done_stable f s :
  system_step f -> done (stdio s) = true -> done (stdio (f s)) = true.
Proof.
  intros Hf. revert s.
  apply (system_step_stable (fun s => done (stdio s) = true)); auto;
    try (intros; simpl; assumption).
  intros s s' _ Hd _ H. congruence.
Qed.

Lemma twf_done_stable f s :
  system_step f -> twf_done (thr s) = true -> twf_done (thr (f s)) = true.
Proof.
  intros Hf. revert s.
  apply (system_step_stable (fun s => twf_done (thr s) = true)); auto;
    try (intros; simpl; assumption).
  intros s s' _ _ Hd H. congruence.
Qed.

Lemma closed_iff s :
  closed s = true <-> twf_done (thr s) = true /\ done (stdio s) = true.
Proof. unfold closed. apply andb_true_iff. Qed.

Lemma closed_stable f s :
  system_step f -> closed s = true -> closed (f s) = true.
Proof.
  intros Hf H. apply closed_iff in H. destruct H as [H1 H2].
  apply closed_iff. split; [apply twf_done_stable | apply done_stable]; assumption.
Qed.

Lemma closed_stable_steps fs s :
  Forall system_step fs -> closed s = true ->
  closed (fold_left (fun s f => f s) fs s) = true.
Proof.
  intros Hfs. revert s.
  induction Hfs as [|f fs Hf Hfs IH]; intros s H; simpl; auto.
  apply IH, closed_stable; assumption.
Qed.

(** The two flags are set together. *)
Lemma flags_agree_stable f s :
  system_step f ->
  twf_done (thr s) = done (stdio s) ->
  twf_done (thr (f s)) = done (stdio (f s)).
Proof.
  intros Hf. revert s.
  apply (system_step_stable (fun s => twf_done (thr s) = done (stdio s))); auto;
    try (intros; simpl; assumption).
  intros s s' _ H1 H2 H. congruence.
Qed.

Lemma to_size_t_small x : 0 <= x < 2 ^ 64 -> C.to_size_t x = x.
Proof. intros H. unfold C.to_size_t. apply Z.mod_small. lia. Qed.

(** In a structure in use the two flags are equal. *)
Lemma reachable_flags_agree s :
  reachable s -> twf_done (thr s) = done (stdio s).
Proof.
  induction 1 as [k s Ht Hd|f s Hf Hs IH].
  - unfold run_thread_with_stdio.
    destruct (run_thread_with_file k _ _) as [[ret t] calls] eqn:E.
    simpl. rewrite Hd, <- Ht.
    unfold run_thread_with_file, run_err in E.
    repeat match type of E with
           | context [if ?c then _ else _] => destruct c
           end; inversion E; reflexivity.
  - apply flags_agree_stable; assumption.
Qed.

Lemma reachable_closed s :
  reachable s -> done (stdio s) = true -> closed s = true.
Proof.
  intros Hs Hd. apply closed_iff. split; [|exact Hd].
  rewrite (reachable_flags_agree s Hs). exact Hd.
Qed.

(** ** The input buffer stays within its capacity *)

Lemma nr_nonneg d : 0 <= nr d.
Proof. unfold nr. lia. Qed.

Lemma darray_room_nonneg d : 0 <= darray_room d.
Proof.
  unfold darray_room, C.to_size_t. apply Z.mod_pos_bound. lia.
Qed.

Lemma nr_darray_push d bytes :
  nr (darray_push d bytes) = nr d + Z.of_nat (length bytes).
Proof. unfold nr, darray_push. simpl. rewrite length_app. lia. Qed.

Lemma nr_darray_remove_front d n :
  nr (darray_remove_items d 0 n) = nr d - Z.min (Z.max 0 n) (nr d).
Proof.
  unfold nr, darray_remove_items. simpl. rewrite length_skipn. lia.
Qed.

Lemma input_bounded_iff s :
  input_bounded s = true <->
  nr (input (stdio s)) <= size (input (stdio s)) /\
  size (input (stdio s)) <= STDIO_REDIRECT_BUFSIZE.
Proof.
  unfold input_bounded. rewrite andb_true_iff, !Z.leb_le. reflexivity.
Qed.

Section Bounded.

Hypothesis bufsize_range : 0 <= STDIO_REDIRECT_BUFSIZE < 2 ^ 64.

(** An allocation is at least as large as asked for, and one for at most
    [STDIO_REDIRECT_BUFSIZE] bytes is not rounded beyond it (a power of two,
    when sizes are rounded to powers of two). *)
Hypothesis darray_grow_ge : forall n, n <= darray_grow n.
Hypothesis darray_grow_cap :
  forall n, n <= STDIO_REDIRECT_BUFSIZE -> darray_grow n <= STDIO_REDIRECT_BUFSIZE.

Lemma darray_room_small d :
  nr d <= size d < 2 ^ 64 -> darray_room d = size d - nr d.
Proof.
  intros H. unfold darray_room. apply to_size_t_small.
  pose proof (nr_nonneg d). lia.
Qed.

Lemma write_locked_bounded a b ubuf buf :
  nr buf <= size buf ->
  size buf <= STDIO_REDIRECT_BUFSIZE ->
  let buf' := fst (fst (write_locked a b ubuf buf)) in
  nr buf' <= size buf' /\ size buf' <= STDIO_REDIRECT_BUFSIZE.
Proof.
  intros Hnr Hsize. unfold write_locked. cbv zeta.
  set (buf1 := if nr buf <? STDIO_REDIRECT_BUFSIZE then _ else buf).
  assert (H1 : nr buf1 = nr buf /\ nr buf <= size buf1 <= STDIO_REDIRECT_BUFSIZE).
  { subst buf1. destruct (nr buf <? STDIO_REDIRECT_BUFSIZE) eqn:E; [|auto].
    apply Z.ltb_lt in E.
    unfold darray_make_room_gfp, __darray_resize.
    destruct (size buf <? _) eqn:E2; [|auto].
    destruct (alloc_ok a); simpl; [|auto].
    split; [reflexivity|]. apply Z.ltb_lt in E2.
    match goal with |- _ <= darray_grow ?n <= _ =>
      pose proof (darray_grow_ge n); pose proof (darray_grow_cap n) end.
    lia. }
  destruct H1 as [Hnr1 Hsize1].
  set (b' := Z.min (Z.of_nat (length ubuf)) (darray_room buf1)).
  assert (Hroom : darray_room buf1 = size buf1 - nr buf)
    by (rewrite darray_room_small; lia).
  destruct (negb (b' =? 0) && (copy_from_user_nofault a =? 0)); simpl.
  - rewrite nr_darray_push, length_firstn. split; [lia | tauto].
  - split; [lia | tauto].
Qed.

Lemma input_bounded_stable f s :
  system_step f -> input_bounded s = true -> input_bounded (f s) = true.
Proof.
  intros Hf. revert s.
  apply (system_step_stable (fun s => input_bounded s = true)); auto.
  - intros s s' Hi _ _ H. unfold input_bounded in *. rewrite Hi. exact H.
  - intros s n H. apply input_bounded_iff in H. apply input_bounded_iff. simpl.
    rewrite nr_darray_remove_front. pose proof (nr_nonneg (input (stdio s))). lia.
  - intros s _. apply input_bounded_iff. simpl. unfold nr. simpl. lia.
  - intros s a b ubuf H. apply input_bounded_iff in H. destruct H as [H1 H2].
    apply input_bounded_iff. simpl. apply write_locked_bounded; assumption.
Qed.

(** A structure in use has its input buffer within capacity. *)
Lemma reachable_input_bounded s : reachable s -> input_bounded s = true.
Proof.
  induction 1 as [k s _ _|f s Hf Hs IH].
  - unfold run_thread_with_stdio.
    destruct (run_thread_with_file k _ _) as [[ret t] calls].
    apply input_bounded_iff. simpl. unfold nr. simpl. lia.
  - apply input_bounded_stable; assumption.
Qed.

End Bounded.


(** ** stdio_redirect_read *)

Lemma to_int_small x : - 2 ^ 31 <= x < 2 ^ 31 -> C.to_int x = x.
Proof.
  intros H. unfold C.to_int. rewrite Z.mod_small; lia.
Qed.

Lemma to_long_small x : - 2 ^ 63 <= x < 2 ^ 63 -> C.to_long x = x.
Proof.
  intros H. unfold C.to_long. rewrite Z.mod_small; lia.
Qed.

Lemma wait_event_timeout_ready cond env s :
  cond s = true -> wait_event_timeout cond env s = (s, Some env).
Proof. intros H. destruct env; simpl; rewrite H; reflexivity. Qed.

Lemma wait_event_ready q cond env s :
  cond s = true -> wait_event q cond env s = (s, Some env).
Proof. intros H. unfold wait_event. rewrite H. reflexivity. Qed.

Lemma wait_event_interruptible_ready q cond env s :
  cond s = true -> wait_event_interruptible q cond env s = (s, Some 0).
Proof. intros H. unfold wait_event_interruptible. rewrite H. reflexivity. Qed.

Lemma wait_event_quiet q cond s :
  cond s = false -> wait_event q cond [] s = (s, None).
Proof. intros H. unfold wait_event. rewrite H. reflexivity. Qed.

Lemma wait_event_interruptible_quiet q cond s :
  cond s = false -> wait_event_interruptible q cond [] s = (s, None).
Proof. intros H. unfold wait_event_interruptible. rewrite H. reflexivity. Qed.

Lemma wait_event_interruptible_signal q cond env s :
  cond s = false ->
  wait_event_interruptible q cond (Signal :: env) s = (s, Some (- ERESTARTSYS)).
Proof. intros H. unfold wait_event_interruptible. rewrite H. reflexivity. Qed.

(** The sleeper goes on after a step that wakes its queue and leaves the
    condition true. *)
Lemma wait_event_next q cond (f : interference) (env : list interference) s :
  cond s = false -> woken q s (f s) = true -> cond (f s) = true ->
  wait_event q cond (f :: env) s = (f s, Some env).
Proof.
  intros H1 Hw H2. unfold wait_event. rewrite H1. cbn [asleep].
  rewrite Hw, H2. reflexivity.
Qed.

Lemma wait_event_interruptible_next q cond (f : interference) (env : list wakeup) s :
  cond s = false -> woken q s (f s) = true -> cond (f s) = true ->
  wait_event_interruptible q cond (Other f :: env) s = (f s, Some 0).
Proof.
  intros H1 Hw H2. unfold wait_event_interruptible. rewrite H1.
  cbn [asleep_interruptible]. rewrite Hw, H2. reflexivity.
Qed.

(** A step that does not wake the queue passes the sleeper by, whatever it
    does to the condition. *)
Lemma wait_event_missed q cond (f : interference) s :
  cond s = false -> woken q s (f s) = false ->
  wait_event q cond [f] s = (f s, None).
Proof.
  intros H1 Hw. unfold wait_event. rewrite H1. cbn [asleep].
  rewrite Hw. reflexivity.
Qed.

Lemma wait_event_interruptible_missed q cond (f : interference) s :
  cond s = false -> woken q s (f s) = false ->
  wait_event_interruptible q cond [Other f] s = (f s, None).
Proof.
  intros H1 Hw. unfold wait_event_interruptible. rewrite H1.
  cbn [asleep_interruptible]. rewrite Hw. reflexivity.
Qed.

Lemma wake_ups_logs q cs s :
  wake_ups q (logs cs s) = (wake_ups q s + length (filter (is_wake_up q) cs))%nat.
Proof. unfold wake_ups. cbn [logs klog]. rewrite filter_app, length_app. reflexivity. Qed.

Lemma is_wake_up_same q : is_wake_up q (wake_up q) = true.
Proof. destruct q; reflexivity. Qed.

(** A call that ends with [wake_up(q)] has woken [q]. *)
Lemma woken_log q s s0 :
  klog s0 = klog s -> woken q s (log (wake_up q) s0) = true.
Proof.
  intros H. unfold woken, log. rewrite wake_ups_logs. cbn [filter].
  rewrite is_wake_up_same. unfold wake_ups. rewrite H.
  apply Nat.ltb_lt. cbn [length]. lia.
Qed.

Lemma woken_thread_with_stdio_done q s :
  woken q s (thread_with_stdio_done s) = true.
Proof.
  unfold woken, wake_ups, thread_with_stdio_done. cbn [klog].
  rewrite filter_app, length_app. apply Nat.ltb_lt.
  destruct q; cbn; lia.
Qed.


Lemma stdio_redirect_read_open env s len :
  done (stdio s) = false ->
  0 < nr (input (stdio s)) < 2 ^ 31 ->
  0 <= len ->
  stdio_redirect_read env s len =
  Returns (Z.min len (nr (input (stdio s))),
           firstn (Z.to_nat (Z.min len (nr (input (stdio s))))) (data (input (stdio s))))
    (log (wake_up input_wait)
       (set_input (darray_remove_items (input (stdio s)) 0
                     (Z.min len (nr (input (stdio s))))) s)).
Proof.
  intros Hd Hnr Hlen. unfold stdio_redirect_read.
  rewrite wait_event_timeout_ready.
  - rewrite Hd. cbv zeta. rewrite to_int_small by lia. reflexivity.
  - unfold stdio_redirect_has_input.
    destruct (nr (input (stdio s)) =? 0) eqn:E; [apply Z.eqb_eq in E; lia | reflexivity].
Qed.



(** ** stdio_redirect_readline *)

Lemma wait_event_timeout_woken cond env s s' rest :
  wait_event_timeout cond env s = (s', rest) ->
  cond s' = match rest with Some _ => true | None => false end.
Proof.
  revert s. induction env as [|f env IH]; intros s E; simpl in E.
  - destruct (cond s) eqn:C; inversion E; subst; exact C.
  - destruct (cond s) eqn:C; [inversion E; subst; exact C|]. eapply IH; eauto.
Qed.

Lemma wait_event_timeout_quiet cond s :
  wait_event_timeout cond [] s = (s, if cond s then Some [] else None).
Proof. simpl. destruct (cond s); reflexivity. Qed.

Lemma memchr_Some s c : forall n i,
  memchr s c n = Some i ->
  0 <= i < Z.of_nat (Nat.min n (length s)) /\
  firstn (Z.to_nat (i + 1)) s = firstn (Z.to_nat i) s ++ [c] /\
  ~ In c (firstn (Z.to_nat i) s).
Proof using.
  clear STDIO_REDIRECT_BUFSIZE darray_grow.
  induction s as [|x s IH]; intros n i H.
  - destruct n; discriminate.
  - destruct n as [|n]; [discriminate|]. simpl in H.
    destruct (Byte.eqb x c) eqn:E.
    + inversion H; subst. apply Byte.byte_dec_bl in E. subst.
      simpl. split; [lia|]. split; [reflexivity | tauto].
    + destruct (memchr s c n) as [j|] eqn:M; [|discriminate].
      inversion H; subst. destruct (IH _ _ M) as (Hj & Hf & Hn).
      split; [simpl; lia|].
      replace (Z.to_nat (j + 1 + 1)) with (S (Z.to_nat (j + 1))) by lia.
      replace (Z.to_nat (j + 1)) with (S (Z.to_nat j)) in * by lia.
      rewrite !firstn_cons. split.
      * rewrite Hf. reflexivity.
      * intros [Hx|Hin]; [|tauto]. subst.
        apply Byte.eqb_false in E. congruence.
Qed.

Lemma memchr_None s c : forall n,
  memchr s c n = None -> ~ In c (firstn n s).
Proof using.
  clear STDIO_REDIRECT_BUFSIZE darray_grow.
  induction s as [|x s IH]; intros n H.
  - rewrite firstn_nil. tauto.
  - destruct n as [|n]; [simpl; tauto|]. simpl in H.
    destruct (Byte.eqb x c) eqn:E; [discriminate|].
    destruct (memchr s c n) eqn:M; [discriminate|].
    simpl. intros [Hx|Hin]; [|eapply IH; eauto]. subst.
    apply Byte.eqb_false in E. congruence.
Qed.

Lemma not_In_removelast (c : byte) l : ~ In c l -> ~ In c (removelast l).
Proof using.
  clear STDIO_REDIRECT_BUFSIZE darray_grow.
  induction l as [|x l IH]; simpl; [tauto|].
  destruct l; [tauto|]. intros H [Hx|Hin]; [tauto|]. apply IH; tauto.
Qed.

Lemma removelast_app_either (c : byte) l1 l2 :
  ~ In c l1 -> ~ In c (removelast l2) -> ~ In c (removelast (l1 ++ l2)).
Proof using.
  clear STDIO_REDIRECT_BUFSIZE darray_grow.
  intros H1 H2. destruct l2 as [|x l2].
  - rewrite app_nil_r. apply not_In_removelast, H1.
  - rewrite removelast_app by discriminate.
    intros H. apply in_app_or in H. tauto.
Qed.

Lemma readline_again_post fuel :
  forall env s acc len copied,
    0 <= len ->
    (Z.to_nat len < fuel)%nat ->
    copied = Z.of_nat (length acc) ->
    copied + len < 2 ^ 31 ->
    readline_post len acc (readline_again fuel env s acc len copied).
Proof using.
  clear STDIO_REDIRECT_BUFSIZE darray_grow.
  induction fuel as [|fuel IH]; intros env s acc len copied Hlen Hfuel Hcop Hint;
    [lia|].
  simpl.
  destruct (wait_event_timeout stdio_redirect_has_input env s) as [s1 rest] eqn:E.
  pose proof (wait_event_timeout_woken _ _ _ _ _ E) as Hcond.
  destruct rest as [env1|]; [|exact Hcond].
  destruct (done (stdio s1)) eqn:Hd.
  - (* the channel is closed *)
    simpl. exists []. rewrite app_nil_r. simpl.
    split; [reflexivity|]. split; [lia|]. split; [tauto|].
    split; [|congruence]. intros _. subst copied.
    unfold C.elvis. destruct (Z.of_nat (length acc) =? 0); [reflexivity|].
    apply to_int_small. lia.
  - unfold stdio_redirect_has_input in Hcond. rewrite Hd, orb_false_r in Hcond.
    apply negb_true_iff, Z.eqb_neq in Hcond.
    pose proof (nr_nonneg (input (stdio s1))) as Hnr.
    set (buf := input (stdio s1)) in *.
    set (b0 := Z.min len (nr buf)).
    destruct (memchr (data buf) newline (Z.to_nat b0)) as [i|] eqn:M.
    + (* a newline among the first b0 bytes *)
      destruct (memchr_Some _ _ _ _ M) as (Hi & Hf & Hn).
      assert (Hb : Z.min b0 (i + 1) = i + 1) by (unfold nr in *; lia).
      rewrite Hb. simpl.
      exists (firstn (Z.to_nat (i + 1)) (data buf)).
      assert (Hl : Z.of_nat (length (firstn (Z.to_nat (i + 1)) (data buf))) = i + 1).
      { rewrite length_firstn. unfold nr in *. lia. }
      split; [reflexivity|]. split; [lia|]. split.
      { rewrite Hf, removelast_last. exact Hn. }
      rewrite length_app, Nat2Z.inj_add, Hl.
      assert (Hr : C.to_int (C.elvis (copied + (i + 1)) 0) = Z.of_nat (length acc) + (i + 1)).
      { unfold C.elvis. destruct (copied + (i + 1) =? 0) eqn:Z0; [apply Z.eqb_eq in Z0; lia|].
        rewrite to_int_small; lia. }
      split; [congruence|]. intros _. split; [exact Hr|].
      left. eauto.
    + (* no newline *)
      pose proof (memchr_None _ _ _ M) as Hn.
      assert (Hl : Z.of_nat (length (firstn (Z.to_nat b0) (data buf))) = b0).
      { rewrite length_firstn. unfold nr in *. lia. }
      destruct (negb (len - b0 =? 0)) eqn:Hrest.
      * (* again *)
        apply negb_true_iff, Z.eqb_neq in Hrest.
        assert (0 < b0) by lia.
        specialize (IH env1
          (log (wake_up input_wait) (set_input (darray_remove_items buf 0 b0) s1))
          (acc ++ firstn (Z.to_nat b0) (data buf)) (len - b0) (copied + b0)).
        assert (Hpost : readline_post (len - b0) (acc ++ firstn (Z.to_nat b0) (data buf))
                  (readline_again fuel env1
                     (log (wake_up input_wait)
                        (set_input (darray_remove_items buf 0 b0) s1))
                     (acc ++ firstn (Z.to_nat b0) (data buf)) (len - b0) (copied + b0))).
        { apply IH; try lia. rewrite length_app, Nat2Z.inj_add. lia. }
        destruct (readline_again fuel env1 _ _ _ _) as [[r out] s'|s'|s'];
          simpl in Hpost |- *; auto.
        destruct Hpost as (more & Hout & Hlm & Hnl & Hc & Ho).
        exists (firstn (Z.to_nat b0) (data buf) ++ more).
        split; [rewrite Hout, app_assoc; reflexivity|].
        split; [rewrite length_app, Nat2Z.inj_add; lia|].
        split; [apply removelast_app_either; assumption|].
        split; [exact Hc|].
        intros Hopen. destruct (Ho Hopen) as [Hr Hwhy]. split; [exact Hr|].
        destruct Hwhy as [[pre Hpre]|Hfull].
        -- left. exists (firstn (Z.to_nat b0) (data buf) ++ pre).
           rewrite Hpre, app_assoc. reflexivity.
        -- right. rewrite length_app, Nat2Z.inj_add. lia.
      * (* the room is used up *)
        apply negb_false_iff, Z.eqb_eq in Hrest. simpl.
        exists (firstn (Z.to_nat b0) (data buf)).
        split; [reflexivity|]. split; [lia|].
        split; [apply not_In_removelast, Hn|].
        rewrite length_app, Nat2Z.inj_add, Hl.
        split; [congruence|]. intros _. split; [|right; lia].
        unfold C.elvis. destruct (copied + b0 =? 0) eqn:Z0.
        -- apply Z.eqb_eq in Z0. rewrite to_int_small; lia.
        -- rewrite to_int_small; lia.
Qed.

Lemma stdio_redirect_readline_closed env s len :
  done (stdio s) = true -> stdio_redirect_readline env s len = Returns (-1, []) s.
Proof.
  intros Hd. unfold stdio_redirect_readline. simpl.
  rewrite wait_event_timeout_ready by (unfold stdio_redirect_has_input; rewrite Hd; apply orb_true_r).
  rewrite Hd. reflexivity.
Qed.


Lemma data_darray_remove_front d n :
  data (darray_remove_items d 0 n) = skipn (Z.to_nat n) (data d).
Proof. reflexivity. Qed.

(** With nobody else at work, what a call of [stdio_redirect_readline] has
    stored and what it leaves in the input buffer make up what was there. *)
Lemma readline_again_conserves fuel :
  forall s acc len copied r out s',
    readline_again fuel [] s acc len copied = Returns (r, out) s' ->
    out ++ data (input (stdio s')) = acc ++ data (input (stdio s)).
Proof.
  induction fuel as [|fuel IH]; intros s acc len copied r out s' H; simpl in H;
    [discriminate|].
  destruct (stdio_redirect_has_input s); [|discriminate].
  destruct (done (stdio s)).
  - inversion H; subst. reflexivity.
  - set (b0 := Z.min len (nr (input (stdio s)))) in *.
    destruct (memchr _ _ _) as [i|].
    + inversion H; subst. simpl.
      rewrite <- app_assoc, firstn_skipn. reflexivity.
    + destruct (negb _).
      * apply IH in H. rewrite H. simpl.
        rewrite <- app_assoc, firstn_skipn. reflexivity.
      * inversion H; subst. simpl.
        rewrite <- app_assoc, firstn_skipn. reflexivity.
Qed.


(** A relation between the structure before and after that every step of
    the interference keeps stays kept through a sleep. *)
Section Related.

Variable R : thread_with_stdio -> thread_with_stdio -> Prop.

Hypothesis R_refl : forall s, R s s.
Hypothesis R_trans : forall s1 s2 s3, R s1 s2 -> R s2 s3 -> R s1 s3.

Lemma wait_event_timeout_related cond env :
  Forall (fun f => forall s, R s (f s)) env ->
  forall s s' rest,
    wait_event_timeout cond env s = (s', rest) ->
    R s s' /\
    match rest with
    | Some env' => Forall (fun f => forall s, R s (f s)) env'
    | None => True
    end.
Proof.
  induction 1 as [|f env Hf Henv IH]; intros s s' rest E;
    cbn [wait_event_timeout] in E.
  - destruct (cond s); inversion E; subst; split; auto.
  - destruct (cond s); [inversion E; subst; split; auto|].
    destruct (IH _ _ _ E) as [H1 H2]. split; [|exact H2].
    apply (R_trans _ (f s)); [apply Hf | exact H1].
Qed.



Lemma asleep_interruptible_related q cond env :
  Forall (fun f => forall s, R s (f s)) (others env) ->
  forall s s' r,
    asleep_interruptible q cond env s = (s', r) ->
    R s s' /\ (r = None \/ r = Some 0 \/ r = Some (- ERESTARTSYS)).
Proof.
  induction env as [|w env IH]; intros Henv s s' r E;
    cbn [asleep_interruptible] in E.
  - inversion E; subst. split; [apply R_refl | left; reflexivity].
  - destruct w as [f|]; cbn [others] in Henv.
    + inversion Henv as [|? ? Hf Hrest]; subst.
      destruct (woken q s (f s) && cond (f s)).
      * inversion E; subst. split; [apply Hf | right; left; reflexivity].
      * destruct (IH Hrest _ _ _ E) as [H1 Hr]. split; [|exact Hr].
        apply (R_trans _ (f s)); [apply Hf | exact H1].
    + inversion E; subst. split; [apply R_refl | right; right; reflexivity].
Qed.

Lemma wait_event_interruptible_related q cond env :
  Forall (fun f => forall s, R s (f s)) (others env) ->
  forall s s' r,
    wait_event_interruptible q cond env s = (s', r) ->
    R s s' /\ (r = None \/ r = Some 0 \/ r = Some (- ERESTARTSYS)).
Proof.
  intros Henv s s' r E. unfold wait_event_interruptible in E.
  destruct (cond s);
    [inversion E; subst; split; [apply R_refl | right; left; reflexivity]|].
  exact (asleep_interruptible_related _ _ _ Henv _ _ _ E).
Qed.

End Related.

Lemma wait_event_timeout_next cond f env s :
  cond s = false -> cond (f s) = true ->
  wait_event_timeout cond (f :: env) s = (f s, Some env).
Proof. intros H1 H2. cbn [wait_event_timeout]. rewrite H1. apply wait_event_timeout_ready, H2. Qed.

Lemma memchr_absent (c : byte) :
  forall l n, ~ In c l -> memchr l c n = None.
Proof using.
  clear STDIO_REDIRECT_BUFSIZE darray_grow.
  induction l as [|x l IH]; intros n Hin; destruct n; try reflexivity.
  cbn [memchr].
  assert (Hx : Byte.eqb x c = false).
  { destruct (Byte.eqb x c) eqn:E; [|reflexivity].
    apply Byte.byte_dec_bl in E. subst x. exfalso. apply Hin. left. reflexivity. }
  rewrite Hx, IH; [reflexivity|].
  intros H. apply Hin. right. exact H.
Qed.

Lemma darray_remove_front_app d l rest :
  data d = l ++ rest ->
  darray_remove_items d 0 (Z.of_nat (length l)) = {| data := rest; size := size d |}.
Proof.
  intros H. unfold darray_remove_items. rewrite Z.add_0_l, Nat2Z.id, H.
  cbn [Z.to_nat firstn app]. rewrite skipn_app, skipn_all, Nat.sub_diag.
  reflexivity.
Qed.

(** With other threads feeding the input buffer while the call sleeps, what
    the call has copied followed by what it leaves in the buffer is what the
    buffer held followed by what came in. *)
Lemma readline_again_feeds fuel :
  forall env s acc len copied r out s',
    Forall feeds env ->
    readline_again fuel env s acc len copied = Returns (r, out) s' ->
    exists added,
      out ++ data (input (stdio s')) = acc ++ data (input (stdio s)) ++ added.
Proof.
  induction fuel as [|fuel IH]; intros env s acc len copied r out s' Henv H;
    cbn [readline_again] in H; [discriminate|].
  destruct (wait_event_timeout stdio_redirect_has_input env s) as [s1 [rest|]] eqn:E;
    [|discriminate].
  destruct (wait_event_timeout_related
              (fun s s' => exists added,
                 data (input (stdio s')) = data (input (stdio s)) ++ added)
              ltac:(intros s0; exists []; symmetry; apply app_nil_r)
              ltac:(intros a b c [t1 H1] [t2 H2]; exists (t1 ++ t2);
                    rewrite H2, H1; symmetry; apply app_assoc)
              _ _ Henv _ _ _ E) as [[a1 Ha1] Hrest].
  destruct (done (stdio s1)).
  - inversion H; subst. exists a1. rewrite Ha1. reflexivity.
  - set (b0 := Z.min len (nr (input (stdio s1)))) in *.
    assert (Hstop : forall b,
              exists added,
                (acc ++ firstn (Z.to_nat b) (data (input (stdio s1)))) ++
                data (input (stdio
                        (log (wake_up input_wait)
                           (set_input (darray_remove_items (input (stdio s1)) 0 b) s1)))) =
                acc ++ data (input (stdio s)) ++ added).
    { intros b. exists a1. cbn [log logs set_input stdio input].
      rewrite data_darray_remove_front, <- app_assoc, firstn_skipn, Ha1.
      reflexivity. }
    destruct (memchr _ _ _) as [i|].
    + inversion H; subst. apply Hstop.
    + destruct (negb _).
      * apply IH in H; [|exact Hrest]. destruct H as [a2 Ha2].
        exists (a1 ++ a2). rewrite Ha2. cbn [log logs set_input stdio input].
        rewrite data_darray_remove_front, <- !app_assoc.
        rewrite (app_assoc (firstn _ _)), firstn_skipn, Ha1, <- app_assoc.
        reflexivity.
      * inversion H; subst. apply Hstop.
Qed.

(** A turn of the loop that finds the channel closed copies nothing: it
    returns what the call has copied so far and leaves the structure, the
    input buffer with it, as it found it. *)
Lemma readline_again_finds_closed fuel env s acc len copied s1 rest :
  wait_event_timeout stdio_redirect_has_input env s = (s1, Some rest) ->
  done (stdio s1) = true ->
  readline_again (S fuel) env s acc len copied =
  Returns (C.to_int (C.elvis copied (-1)), acc) s1.
Proof.
  intros E Hd. cbn [readline_again]. rewrite E, Hd. reflexivity.
Qed.

(** C2 (as amended): stdio_redirect_readline stops as soon as a newline is
    among the bytes copied, or maxLen is used up, or it finds the channel
    closed.  It returns Closed (-1) only if it had copied no byte when it
    found the channel closed, and otherwise the number of bytes copied: the
    bytes a call has copied when the channel closes are returned, once, as
    they have left the input buffer.  A call that finds the channel closed
    at once returns Closed and leaves in the input buffer what is there.
    With the caller writing and the channel closing while the call sleeps,
    what the call returns followed by what it leaves in the input buffer is
    what the buffer held followed by what came in: no byte is dropped and
    none is returned twice.  A turn of the call that finds the channel
    closed copies nothing and leaves the buffer as it found it; so a call
    that has taken the start of a line and then finds the channel closed
    returns that start, and what the closing thread left in the buffer stays
    there. *)
Theorem stdio_redirect_readline_spec
  (env : list interference) (s : thread_with_stdio) (len : Z) :
  0 <= len < 2 ^ 31 ->
  match stdio_redirect_readline env s len with
  | Returns (r, out) s' =>
      Z.of_nat (length out) <= len /\
      ~ In newline (removelast out) /\
      (done (stdio s') = true ->
       r = if Z.of_nat (length out) =? 0 then -1 else Z.of_nat (length out)) /\
      (done (stdio s') = false ->
       r = Z.of_nat (length out) /\
       ((exists pre, out = pre ++ [newline]) \/ Z.of_nat (length out) = len))
  | Sleeps s' => stdio_redirect_has_input s' = false
  | Running _ => False
  end /\
  (done (stdio s) = true ->
   stdio_redirect_readline env s len = Returns (-1, []) s) /\
  (forall r out s',
     stdio_redirect_readline [] s len = Returns (r, out) s' ->
     out ++ data (input (stdio s')) = data (input (stdio s))) /\
  (Forall feeds env ->
   forall r out s',
     stdio_redirect_readline env s len = Returns (r, out) s' ->
     exists added,
       out ++ data (input (stdio s')) = data (input (stdio s)) ++ added) /\
  (forall fuel env0 s0 acc copied s1 rest,
     wait_event_timeout stdio_redirect_has_input env0 s0 = (s1, Some rest) ->
     done (stdio s1) = true ->
     readline_again (S fuel) env0 s0 acc len copied =
     Returns (C.to_int (C.elvis copied (-1)), acc) s1) /\
  (forall (f : interference) (env' : list interference),
     let s1 := log (wake_up input_wait)
                 (set_input {| data := []; size := size (input (stdio s)) |} s) in
     done (stdio s) = false ->
     data (input (stdio s)) <> [] ->
     ~ In newline (data (input (stdio s))) ->
     nr (input (stdio s)) < len ->
     done (stdio (f s1)) = true ->
     stdio_redirect_readline (f :: env') s len =
     Returns (nr (input (stdio s)), data (input (stdio s))) (f s1)) /\
  (forall (f : interference) (env' : list interference),
     done (stdio s) = false ->
     nr (input (stdio s)) = 0 ->
     done (stdio (f s)) = true ->
     stdio_redirect_readline (f :: env') s len = Returns (-1, []) (f s)).
Proof using.
  clear STDIO_REDIRECT_BUFSIZE darray_grow.
  intros Hlen. split; [|split; [|split; [|split; [|split; [|split]]]]].
  - assert (H : readline_post len [] (readline_again (S (Z.to_nat len)) env s [] len 0))
      by (apply readline_again_post; try lia; reflexivity).
    unfold stdio_redirect_readline.
    destruct (readline_again _ env s [] len 0) as [[r out] s'|s'|s']; simpl in H |- *;
      [|exact H|exact H].
    destruct H as (more & Hout & Hl & Hn & Hc & Ho).
    simpl in Hout. subst more. auto.
  - apply stdio_redirect_readline_closed.
  - intros r out s' H. unfold stdio_redirect_readline in H.
    apply readline_again_conserves in H. exact H.
  - intros Henv r out s' H. unfold stdio_redirect_readline in H.
    apply (readline_again_feeds _ _ _ _ _ _ _ _ _ Henv) in H. exact H.
  - intros fuel env0 s0 acc copied s1 rest E Hd.
    apply (readline_again_finds_closed fuel env0 s0 acc len copied s1 rest E Hd).
  - intros f env' s1 Hopen Hne Hin Hlt Hclosed.
    remember (data (input (stdio s))) as l1 eqn:Hdata. symmetry in Hdata.
    assert (Hnr : nr (input (stdio s)) = Z.of_nat (length l1))
      by (unfold nr; rewrite Hdata; reflexivity).
    rewrite Hnr in *.
    assert (Hl1 : 0 < Z.of_nat (length l1)) by (destruct l1; [congruence | simpl; lia]).
    assert (Hhas : stdio_redirect_has_input s = true).
    { unfold stdio_redirect_has_input. rewrite Hnr.
      assert (E : (Z.of_nat (length l1) =? 0) = false) by (apply Z.eqb_neq; lia).
      rewrite E. reflexivity. }
    unfold stdio_redirect_readline.
    cbn [readline_again]. rewrite wait_event_timeout_ready by exact Hhas.
    rewrite Hopen, Hnr, Z.min_r by lia. rewrite Hdata.
    rewrite (memchr_absent newline l1 _ Hin), Nat2Z.id, firstn_all.
    assert (Hrem : darray_remove_items (input (stdio s)) 0 (Z.of_nat (length l1)) =
                   {| data := []; size := size (input (stdio s)) |}).
    { apply darray_remove_front_app. rewrite Hdata, app_nil_r. reflexivity. }
    rewrite Hrem. fold s1.
    assert (E : (len - Z.of_nat (length l1) =? 0) = false) by (apply Z.eqb_neq; lia).
    rewrite E. cbn [negb app Z.add].
    destruct (Z.to_nat len) as [|fuel] eqn:Efuel; [lia|].
    assert (H1 : stdio_redirect_has_input s1 = false) by (cbn; rewrite Hopen; reflexivity).
    assert (H2 : stdio_redirect_has_input (f s1) = true)
      by (unfold stdio_redirect_has_input; rewrite Hclosed; apply orb_true_r).
    rewrite (readline_again_finds_closed fuel (f :: env') s1 _ _ _ (f s1) env');
      [|apply (wait_event_timeout_next _ _ _ _ H1 H2) | exact Hclosed].
    unfold C.elvis.
    assert (E0 : (Z.of_nat (length l1) =? 0) = false) by (apply Z.eqb_neq; lia).
    rewrite E0, to_int_small by lia. reflexivity.
  - intros f env' Hopen Hempty Hclosed.
    assert (H1 : stdio_redirect_has_input s = false)
      by (unfold stdio_redirect_has_input; rewrite Hempty, Hopen; reflexivity).
    assert (H2 : stdio_redirect_has_input (f s) = true)
      by (unfold stdio_redirect_has_input; rewrite Hclosed; apply orb_true_r).
    unfold stdio_redirect_readline.
    rewrite (readline_again_finds_closed _ (f :: env') s _ _ _ (f s) env');
      [reflexivity | apply (wait_event_timeout_next _ _ _ _ H1 H2) | exact Hclosed].
Qed.


(** ** thread_with_stdio_write without faults *)

Lemma faultless_iff a :
  faultless a = true <->
  fault_in_readable a = 0 /\ alloc_ok a = true /\ copy_from_user_nofault a = 0.
Proof using.
  clear STDIO_REDIRECT_BUFSIZE darray_grow.
  unfold faultless. rewrite !andb_true_iff, !Z.eqb_eq. tauto.
Qed.

Section Append.

Hypothesis bufsize_range : 0 <= STDIO_REDIRECT_BUFSIZE < 2 ^ 64.

(** An allocation is at least as large as asked for, and one for at most
    [STDIO_REDIRECT_BUFSIZE] bytes is not rounded beyond it. *)
Hypothesis darray_grow_ge : forall n, n <= darray_grow n.
Hypothesis darray_grow_cap :
  forall n, n <= STDIO_REDIRECT_BUFSIZE -> darray_grow n <= STDIO_REDIRECT_BUFSIZE.

Lemma write_locked_faultless a ubuf buf :
  faultless a = true ->
  nr buf <= size buf <= STDIO_REDIRECT_BUFSIZE ->
  nr buf < STDIO_REDIRECT_BUFSIZE ->
  0 < Z.of_nat (length ubuf) ->
  let n := Z.min (Z.of_nat (length ubuf)) (STDIO_REDIRECT_BUFSIZE - nr buf) in
  exists size1,
    nr buf + n <= size1 <= STDIO_REDIRECT_BUFSIZE /\
    write_locked a (Z.of_nat (length ubuf)) ubuf buf =
    ({| data := data buf ++ firstn (Z.to_nat n) ubuf; size := size1 |}, n, true).
Proof.
  intros Ha Hbuf Hroom Hlen n. apply faultless_iff in Ha. destruct Ha as (_ & Hal & Hcp).
  unfold write_locked. cbv zeta.
  apply Z.ltb_lt in Hroom. rewrite Hroom. apply Z.ltb_lt in Hroom.
  fold n. unfold darray_make_room_gfp, __darray_resize. rewrite Hal, Hcp.
  set (size1 := if size buf <? nr buf + n then darray_grow (nr buf + n) else size buf).
  assert (Hsize1 : nr buf + n <= size1 <= STDIO_REDIRECT_BUFSIZE).
  { subst size1. destruct (size buf <? nr buf + n) eqn:E.
    - split; [apply darray_grow_ge | apply darray_grow_cap; lia].
    - apply Z.ltb_ge in E. lia. }
  exists size1. split; [exact Hsize1|].
  assert (Hb1 : fst (if size buf <? nr buf + n
                     then ({| data := data buf; size := darray_grow (nr buf + n) |}, 0)
                     else (buf, 0)) = {| data := data buf; size := size1 |}).
  { subst size1. destruct (size buf <? nr buf + n); [reflexivity|].
    destruct buf; reflexivity. }
  rewrite Hb1.
  assert (Hr : darray_room {| data := data buf; size := size1 |} = size1 - nr buf).
  { unfold darray_room. apply to_size_t_small. simpl.
    change (nr {| data := data buf; size := size1 |}) with (nr buf).
    pose proof (nr_nonneg buf). lia. }
  rewrite Hr. unfold darray_push. simpl.
  assert (Hn : Z.min (Z.of_nat (length ubuf)) (size1 - nr buf) = n) by lia.
  rewrite Hn.
  assert (Hn0 : (n =? 0) = false) by (apply Z.eqb_neq; lia).
  rewrite Hn0. reflexivity.
Qed.

Lemma write_locked_full a b ubuf buf :
  size buf = nr buf ->
  STDIO_REDIRECT_BUFSIZE <= nr buf ->
  write_locked a b ubuf buf = (buf, 0, false).
Proof.
  intros Hsize Hfull. unfold write_locked. cbv zeta.
  assert (H : (nr buf <? STDIO_REDIRECT_BUFSIZE) = false) by (apply Z.ltb_ge; lia).
  rewrite H. unfold darray_room. rewrite Hsize, Z.sub_diag.
  change (C.to_size_t 0) with 0.
  pose proof (Nat2Z.is_nonneg (length ubuf)).
  rewrite Z.min_r by lia. reflexivity.
Qed.

(** A non-blocking write with no fault on an open channel accepts the
    leading bytes that fit below [STDIO_REDIRECT_BUFSIZE], and returns their
    number. *)
Lemma thread_with_stdio_write_append a1 a2 k s ubuf :
  faultless a1 = true ->
  faultless a2 = true ->
  twf_done (thr s) = false ->
  nr (input (stdio s)) <= size (input (stdio s)) <= STDIO_REDIRECT_BUFSIZE ->
  nr (input (stdio s)) < STDIO_REDIRECT_BUFSIZE ->
  0 < Z.of_nat (length ubuf) < 2 ^ 63 ->
  let n := Z.min (Z.of_nat (length ubuf)) (STDIO_REDIRECT_BUFSIZE - nr (input (stdio s))) in
  exists s',
    thread_with_stdio_write true (a1 :: a2 :: k) s ubuf = Returns n s' /\
    data (input (stdio s')) = data (input (stdio s)) ++ firstn (Z.to_nat n) ubuf /\
    nr (input (stdio s')) <= size (input (stdio s')) <= STDIO_REDIRECT_BUFSIZE /\
    output (stdio s') = output (stdio s) /\
    done (stdio s') = done (stdio s) /\
    thr s' = thr s.
Proof.
  intros Ha1 Ha2 Hopen Hbuf Hroom Hlen n.
  destruct (write_locked_faultless a1 ubuf (input (stdio s)) Ha1 Hbuf Hroom (proj1 Hlen))
    as (size1 & Hsize1 & Hlocked).
  fold n in Hsize1, Hlocked.
  set (buf' := {| data := data (input (stdio s)) ++ firstn (Z.to_nat n) ubuf;
                  size := size1 |}) in *.
  assert (Hnr' : nr buf' = nr (input (stdio s)) + n).
  { unfold nr, buf'. simpl. rewrite length_app, length_firstn. unfold nr in *. lia. }
  pose proof (proj1 (faultless_iff a1) Ha1) as (Hf1 & _ & _).
  pose proof (proj1 (faultless_iff a2) Ha2) as (Hf2 & _ & _).
  unfold thread_with_stdio_write. rewrite write_loop_cons. cbv zeta.
  assert (H0 : (Z.of_nat (length ubuf) =? 0) = false) by (apply Z.eqb_neq; lia).
  rewrite H0, Hopen, Hf1, Z.sub_0_r, to_size_t_small, H0, Hlocked by lia.
  assert (Hn0 : (n =? 0) = false) by (apply Z.eqb_neq; lia).
  rewrite Hn0. cbn [negb].
  assert (Hleft : Z.of_nat (length (skipn (Z.to_nat n) ubuf)) = Z.of_nat (length ubuf) - n).
  { rewrite length_skipn. lia. }
  destruct (Z.of_nat (length ubuf) - n =? 0) eqn:Hrest.
  - (* everything fitted *)
    destruct k; cbn [write_loop]; rewrite ?write_loop_cons; cbv zeta;
      rewrite Hleft, Hrest.
    all: eexists; split;
      [ unfold C.elvis; rewrite Z.add_0_l, Hn0, to_long_small by lia; reflexivity
      | simpl; repeat split; try reflexivity; try lia;
        change (Z.of_nat (length (data (input (stdio s)) ++ firstn (Z.to_nat n) ubuf)))
          with (nr buf'); lia ].
  - (* the buffer is full *)
    apply Z.eqb_neq in Hrest.
    rewrite write_loop_cons. cbv zeta. rewrite Hleft.
    assert (H1 : (Z.of_nat (length ubuf) - n =? 0) = false) by (apply Z.eqb_neq; lia).
    rewrite H1. cbn [log logs set_input thr twf_done stdio input]. rewrite Hopen.
    rewrite Hf2, Z.sub_0_r, to_size_t_small, H1 by lia.
    assert (Hfull1 : size buf' = nr buf') by (rewrite Hnr'; simpl; lia).
    assert (Hfull2 : STDIO_REDIRECT_BUFSIZE <= nr buf') by (rewrite Hnr'; lia).
    rewrite (write_locked_full a2 _ _ buf' Hfull1 Hfull2).
    cbn [negb Z.eqb].
    eexists; split;
      [ unfold C.elvis; rewrite Z.add_0_l, Hn0, to_long_small by lia; reflexivity
      | simpl; repeat split; try reflexivity; try lia;
        change (Z.of_nat (length (data (input (stdio s)) ++ firstn (Z.to_nat n) ubuf)))
          with (nr buf'); lia ].
Qed.

End Append.


(** ** Writing to a closed channel *)

Lemma thread_with_stdio_write_closed nonblock k s ubuf :
  twf_done (thr s) = true ->
  ubuf <> [] ->
  thread_with_stdio_write nonblock k s ubuf = Returns (- EPIPE) s.
Proof.
  intros Hd Hu. unfold thread_with_stdio_write.
  assert (H0 : (Z.of_nat (length ubuf) =? 0) = false).
  { apply Z.eqb_neq. destruct ubuf; [congruence | simpl; lia]. }
  destruct k; [rewrite write_loop_nil | rewrite write_loop_cons; cbv zeta];
    rewrite H0, Hd; reflexivity.
Qed.

Lemma thread_with_stdio_write_nothing nonblock k s :
  thread_with_stdio_write nonblock k s [] = Returns 0 s.
Proof. destruct k; reflexivity. Qed.

Lemma stdio_redirect_vprintf_closed env allocs s nonblocking fmt :
  done (stdio s) = true ->
  stdio_redirect_vprintf env allocs s nonblocking fmt = Returns tt s.
Proof.
  intros Hd. unfold stdio_redirect_vprintf.
  assert (Hs : stdio_redirect_has_output_space s = true)
    by (unfold stdio_redirect_has_output_space; rewrite Hd; apply orb_true_r).
  destruct nonblocking; simpl.
  - rewrite Hs. simpl. unfold vprintf_checked. rewrite Hd. reflexivity.
  - rewrite wait_event_ready by exact Hs. unfold vprintf_checked. rewrite Hd. reflexivity.
Qed.

(** ** What a write returns, and what it has put in the buffer *)

Lemma wait_event_interruptible_consumes q cond env :
  Forall consumes (others env) ->
  forall s s' r,
    wait_event_interruptible q cond env s = (s', r) ->
    (exists taken, taken ++ data (input (stdio s')) = data (input (stdio s))) /\
    (r = None \/ r = Some 0 \/ r = Some (- ERESTARTSYS)).
Proof.
  apply (wait_event_interruptible_related
           (fun s s' => exists taken,
              taken ++ data (input (stdio s')) = data (input (stdio s)))).
  - intros s. exists []. reflexivity.
  - intros s1 s2 s3 [t1 H1] [t2 H2]. exists (t1 ++ t2).
    rewrite <- app_assoc, H2. exact H1.
Qed.

Lemma firstn_plus (l : list byte) (a b : nat) :
  firstn (a + b) l = firstn a l ++ firstn b (skipn a l).
Proof.
  revert l. induction a as [|a IH]; intros l; [reflexivity|].
  destruct l as [|x l]; simpl.
  - rewrite firstn_nil. reflexivity.
  - rewrite IH. reflexivity.
Qed.

Lemma write_locked_data a b ubuf buf :
  let '(buf', b', copy) := write_locked a b ubuf buf in
  (copy = true ->
   0 < b' <= Z.of_nat (length ubuf) /\
   data buf' = data buf ++ firstn (Z.to_nat b') ubuf) /\
  (copy = false -> data buf' = data buf).
Proof.
  unfold write_locked. cbv zeta.
  set (buf1 := if nr buf <? STDIO_REDIRECT_BUFSIZE then _ else buf).
  assert (H1 : data buf1 = data buf).
  { subst buf1. destruct (nr buf <? STDIO_REDIRECT_BUFSIZE); [|reflexivity].
    unfold darray_make_room_gfp, __darray_resize.
    destruct (size buf <? _); [|reflexivity]. destruct (alloc_ok a); reflexivity. }
  set (b' := Z.min (Z.of_nat (length ubuf)) (darray_room buf1)).
  destruct (negb (b' =? 0)) eqn:Hb; simpl.
  - destruct (copy_from_user_nofault a =? 0); simpl.
    + split; [|discriminate]. intros _. rewrite H1. split; [|reflexivity].
      apply negb_true_iff, Z.eqb_neq in Hb.
      pose proof (darray_room_nonneg buf1). lia.
    + split; [discriminate|]. intros _. exact H1.
  - split; [discriminate|]. intros _. exact H1.
Qed.


Lemma to_long_elvis copied err :
  0 <= copied < 2 ^ 63 ->
  - 2 ^ 63 <= err < 2 ^ 63 ->
  C.to_long (C.elvis copied err) = if copied =? 0 then err else copied.
Proof.
  intros Hc He. unfold C.elvis.
  destruct (copied =? 0); apply to_long_small; lia.
Qed.

Lemma write_post_stop s ubuf copied err :
  0 <= copied < 2 ^ 63 ->
  (err = 0 /\ ubuf = []) \/ In err [- EPIPE; - EFAULT; - EAGAIN; - ERESTARTSYS] ->
  write_post s ubuf copied (C.to_long (C.elvis copied err)) s.
Proof.
  intros Hc He. exists 0, []. simpl.
  split; [lia|]. split; [rewrite app_nil_r; reflexivity|].
  assert (Herr : - 2 ^ 63 <= err < 2 ^ 63).
  { destruct He as [[He _]|He]; [subst; lia|].
    simpl in He. unfold EPIPE, EFAULT, EAGAIN, ERESTARTSYS in He.
    destruct He as [He|[He|[He|[He|[]]]]]; subst; lia. }
  rewrite to_long_elvis by assumption.
  destruct (copied =? 0) eqn:E.
  - apply Z.eqb_eq in E. split; [lia|]. intros _. exact He.
  - apply Z.eqb_neq in E. split; [intros _; lia | lia].
Qed.

Lemma write_loop_accounts nonblock k :
  Forall consumes (flat_map (fun a => others (sleep a)) k) ->
  forall s ubuf copied ret r s',
    0 <= copied ->
    copied + Z.of_nat (length ubuf) < 2 ^ 63 ->
    ret = 0 ->
    write_loop nonblock k s ubuf copied ret = Returns r s' ->
    write_post s ubuf copied r s'.
Proof.
  induction k as [|a k IH]; intros Hk s ubuf copied ret r s' Hc Hsum Hret H; subst ret.
  - rewrite write_loop_nil in H.
    destruct (Z.of_nat (length ubuf) =? 0) eqn:E0.
    + inversion H; subst. apply write_post_stop; [lia|]. left. split; [reflexivity|].
      apply Z.eqb_eq in E0. destruct ubuf; [reflexivity | simpl in E0; lia].
    + destruct (twf_done (thr s)); [|discriminate].
      inversion H; subst. apply write_post_stop; [lia|]. right. simpl. tauto.
  - rewrite write_loop_cons in H. cbv zeta in H.
    destruct (Z.of_nat (length ubuf) =? 0) eqn:E0.
    { inversion H; subst. apply write_post_stop; [lia|]. left. split; [reflexivity|].
      apply Z.eqb_eq in E0. destruct ubuf; [reflexivity | simpl in E0; lia]. }
    destruct (twf_done (thr s)).
    { inversion H; subst. apply write_post_stop; [lia|]. right. simpl. tauto. }
    destruct (C.to_size_t _ =? 0).
    { inversion H; subst. apply write_post_stop; [lia|]. right. simpl. tauto. }
    simpl in Hk. apply Forall_app in Hk. destruct Hk as [Ha Hk].
    specialize (IH Hk).
    pose proof (write_locked_data a
                  (C.to_size_t (Z.of_nat (length ubuf) - fault_in_readable a))
                  ubuf (input (stdio s))) as Hdata.
    destruct (write_locked a _ ubuf (input (stdio s))) as [[buf b] copy].
    destruct Hdata as [Hcopy Hnocopy].
    destruct (negb (b =? 0)) eqn:Hb.
    + (* bytes were to be copied: next turn *)
      destruct copy.
      * destruct (Hcopy eq_refl) as [Hbr Hd].
        apply IH in H; [| lia | rewrite length_skipn; lia | reflexivity].
        destruct H as (n & taken & Hn & Hq & Hr1 & Hr2).
        rewrite length_skipn in Hn. simpl in Hq. rewrite Hd, <- app_assoc in Hq.
        exists (b + n), taken.
        split; [lia|]. split.
        { rewrite Hq. replace (Z.to_nat (b + n)) with (Z.to_nat b + Z.to_nat n)%nat by lia.
          rewrite firstn_plus. reflexivity. }
        split; [intros _; rewrite Hr1; lia | lia].
      * pose proof (Hnocopy eq_refl) as Hd.
        apply IH in H; [| lia | lia | reflexivity].
        destruct H as (n & taken & Hn & Hq & Hr1 & Hr2).
        simpl in Hq. rewrite Hd in Hq.
        exists n, taken. auto.
    + (* no room *)
      apply negb_false_iff, Z.eqb_eq in Hb. subst b.
      assert (Hd : data buf = data (input (stdio s))).
      { destruct copy; [destruct (Hcopy eq_refl); lia | auto]. }
      assert (Hcp : (if copy then copied + 0 else copied) = copied)
        by (destruct copy; lia).
      assert (Hub : (if copy then skipn (Z.to_nat 0) ubuf else ubuf) = ubuf)
        by (destruct copy; reflexivity).
      rewrite Hcp, Hub in H.
      destruct nonblock.
      * inversion H; subst.
        destruct (write_post_stop (set_input buf s) ubuf copied (- EAGAIN))
          as (n & taken & Hn & Hq & Hr); [lia | right; simpl; tauto |].
        exists n, taken. simpl in Hq. rewrite Hd in Hq.
        split; [exact Hn|]. split; [simpl; rewrite Hd; exact Hq | exact Hr].
      * destruct (wait_event_interruptible input_wait stdio_redirect_has_input_space (sleep a)
                    (set_input buf s)) as [s1 w] eqn:E.
        destruct (wait_event_interruptible_consumes _ _ _ Ha _ _ _ E) as [[t1 Ht1] Hw].
        simpl in Ht1. rewrite Hd in Ht1.
        destruct w as [w|]; [|discriminate].
        destruct (negb (w =? 0)) eqn:Hw0.
        -- inversion H; subst.
           apply negb_true_iff, Z.eqb_neq in Hw0.
           assert (w = - ERESTARTSYS) by (destruct Hw as [?|[?|?]]; congruence).
           subst w.
           destruct (write_post_stop s' ubuf copied (- ERESTARTSYS))
             as (n & taken & Hn & Hq & Hr); [lia | right; simpl; tauto |].
           exists n, (t1 ++ taken). split; [exact Hn|]. split; [|exact Hr].
           rewrite <- app_assoc, Hq, app_assoc, Ht1. reflexivity.
        -- apply negb_false_iff, Z.eqb_eq in Hw0. subst w.
           apply IH in H; [| lia | lia | reflexivity].
           destruct H as (n & taken & Hn & Hq & Hr).
           exists n, (t1 ++ taken). split; [exact Hn|]. split; [|exact Hr].
           rewrite <- app_assoc, Hq, app_assoc, Ht1. reflexivity.
Qed.

(** ** The caller's write feeds the input buffer *)

Lemma feeds_seq (f g : interference) :
  feeds f -> feeds g -> feeds (fun s => g (f s)).
Proof.
  intros Hf Hg s. destruct (Hf s) as [a1 H1]. destruct (Hg (f s)) as [a2 H2].
  exists (a1 ++ a2). rewrite H2, H1. symmetry. apply app_assoc.
Qed.

Lemma feeds_thread_with_stdio_done : feeds thread_with_stdio_done.
Proof. intros s. exists []. symmetry. apply app_nil_r. Qed.

Lemma write_loop_feeds nonblock k :
  Forall feeds (flat_map (fun a => others (sleep a)) k) ->
  forall s ubuf copied ret,
    exists added,
      data (input (stdio (final (write_loop nonblock k s ubuf copied ret)))) =
      data (input (stdio s)) ++ added.
Proof.
  assert (Hsame : forall s : thread_with_stdio,
            exists added, data (input (stdio s)) = data (input (stdio s)) ++ added)
    by (intros s; exists []; symmetry; apply app_nil_r).
  induction k as [|a k IH]; intros Hk s ubuf copied ret.
  - rewrite write_loop_nil.
    destruct (Z.of_nat (length ubuf) =? 0); [apply Hsame|].
    destruct (twf_done (thr s)); apply Hsame.
  - rewrite write_loop_cons. cbv zeta.
    destruct (Z.of_nat (length ubuf) =? 0); [apply Hsame|].
    destruct (twf_done (thr s)); [apply Hsame|].
    destruct (C.to_size_t _ =? 0); [apply Hsame|].
    cbn [flat_map] in Hk. apply Forall_app in Hk. destruct Hk as [Ha Hk].
    specialize (IH Hk).
    pose proof (write_locked_data a
                  (C.to_size_t (Z.of_nat (length ubuf) - fault_in_readable a))
                  ubuf (input (stdio s))) as Hdata.
    destruct (write_locked a _ ubuf (input (stdio s))) as [[buf b] copy].
    assert (Hbuf : exists a1, data buf = data (input (stdio s)) ++ a1).
    { destruct copy.
      - destruct (proj1 Hdata eq_refl) as [_ H]. eexists. exact H.
      - exists []. rewrite (proj2 Hdata eq_refl). symmetry. apply app_nil_r. }
    destruct Hbuf as [a1 Ha1].
    assert (Hnext : forall s1 ubuf1 copied1 ret1,
              (exists a2, data (input (stdio s1)) = data buf ++ a2) ->
              exists added,
                data (input (stdio (final (write_loop nonblock k s1 ubuf1 copied1 ret1)))) =
                data (input (stdio s)) ++ added).
    { intros s1 ubuf1 copied1 ret1 [a2 Ha2].
      destruct (IH s1 ubuf1 copied1 ret1) as [a3 Ha3].
      exists (a1 ++ a2 ++ a3). rewrite Ha3, Ha2, Ha1, <- !app_assoc. reflexivity. }
    destruct (negb (b =? 0)).
    + apply Hnext. exists []. cbn [log logs set_input stdio input].
      symmetry. apply app_nil_r.
    + destruct nonblock; [exists a1; exact Ha1|].
      destruct (wait_event_interruptible input_wait stdio_redirect_has_input_space
                  (sleep a) (set_input buf s)) as [s' r] eqn:E.
      destruct (wait_event_interruptible_related
                  (fun s s' => exists added,
                     data (input (stdio s')) = data (input (stdio s)) ++ added)
                  ltac:(intros s0; exists []; symmetry; apply app_nil_r)
                  ltac:(intros x y z [t1 H1] [t2 H2]; exists (t1 ++ t2);
                        rewrite H2, H1; symmetry; apply app_assoc)
                  _ _ _ Ha _ _ _ E) as [[a2 Ha2] _].
      cbn [set_input stdio input] in Ha2.
      destruct r as [r|].
      * destruct (negb (r =? 0)).
        -- exists (a1 ++ a2). cbn [final]. rewrite Ha2, Ha1, <- app_assoc. reflexivity.
        -- apply Hnext. exists a2. exact Ha2.
      * exists (a1 ++ a2). cbn [final]. rewrite Ha2, Ha1, <- app_assoc. reflexivity.
Qed.

Lemma thread_with_stdio_write_feeds nonblock k ubuf :
  Forall feeds (flat_map (fun a => others (sleep a)) k) ->
  feeds (fun s => final (thread_with_stdio_write nonblock k s ubuf)).
Proof. intros Hk s. apply write_loop_feeds, Hk. Qed.


(** C5 (as amended): a thread_with_stdio_write of at least one byte on a
    closed channel accepts nothing and fails with BrokenPipe (-EPIPE); the
    worker-facing write, stdio_redirect_vprintf, returns no value, and on a
    closed channel it returns leaving both buffers as they are.  Whenever
    thread_with_stdio_write returns, it returns the number of bytes it
    accepted if that is not 0, and otherwise 0 for a write of no bytes or the
    error that stopped it. *)
Theorem write_after_close
  (nonblock : bool) (k : list write_answers) (s : thread_with_stdio)
  (ubuf : list byte) (env : list interference) (allocs : list bool)
  (nonblocking : bool) (fmt : list byte) :
  (twf_done (thr s) = true ->
   ubuf <> [] ->
   thread_with_stdio_write nonblock k s ubuf = Returns (- EPIPE) s) /\
  (done (stdio s) = true ->
   stdio_redirect_vprintf env allocs s nonblocking fmt = Returns tt s) /\
  (Forall consumes (flat_map (fun a => others (sleep a)) k) ->
   Z.of_nat (length ubuf) < 2 ^ 63 ->
   forall r s',
     thread_with_stdio_write nonblock k s ubuf = Returns r s' ->
     exists n taken,
       0 <= n <= Z.of_nat (length ubuf) /\
       taken ++ data (input (stdio s')) =
         data (input (stdio s)) ++ firstn (Z.to_nat n) ubuf /\
       (n <> 0 -> r = n) /\
       (n = 0 ->
        (r = 0 /\ ubuf = []) \/ In r [- EPIPE; - EFAULT; - EAGAIN; - ERESTARTSYS])).
Proof.
  split; [apply thread_with_stdio_write_closed|].
  split; [apply stdio_redirect_vprintf_closed|].
  intros Hk Hlen r s' H.
  apply (write_loop_accounts nonblock k Hk s ubuf 0 0 r s') in H; [|lia|lia|reflexivity].
  destruct H as (n & taken & Hn & Hq & Hr1 & Hr2).
  exists n, taken. rewrite !Z.add_0_l in *. auto.
Qed.

(** ** Non-blocking calls that cannot go on *)

Lemma set_input_same s : set_input (input (stdio s)) s = s.
Proof. destruct s as [t [i o d] l]. reflexivity. Qed.

Lemma thread_with_stdio_read_would_block env k s len :
  done (stdio s) = false ->
  nr (output (stdio s)) = 0 ->
  thread_with_stdio_read true env k s len = Returns (- EAGAIN, []) s.
Proof.
  intros Hd Hnr. unfold thread_with_stdio_read, stdio_redirect_has_output.
  rewrite Hd, Hnr. reflexivity.
Qed.

Lemma thread_with_stdio_write_would_block a k s ubuf :
  twf_done (thr s) = false ->
  input_bounded s = true ->
  STDIO_REDIRECT_BUFSIZE <= nr (input (stdio s)) ->
  Z.of_nat (length ubuf) < 2 ^ 64 ->
  0 <= fault_in_readable a < Z.of_nat (length ubuf) ->
  thread_with_stdio_write true (a :: k) s ubuf = Returns (- EAGAIN) s.
Proof.
  intros Hopen Hb Hfull Hlen Hfault. apply input_bounded_iff in Hb.
  unfold thread_with_stdio_write. rewrite write_loop_cons. cbv zeta.
  assert (H0 : (Z.of_nat (length ubuf) =? 0) = false) by (apply Z.eqb_neq; lia).
  rewrite H0, Hopen, to_size_t_small by lia.
  assert (H1 : (Z.of_nat (length ubuf) - fault_in_readable a =? 0) = false)
    by (apply Z.eqb_neq; lia).
  rewrite H1, write_locked_full by lia.
  cbn [negb Z.eqb]. rewrite set_input_same. reflexivity.
Qed.

(** C9 (as amended): a non-blocking thread_with_stdio_read on an empty
    output buffer of an open channel returns WouldBlock (-EAGAIN) and changes
    nothing; so does a non-blocking thread_with_stdio_write of at least one
    byte, some of which can be faulted in, on a full input buffer of an open
    channel of a structure in use. *)
Theorem nonblocking_would_block (s : thread_with_stdio) :
  (done (stdio s) = false ->
   nr (output (stdio s)) = 0 ->
   forall env k len,
     thread_with_stdio_read true env k s len = Returns (- EAGAIN, []) s) /\
  (twf_done (thr s) = false ->
   input_bounded s = true ->
   STDIO_REDIRECT_BUFSIZE <= nr (input (stdio s)) ->
   forall a k ubuf,
     Z.of_nat (length ubuf) < 2 ^ 64 ->
     0 <= fault_in_readable a < Z.of_nat (length ubuf) ->
     thread_with_stdio_write true (a :: k) s ubuf = Returns (- EAGAIN) s).
Proof.
  split.
  - intros Hd Hnr env k len. apply thread_with_stdio_read_would_block; assumption.
  - intros Hopen Hb Hfull a k ubuf Hlen Hfault.
    apply thread_with_stdio_write_would_block; assumption.
Qed.

(** ** poll *)

Lemma thread_with_stdio_poll_closed s :
  closed s = true -> fst (thread_with_stdio_poll s) = EPOLL_ALL.
Proof.
  intros H. apply closed_iff in H. destruct H as [H1 H2].
  unfold thread_with_stdio_poll, stdio_redirect_has_output,
    stdio_redirect_has_input_space. simpl.
  rewrite H1, H2, !orb_true_r. reflexivity.
Qed.

(** C6: in every state in which the close flag is set (both [thr.done] and
    [stdio.done], which thread_with_stdio_done sets together and which are
    equal in a structure in use), thread_with_stdio_poll reports readable,
    writable, hangup and error, whatever the buffers hold; and so it does
    after any further steps of the system. *)
Theorem poll_after_close (s : thread_with_stdio) (fs : list interference) :
  Forall system_step fs ->
  let mask := fst (thread_with_stdio_poll (fold_left (fun s f => f s) fs s)) in
  (closed s = true ->
   mask = EPOLL_ALL /\
   Z.land mask EPOLLIN = EPOLLIN /\
   Z.land mask EPOLLOUT = EPOLLOUT /\
   Z.land mask EPOLLHUP = EPOLLHUP /\
   Z.land mask EPOLLERR = EPOLLERR) /\
  (reachable s -> done (stdio s) = true -> mask = EPOLL_ALL).
Proof.
  intros Hfs mask.
  assert (Hm : closed s = true -> mask = EPOLL_ALL).
  { intros Hc. apply thread_with_stdio_poll_closed, closed_stable_steps; assumption. }
  split.
  - intros Hc. rewrite (Hm Hc). repeat split; reflexivity.
  - intros Hs Hd. apply Hm, reachable_closed; assumption.
Qed.

(** ** The close flag *)

(** C8: no step of the system resets the close flags once they are set;
    thread_with_stdio_done sets them, a second call leaves the structure as
    the first did, and each call issues wake_up on the wait queues of both
    buffers. *)
Theorem close_flag_monotonic (s : thread_with_stdio) :
  (forall f, system_step f ->
     (done (stdio s) = true -> done (stdio (f s)) = true) /\
     (twf_done (thr s) = true -> twf_done (thr (f s)) = true)) /\
  closed (thread_with_stdio_done s) = true /\
  thr (thread_with_stdio_done (thread_with_stdio_done s)) = thr (thread_with_stdio_done s) /\
  stdio (thread_with_stdio_done (thread_with_stdio_done s)) = stdio (thread_with_stdio_done s) /\
  klog (thread_with_stdio_done s) = klog s ++ [wake_up input_wait; wake_up output_wait].
Proof.
  split.
  - intros f Hf. split; [apply done_stable | apply twf_done_stable]; assumption.
  - repeat split; reflexivity.
Qed.

(** ** Starting the thread *)

Lemma PTR_ERR_OR_ZERO_valid ptr :
  0 <= ptr < 2 ^ 64 - MAX_ERRNO -> PTR_ERR_OR_ZERO ptr = 0.
Proof.
  intros H. unfold PTR_ERR_OR_ZERO, IS_ERR.
  change (C.to_size_t (- MAX_ERRNO)) with (2 ^ 64 - MAX_ERRNO).
  destruct (2 ^ 64 - MAX_ERRNO <=? ptr) eqn:E; [apply Z.leb_le in E; lia | reflexivity].
Qed.

Lemma PTR_ERR_OR_ZERO_error ptr :
  2 ^ 64 - MAX_ERRNO <= ptr < 2 ^ 64 ->
  PTR_ERR_OR_ZERO ptr = ptr - 2 ^ 64 /\ - MAX_ERRNO <= PTR_ERR_OR_ZERO ptr < 0.
Proof.
  intros H. unfold PTR_ERR_OR_ZERO, IS_ERR, PTR_ERR.
  change (C.to_size_t (- MAX_ERRNO)) with (2 ^ 64 - MAX_ERRNO).
  destruct (2 ^ 64 - MAX_ERRNO <=? ptr) eqn:E; [|apply Z.leb_gt in E; lia].
  unfold MAX_ERRNO in *.
  assert (Hl : C.to_long ptr = ptr - 2 ^ 64).
  { unfold C.to_long.
    replace (ptr + 2 ^ 63) with (ptr - 2 ^ 63 + 1 * 2 ^ 64) by lia.
    rewrite Z.mod_add by lia. rewrite Z.mod_small; lia. }
  rewrite Hl, to_int_small by lia. lia.
Qed.


(** C10: when run_thread_with_file fails after the thread was created,
    because no descriptor could be reserved or the anonymous file could not
    be made, the thread is stopped, the descriptor is released if one was
    reserved, a negative error code is returned and no descriptor is
    installed; on success the descriptor is installed and returned, and it is
    not negative. *)
Theorem run_thread_with_file_outcomes
  (k : run_answers) (t : thread_with_file) (fops : file_operations) :
  let task := kthread_create_ret k in
  let fd := get_unused_fd_flags_ret k in
  let file := anon_inode_getfile_ret k in
  let flags := run_fd_flags fops in
  let t' := {| twf_task := task; twf_ret := 0; twf_done := twf_done t |} in
  0 < task < 2 ^ 64 - MAX_ERRNO ->
  0 <= file < 2 ^ 64 ->
  (fd < 0 ->
   run_thread_with_file k t fops =
   (fd, t', [kthread_create; get_unused_fd_flags flags; kthread_stop task])) /\
  (0 <= fd -> IS_ERR file = true ->
   file - 2 ^ 64 < 0 /\
   run_thread_with_file k t fops =
   (file - 2 ^ 64, t',
    [kthread_create; get_unused_fd_flags flags; anon_inode_getfile flags;
     put_unused_fd fd; kthread_stop task])) /\
  (0 <= fd -> IS_ERR file = false ->
   run_thread_with_file k t fops =
   (fd, t',
    [kthread_create; get_unused_fd_flags flags; anon_inode_getfile flags;
     get_task_struct task; wake_up_process task; fd_install fd file])).
Proof.
  intros task fd file flags t' Htask Hfile.
  assert (Hcreated : PTR_ERR_OR_ZERO task = 0) by (apply PTR_ERR_OR_ZERO_valid; lia).
  assert (Htask0 : (task =? 0) = false) by (apply Z.eqb_neq; lia).
  unfold run_thread_with_file, run_err. cbv zeta. cbn [twf_task].
  fold task fd file flags. rewrite Hcreated. cbn [Z.eqb negb].
  split; [|split].
  - intros Hfd. apply Z.ltb_lt in Hfd. rewrite Hfd.
    change (0 <=? -1) with false. cbn iota. rewrite Htask0. reflexivity.
  - intros Hfd Herr.
    assert (Hfd' : (fd <? 0) = false) by (apply Z.ltb_ge; lia).
    rewrite Hfd'.
    assert (Hrange : 2 ^ 64 - MAX_ERRNO <= file < 2 ^ 64).
    { unfold IS_ERR in Herr. apply Z.leb_le in Herr.
      change (C.to_size_t (- MAX_ERRNO)) with (2 ^ 64 - MAX_ERRNO) in Herr. lia. }
    destruct (PTR_ERR_OR_ZERO_error file Hrange) as [Hval Hneg].
    rewrite Hval in *. split; [lia|].
    assert (Hnz : (file - 2 ^ 64 =? 0) = false) by (apply Z.eqb_neq; lia).
    rewrite Hnz. cbn [negb].
    apply Z.leb_le in Hfd. rewrite Hfd, Htask0. reflexivity.
  - intros Hfd Hok.
    assert (Hfd' : (fd <? 0) = false) by (apply Z.ltb_ge; lia).
    rewrite Hfd'. unfold PTR_ERR_OR_ZERO. rewrite Hok. reflexivity.
Qed.

(** ** darray_vprintf *)

Lemma darray_vprintf_fits allocs out fmt :
  vsnprintf fmt + 1 <= darray_room out ->
  darray_vprintf allocs out fmt = darray_push out fmt.
Proof.
  intros Hroom. unfold darray_vprintf.
  assert (H : darray_vprintf_loop allocs out fmt = (out, vsnprintf fmt)).
  { destruct allocs; simpl;
      (destruct (darray_room out <? vsnprintf fmt + 1) eqn:E;
       [apply Z.ltb_lt in E; lia | reflexivity]). }
  rewrite H. unfold vsnprintf_stored, vsnprintf in *.
  destruct (darray_room out <=? 0) eqn:E; [apply Z.leb_le in E; lia|].
  rewrite Z.min_l by lia. f_equal.
  rewrite Nat2Z.id, firstn_app, firstn_firstn.
  replace (Nat.min (length fmt) (Z.to_nat (darray_room out - 1))) with (length fmt) by lia.
  rewrite firstn_all, length_firstn.
  replace (length fmt - Nat.min (Z.to_nat (darray_room out - 1)) (length fmt))%nat
    with 0%nat by lia.
  simpl. apply app_nil_r.
Qed.

Lemma darray_vprintf_loop_no_memory allocs out fmt :
  hd false allocs = false ->
  nr out <= size out < 2 ^ 64 ->
  darray_vprintf_loop allocs out fmt = (out, vsnprintf fmt).
Proof.
  intros Halloc Hwf.
  assert (Hroom : darray_room out = size out - nr out).
  { unfold darray_room. apply to_size_t_small. pose proof (nr_nonneg out). lia. }
  destruct allocs as [|ok allocs]; simpl in *;
    (destruct (darray_room out <? vsnprintf fmt + 1) eqn:E; [|reflexivity]);
    apply Z.ltb_lt in E; unfold darray_make_room_gfp, __darray_resize;
    (assert (Hlt : (size out <? nr out + (vsnprintf fmt + 1)) = true)
      by (apply Z.ltb_lt; lia)); rewrite Hlt.
  - reflexivity.
  - subst ok. reflexivity.
Qed.

(** When the text does not fit and the allocator gives nothing, the bytes
    stored are the text cut to one byte less than the room, and the NUL that
    [vsnprintf] put after them. *)
Lemma darray_vprintf_truncated allocs out fmt :
  hd false allocs = false ->
  nr out <= size out < 2 ^ 64 ->
  0 < darray_room out <= vsnprintf fmt ->
  darray_vprintf allocs out fmt =
  darray_push out (firstn (Z.to_nat (darray_room out - 1)) fmt ++ [NUL]).
Proof.
  intros Halloc Hwf Hroom. unfold darray_vprintf.
  rewrite darray_vprintf_loop_no_memory by assumption.
  unfold vsnprintf_stored, vsnprintf in *.
  destruct (darray_room out <=? 0) eqn:E; [apply Z.leb_le in E; lia|].
  rewrite Z.min_r by lia. f_equal.
  apply firstn_all2. rewrite length_app, length_firstn. simpl. lia.
Qed.

(** When there is no room at all, nothing is stored. *)
Lemma darray_vprintf_no_room allocs out fmt :
  hd false allocs = false ->
  nr out <= size out < 2 ^ 64 ->
  darray_room out = 0 ->
  darray_vprintf allocs out fmt = darray_push out [].
Proof.
  intros Halloc Hwf Hroom. unfold darray_vprintf.
  rewrite darray_vprintf_loop_no_memory by assumption.
  rewrite Hroom. unfold vsnprintf_stored. simpl. rewrite firstn_nil. reflexivity.
Qed.

(** * Further properties of the calls *)

(** ** thread_with_stdio_read *)

Lemma read_loop_stops k s ubuf len copied ret :
  len = 0 \/ nr (output (stdio s)) = 0 ->
  read_loop k s ubuf len copied ret =
  Returns (C.to_long (C.elvis copied ret), ubuf) s.
Proof.
  intros H.
  assert (E : negb (len =? 0) && negb (nr (output (stdio s)) =? 0) = false).
  { destruct H as [H|H]; rewrite H; simpl; [reflexivity|apply andb_false_r]. }
  destruct k; simpl; rewrite E; reflexivity.
Qed.

Lemma set_output_same s : set_output (output (stdio s)) s = s.
Proof. destruct s as [t [i o d] l]. reflexivity. Qed.

Lemma darray_remove_none d : darray_remove_items d 0 0 = d.
Proof. destruct d. reflexivity. Qed.

Lemma thread_with_stdio_read_ready nonblock env k s len :
  stdio_redirect_has_output s = true ->
  thread_with_stdio_read nonblock env k s len = read_loop k s [] len 0 0.
Proof.
  intros H. unfold thread_with_stdio_read.
  destruct nonblock; cbn [negb].
  - rewrite H. reflexivity.
  - rewrite wait_event_interruptible_ready by exact H. reflexivity.
Qed.

Lemma has_output_nonempty s :
  0 < nr (output (stdio s)) -> stdio_redirect_has_output s = true.
Proof.
  intros H. unfold stdio_redirect_has_output.
  assert (E : (nr (output (stdio s)) =? 0) = false) by (apply Z.eqb_neq; lia).
  rewrite E. reflexivity.
Qed.

Lemma thread_with_stdio_read_front nonblock env a k s len :
  0 < len ->
  0 < nr (output (stdio s)) < 2 ^ 63 ->
  fault_in_writeable a <> len ->
  copy_to_user_nofault a = 0 ->
  let b := Z.min len (nr (output (stdio s))) in
  thread_with_stdio_read nonblock env (a :: k) s len =
  Returns (b, firstn (Z.to_nat b) (data (output (stdio s))))
    (set_output (darray_remove_items (output (stdio s)) 0 b) s).
Proof.
  intros Hlen Hnr Hfault Hcopy b.
  rewrite thread_with_stdio_read_ready by (apply has_output_nonempty; lia).
  cbn [read_loop].
  assert (E1 : (len =? 0) = false) by (apply Z.eqb_neq; lia).
  assert (E2 : (nr (output (stdio s)) =? 0) = false) by (apply Z.eqb_neq; lia).
  assert (E3 : (fault_in_writeable a =? len) = false) by (apply Z.eqb_neq; exact Hfault).
  assert (E4 : (b =? 0) = false) by (apply Z.eqb_neq; subst b; lia).
  rewrite E1, E2, E3. cbn [negb andb]. fold b. rewrite E4, Hcopy. cbn [negb andb Z.eqb].
  rewrite read_loop_stops.
  - rewrite to_long_elvis by (subst b; lia).
    rewrite Z.add_0_l, E4. reflexivity.
  - cbn [set_output stdio output]. rewrite nr_darray_remove_front.
    subst b. lia.
Qed.

Lemma thread_with_stdio_read_end_of_file nonblock env k s len :
  done (stdio s) = true ->
  nr (output (stdio s)) = 0 ->
  thread_with_stdio_read nonblock env k s len = Returns (0, []) s.
Proof.
  intros Hdone Hnr.
  rewrite thread_with_stdio_read_ready
    by (unfold stdio_redirect_has_output; rewrite Hdone; apply orb_true_r).
  rewrite read_loop_stops by (right; exact Hnr). reflexivity.
Qed.


Lemma darray_remove_front_twice d b n :
  0 <= b -> 0 <= n ->
  darray_remove_items (darray_remove_items d 0 b) 0 n = darray_remove_items d 0 (b + n).
Proof.
  intros Hb Hn. unfold darray_remove_items. cbn [data size firstn app Z.to_nat].
  rewrite !Z.add_0_l. rewrite skipn_skipn. f_equal. f_equal. lia.
Qed.

Lemma set_output_twice b1 b2 s : set_output b2 (set_output b1 s) = set_output b2 s.
Proof. reflexivity. Qed.

Lemma read_loop_accounts k :
  forall s ubuf len copied ret r out s',
    0 <= len ->
    copied = Z.of_nat (length ubuf) ->
    copied + len < 2 ^ 63 ->
    ret = 0 ->
    read_loop k s ubuf len copied ret = Returns (r, out) s' ->
    exists taken,
      out = ubuf ++ taken /\
      Z.of_nat (length taken) <= len /\
      taken ++ data (output (stdio s')) = data (output (stdio s)) /\
      s' = set_output (darray_remove_items (output (stdio s)) 0
                         (Z.of_nat (length taken))) s /\
      (out <> [] -> r = Z.of_nat (length out)) /\
      (out = [] -> r = 0 \/ r = - EFAULT).
Proof.
  assert (Hstop : forall s ubuf len copied err r out s',
            0 <= len ->
            copied = Z.of_nat (length ubuf) ->
            copied + len < 2 ^ 63 ->
            err = 0 \/ err = - EFAULT ->
            Returns (C.to_long (C.elvis copied err), ubuf) s = Returns (r, out) s' ->
            exists taken,
              out = ubuf ++ taken /\
              Z.of_nat (length taken) <= len /\
              taken ++ data (output (stdio s')) = data (output (stdio s)) /\
              s' = set_output (darray_remove_items (output (stdio s)) 0
                                 (Z.of_nat (length taken))) s /\
              (out <> [] -> r = Z.of_nat (length out)) /\
              (out = [] -> r = 0 \/ r = - EFAULT)).
  { intros s ubuf len copied err r out s' Hlen Hc Hsum Herr E.
    inversion E; subst r out s'; clear E.
    exists []. rewrite app_nil_r. cbn [length app Z.of_nat].
    rewrite darray_remove_none, set_output_same.
    rewrite to_long_elvis by (unfold EFAULT in *; lia).
    repeat split; try lia.
    - intros Hne. destruct ubuf; [congruence|].
      subst copied. cbn [length]. 
      destruct (Z.of_nat (S (length ubuf)) =? 0) eqn:E0; [apply Z.eqb_eq in E0; lia|reflexivity].
    - intros ->. subst copied. simpl. exact Herr. }
  induction k as [|a k IH]; intros s ubuf len copied ret r out s' Hlen Hc Hsum Hret E;
    cbn [read_loop] in E.
  - destruct (negb (len =? 0) && negb (nr (output (stdio s)) =? 0)); [discriminate|].
    apply (Hstop s ubuf len copied ret); auto.
  - destruct (negb (len =? 0) && negb (nr (output (stdio s)) =? 0)) eqn:Econd;
      [|apply (Hstop s ubuf len copied ret); auto].
    destruct (fault_in_writeable a =? len);
      [apply (Hstop s ubuf len copied (- EFAULT)); auto|].
    set (b := Z.min len (nr (output (stdio s)))) in *.
    pose proof (nr_nonneg (output (stdio s))) as Hnr.
    destruct (negb (b =? 0) && (copy_to_user_nofault a =? 0)).
    + assert (Hb : 0 <= b <= len) by (subst b; lia).
      assert (Hbl : Z.of_nat (length (firstn (Z.to_nat b) (data (output (stdio s))))) = b).
      { rewrite length_firstn. unfold nr in *. subst b. lia. }
      apply IH in E; try lia.
      2:{ rewrite length_app, Nat2Z.inj_add, Hbl. lia. }
      destruct E as (taken & Hout & Htl & Hdata & Hs' & Hr1 & Hr2).
      exists (firstn (Z.to_nat b) (data (output (stdio s))) ++ taken).
      split; [rewrite Hout; symmetry; apply app_assoc|].
      split; [rewrite length_app, Nat2Z.inj_add, Hbl; lia|].
      split.
      { rewrite <- app_assoc, Hdata. cbn [set_output stdio output].
        rewrite data_darray_remove_front. apply firstn_skipn. }
      split.
      { rewrite Hs'. cbn [set_output stdio output thr klog input done].
        rewrite darray_remove_front_twice by lia.
        rewrite length_app, Nat2Z.inj_add, Hbl. reflexivity. }
      split; assumption.
    + apply IH in E; try lia; assumption.
Qed.


(** ** Calls that do not sleep, and calls that a close wakes *)

Lemma read_loop_never_sleeps k :
  forall s ubuf len copied ret s',
    read_loop k s ubuf len copied ret <> Sleeps s'.
Proof.
  induction k as [|a k IH]; intros s ubuf len copied ret s'; cbn [read_loop].
  - destruct (negb (len =? 0) && negb (nr (output (stdio s)) =? 0)); discriminate.
  - destruct (negb (len =? 0) && negb (nr (output (stdio s)) =? 0)); [|discriminate].
    destruct (fault_in_writeable a =? len); [discriminate|].
    destruct (negb _ && _); apply IH.
Qed.

Lemma write_loop_nonblocking_never_sleeps k :
  forall s ubuf copied ret s',
    write_loop true k s ubuf copied ret <> Sleeps s'.
Proof.
  induction k as [|a k IH]; intros s ubuf copied ret s'.
  - rewrite write_loop_nil.
    destruct (Z.of_nat (length ubuf) =? 0); [discriminate|].
    destruct (twf_done (thr s)); discriminate.
  - rewrite write_loop_cons. cbv zeta.
    destruct (Z.of_nat (length ubuf) =? 0); [discriminate|].
    destruct (twf_done (thr s)); [discriminate|].
    destruct (C.to_size_t _ =? 0); [discriminate|].
    destruct (write_locked _ _ _ _) as [[buf b] copy].
    destruct (negb (b =? 0)); [apply IH | discriminate].
Qed.

(** X2: with O_NONBLOCK, thread_with_stdio_read and thread_with_stdio_write
    never go to sleep on a wait queue; a non-blocking stdio_redirect_vprintf
    always returns. *)
Theorem nonblocking_never_sleeps
  (env : list interference) (wenv : list wakeup) (kr : list read_answers)
  (kw : list write_answers) (allocs : list bool) (s : thread_with_stdio)
  (len : Z) (ubuf fmt : list byte) :
  (forall s', thread_with_stdio_read true wenv kr s len <> Sleeps s') /\
  (forall s', thread_with_stdio_write true kw s ubuf <> Sleeps s') /\
  (exists s', stdio_redirect_vprintf env allocs s true fmt = Returns tt s').
Proof.
  split; [|split].
  - intros s'. unfold thread_with_stdio_read. cbn [negb].
    destruct (negb (stdio_redirect_has_output s)); [discriminate|].
    apply read_loop_never_sleeps.
  - intros s'. apply write_loop_nonblocking_never_sleeps.
  - unfold stdio_redirect_vprintf. cbn [negb].
    destruct (negb (stdio_redirect_has_output_space s)); [eexists; reflexivity|].
    unfold vprintf_checked. destruct (done (stdio s)); eexists; reflexivity.
Qed.

(** X3: a worker asleep in stdio_redirect_read or stdio_redirect_readline on
    an empty input buffer goes on when another thread has set the close
    flag, and returns -1; a worker asleep in a blocking
    stdio_redirect_vprintf on an output buffer at its capacity goes on when
    the thread that set the flag has also called wake_up on the output wait
    queue, and returns with nothing printed.  None of them changes what the
    closing thread left.  thread_with_stdio_done wakes both queues. *)
Theorem close_wakes_worker (f : interference) (env : list interference)
  (s : thread_with_stdio) :
  done (stdio s) = false ->
  done (stdio (f s)) = true ->
  (nr (input (stdio s)) = 0 ->
   forall len,
     stdio_redirect_read (f :: env) s len = Returns (-1, []) (f s) /\
     stdio_redirect_readline (f :: env) s len = Returns (-1, []) (f s)) /\
  (STDIO_REDIRECT_BUFSIZE <= nr (output (stdio s)) ->
   woken output_wait s (f s) = true ->
   forall allocs fmt,
     stdio_redirect_vprintf (f :: env) allocs s false fmt = Returns tt (f s)) /\
  woken input_wait s (thread_with_stdio_done s) = true /\
  woken output_wait s (thread_with_stdio_done s) = true.
Proof.
  intros Hopen Hclosed. split; [|split; [|split; apply woken_thread_with_stdio_done]].
  - intros Hempty len.
    assert (H1 : stdio_redirect_has_input s = false)
      by (unfold stdio_redirect_has_input; rewrite Hempty, Hopen; reflexivity).
    assert (H2 : stdio_redirect_has_input (f s) = true)
      by (unfold stdio_redirect_has_input; rewrite Hclosed; apply orb_true_r).
    split.
    + unfold stdio_redirect_read.
      rewrite (wait_event_timeout_next _ _ _ _ H1 H2), Hclosed.
      reflexivity.
    + unfold stdio_redirect_readline. cbn [readline_again].
      rewrite (wait_event_timeout_next _ _ _ _ H1 H2), Hclosed. reflexivity.
  - intros Hfull Hwoken allocs fmt.
    assert (H1 : stdio_redirect_has_output_space s = false).
    { unfold stdio_redirect_has_output_space. rewrite Hopen, orb_false_r.
      apply Z.ltb_ge. exact Hfull. }
    assert (H2 : stdio_redirect_has_output_space (f s) = true)
      by (unfold stdio_redirect_has_output_space; rewrite Hclosed; apply orb_true_r).
    unfold stdio_redirect_vprintf. cbn [negb].
    rewrite (wait_event_next _ _ _ env _ H1 Hwoken H2). unfold vprintf_checked.
    rewrite Hclosed. reflexivity.
Qed.

(** X4: a caller asleep in a blocking thread_with_stdio_read on an empty
    output buffer returns 0, the end of the stream, when another thread has
    closed the channel, left the buffer empty and called wake_up on the
    output wait queue; a caller asleep in a blocking thread_with_stdio_write
    on a full input buffer returns -EPIPE, having written nothing, when the
    closing thread has called wake_up on the input wait queue.
    thread_with_stdio_done, which sets both flags, wakes both queues. *)
Theorem close_wakes_caller (f : interference) (env : list wakeup)
  (s : thread_with_stdio) :
  done (stdio s) = false ->
  done (stdio (f s)) = true ->
  twf_done (thr (f s)) = true ->
  (nr (output (stdio s)) = 0 ->
   nr (output (stdio (f s))) = 0 ->
   woken output_wait s (f s) = true ->
   forall k len,
     thread_with_stdio_read false (Other f :: env) k s len = Returns (0, []) (f s)) /\
  (twf_done (thr s) = false ->
   input_bounded s = true ->
   STDIO_REDIRECT_BUFSIZE <= nr (input (stdio s)) ->
   woken input_wait s (f s) = true ->
   forall a k ubuf,
     Z.of_nat (length ubuf) < 2 ^ 64 ->
     0 <= fault_in_readable a < Z.of_nat (length ubuf) ->
     sleep a = Other f :: env ->
     thread_with_stdio_write false (a :: k) s ubuf = Returns (- EPIPE) (f s)) /\
  (done (stdio (thread_with_stdio_done s)) = true /\
   twf_done (thr (thread_with_stdio_done s)) = true /\
   input (stdio (thread_with_stdio_done s)) = input (stdio s) /\
   output (stdio (thread_with_stdio_done s)) = output (stdio s) /\
   woken input_wait s (thread_with_stdio_done s) = true /\
   woken output_wait s (thread_with_stdio_done s) = true).
Proof.
  intros Hopen Hclosed Htclosed. split; [|split].
  - intros Hempty Hempty' Hwoken k len.
    assert (H1 : stdio_redirect_has_output s = false)
      by (unfold stdio_redirect_has_output; rewrite Hempty, Hopen; reflexivity).
    assert (H2 : stdio_redirect_has_output (f s) = true)
      by (unfold stdio_redirect_has_output; rewrite Hclosed; apply orb_true_r).
    unfold thread_with_stdio_read. cbn [negb].
    rewrite (wait_event_interruptible_next _ _ _ env _ H1 Hwoken H2).
    cbn [Z.eqb negb].
    rewrite read_loop_stops by (right; exact Hempty'). reflexivity.
  - intros Htopen Hb Hfull Hwoken a k ubuf Hlen Hfault Hsleep.
    apply input_bounded_iff in Hb.
    assert (H1 : stdio_redirect_has_input_space s = false).
    { unfold stdio_redirect_has_input_space. rewrite Hopen, orb_false_r.
      apply Z.ltb_ge. exact Hfull. }
    assert (H2 : stdio_redirect_has_input_space (f s) = true)
      by (unfold stdio_redirect_has_input_space; rewrite Hclosed; apply orb_true_r).
    unfold thread_with_stdio_write. rewrite write_loop_cons. cbv zeta.
    assert (H0 : (Z.of_nat (length ubuf) =? 0) = false) by (apply Z.eqb_neq; lia).
    rewrite H0, Htopen, to_size_t_small by lia.
    assert (H3 : (Z.of_nat (length ubuf) - fault_in_readable a =? 0) = false)
      by (apply Z.eqb_neq; lia).
    rewrite H3, write_locked_full by lia.
    cbn [negb Z.eqb]. rewrite set_input_same, Hsleep.
    rewrite (wait_event_interruptible_next _ _ _ env _ H1 Hwoken H2).
    cbn [Z.eqb negb].
    destruct k; [rewrite write_loop_nil | rewrite write_loop_cons; cbv zeta];
      rewrite H0, Htclosed; reflexivity.
  - repeat split; try reflexivity; apply woken_thread_with_stdio_done.
Qed.

(** ** What is written is what is read *)

Lemma firstn_min_length (l : list byte) (len : Z) :
  firstn (Z.to_nat (Z.min len (Z.of_nat (length l)))) l = firstn (Z.to_nat len) l.
Proof.
  destruct (Z.le_gt_cases len (Z.of_nat (length l))).
  - rewrite Z.min_l by lia. reflexivity.
  - rewrite Z.min_r by lia. rewrite Nat2Z.id, firstn_all.
    symmetry. apply firstn_all2. lia.
Qed.

Lemma skipn_min_length (l : list byte) (len : Z) :
  skipn (Z.to_nat (Z.min len (Z.of_nat (length l)))) l = skipn (Z.to_nat len) l.
Proof.
  destruct (Z.le_gt_cases len (Z.of_nat (length l))).
  - rewrite Z.min_l by lia. reflexivity.
  - rewrite Z.min_r by lia. rewrite Nat2Z.id, skipn_all.
    symmetry. apply skipn_all2. lia.
Qed.

Lemma stdio_redirect_read_woken f env env' s len :
  stdio_redirect_has_input s = false ->
  stdio_redirect_has_input (f s) = true ->
  stdio_redirect_read (f :: env) s len = stdio_redirect_read env' (f s) len.
Proof.
  intros H1 H2. unfold stdio_redirect_read.
  rewrite (wait_event_timeout_next _ _ _ _ H1 H2), (wait_event_timeout_ready _ env' _ H2).
  reflexivity.
Qed.

Section RoundTrip.

Hypothesis bufsize_range : 0 <= STDIO_REDIRECT_BUFSIZE < 2 ^ 31.
Hypothesis darray_grow_ge : forall n, n <= darray_grow n.
Hypothesis darray_grow_cap :
  forall n, n <= STDIO_REDIRECT_BUFSIZE -> darray_grow n <= STDIO_REDIRECT_BUFSIZE.

(** X5: what the caller writes is what the worker reads.  On an open channel
    a non-blocking thread_with_stdio_write of bytes that fit under the
    capacity, none of them faulting, returns their number; a
    stdio_redirect_read of len bytes then returns the first len bytes of what
    the input buffer held followed by the bytes written, and leaves the rest.
    A read that was asleep on the empty buffer when the write came returns
    the same. *)
Theorem write_then_read_round_trip
  (a1 a2 : write_answers) (k : list write_answers) (s : thread_with_stdio)
  (ubuf : list byte) (env : list interference) (len : Z) :
  faultless a1 = true ->
  faultless a2 = true ->
  twf_done (thr s) = false ->
  done (stdio s) = false ->
  nr (input (stdio s)) <= size (input (stdio s)) <= STDIO_REDIRECT_BUFSIZE ->
  0 < Z.of_nat (length ubuf) ->
  nr (input (stdio s)) + Z.of_nat (length ubuf) <= STDIO_REDIRECT_BUFSIZE ->
  0 <= len ->
  let write := fun s => thread_with_stdio_write true (a1 :: a2 :: k) s ubuf in
  let all := data (input (stdio s)) ++ ubuf in
  let r := stdio_redirect_read env (final (write s)) len in
  returned (write s) = Some (Z.of_nat (length ubuf)) /\
  returned r = Some (Z.min len (Z.of_nat (length all)), firstn (Z.to_nat len) all) /\
  data (input (stdio (final r))) = skipn (Z.to_nat len) all /\
  (nr (input (stdio s)) = 0 ->
   stdio_redirect_read ((fun s => final (write s)) :: env) s len = r).
Proof.
  intros Ha1 Ha2 Htopen Hopen Hwf Hlen Hfit Hl write all r.
  assert (Hrange : 0 <= STDIO_REDIRECT_BUFSIZE < 2 ^ 64) by lia.
  pose proof (nr_nonneg (input (stdio s))) as Hnr0.
  destruct (thread_with_stdio_write_append Hrange darray_grow_ge darray_grow_cap
              a1 a2 k s ubuf Ha1 Ha2 Htopen Hwf ltac:(lia) ltac:(lia))
    as (s' & Hw & Hdata & Hwf' & Hout & Hdone & Hthr).
  rewrite Z.min_l in Hw, Hdata by lia.
  rewrite Nat2Z.id, firstn_all in Hdata. fold all in Hdata.
  assert (Hnr : nr (input (stdio s')) = Z.of_nat (length all))
    by (unfold nr; rewrite Hdata; reflexivity).
  assert (Hall : Z.of_nat (length all) = nr (input (stdio s)) + Z.of_nat (length ubuf))
    by (unfold all, nr; rewrite length_app; lia).
  assert (Hr : r = Returns
                 (Z.min len (Z.of_nat (length all)), firstn (Z.to_nat len) all)
                 (log (wake_up input_wait)
                    (set_input (darray_remove_items (input (stdio s')) 0
                                  (Z.min len (Z.of_nat (length all)))) s'))).
  { subst r write. cbv beta. rewrite Hw. cbn [final].
    rewrite stdio_redirect_read_open by (try congruence; lia).
    rewrite Hnr, Hdata, firstn_min_length. reflexivity. }
  split; [subst write; cbv beta; rewrite Hw; reflexivity|].
  split; [rewrite Hr; reflexivity|].
  split.
  - rewrite Hr. cbn [final log logs set_input stdio input].
    rewrite data_darray_remove_front, Hdata. apply skipn_min_length.
  - intros Hempty. apply stdio_redirect_read_woken.
    + unfold stdio_redirect_has_input. rewrite Hempty, Hopen. reflexivity.
    + subst write. cbv beta. rewrite Hw. cbn [final].
      unfold stdio_redirect_has_input. rewrite Hnr.
      assert (E : (Z.of_nat (length all) =? 0) = false) by (apply Z.eqb_neq; lia).
      rewrite E. reflexivity.
Qed.

End RoundTrip.

(** ** darray_vprintf *)

Lemma darray_vprintf_grows allocs out fmt :
  (forall n, n <= darray_grow n) ->
  nr out <= size out < 2 ^ 64 ->
  darray_room out < vsnprintf fmt + 1 ->
  darray_grow (nr out + (vsnprintf fmt + 1)) < 2 ^ 64 ->
  darray_vprintf (true :: allocs) out fmt =
  darray_push {| data := data out;
                 size := darray_grow (nr out + (vsnprintf fmt + 1)) |} fmt.
Proof.
  intros Hge Hwf Hroom Hcap.
  pose proof (darray_room_small out Hwf) as Hr.
  pose proof (Hge (nr out + (vsnprintf fmt + 1))) as Hg.
  set (out' := {| data := data out;
                  size := darray_grow (nr out + (vsnprintf fmt + 1)) |}).
  assert (Hr' : darray_room out' = size out' - nr out').
  { apply darray_room_small. unfold out', nr. cbn [data size]. unfold nr in *. lia. }
  assert (Hfits : vsnprintf fmt + 1 <= darray_room out').
  { rewrite Hr'. unfold out', nr. cbn [data size]. unfold nr in *. lia. }
  rewrite <- (darray_vprintf_fits allocs out' fmt Hfits).
  unfold darray_vprintf. cbn [darray_vprintf_loop].
  assert (E1 : (darray_room out <? vsnprintf fmt + 1) = true) by (apply Z.ltb_lt; lia).
  rewrite E1. unfold darray_make_room_gfp, __darray_resize.
  assert (E2 : (size out <? nr out + (vsnprintf fmt + 1)) = true) by (apply Z.ltb_lt; lia).
  rewrite E2. cbn [Z.eqb]. reflexivity.
Qed.

Lemma darray_vprintf_short allocs out fmt :
  hd false allocs = false ->
  nr out <= size out < 2 ^ 64 ->
  darray_room out < vsnprintf fmt + 1 ->
  exists added,
    darray_vprintf allocs out fmt = darray_push out added /\
    Z.of_nat (length added) = darray_room out.
Proof.
  intros Hhd Hwf Hshort.
  pose proof (darray_room_nonneg out) as H0.
  destruct (Z.eq_dec (darray_room out) 0) as [E0|E0].
  - exists []. split; [apply darray_vprintf_no_room; auto | simpl; lia].
  - exists (firstn (Z.to_nat (darray_room out - 1)) fmt ++ [NUL]).
    split; [apply darray_vprintf_truncated; auto; lia|].
    rewrite length_app, length_firstn. unfold vsnprintf in *. simpl. lia.
Qed.

Lemma darray_vprintf_cases (allocs : list bool) (out : darray_char)
  (fmt : list byte) :
  (forall n, n <= darray_grow n) ->
  nr out <= size out < 2 ^ 64 ->
  darray_grow (nr out + (vsnprintf fmt + 1)) < 2 ^ 64 ->
  let out' := darray_vprintf allocs out fmt in
  (exists added,
     data out' = data out ++ added /\ (length added <= length fmt)%nat) /\
  nr out' <= size out' /\
  (vsnprintf fmt + 1 <= darray_room out \/ hd false allocs = true ->
   data out' = data out ++ fmt).
Proof.
  intros Hge Hwf Hcap out'.
  pose proof (darray_room_small out Hwf) as Hr.
  pose proof (Hge (nr out + (vsnprintf fmt + 1))) as Hg.
  destruct (Z.le_gt_cases (vsnprintf fmt + 1) (darray_room out)) as [Hfits|Hshort].
  - assert (E : out' = darray_push out fmt) by (apply darray_vprintf_fits; exact Hfits).
    rewrite E. cbn [darray_push data size].
    split; [exists fmt; split; [reflexivity|lia]|].
    split; [|reflexivity].
    rewrite nr_darray_push. cbn [darray_push size]. unfold vsnprintf in *. lia.
  - destruct (hd false allocs) eqn:Hhd.
    + destruct allocs as [|ok allocs]; [discriminate|]. cbn [hd] in Hhd. subst ok.
      assert (E : out' = darray_push
                           {| data := data out;
                              size := darray_grow (nr out + (vsnprintf fmt + 1)) |} fmt)
        by (apply darray_vprintf_grows; auto; lia).
      rewrite E. cbn [darray_push data size].
      split; [exists fmt; split; [reflexivity|lia]|].
      split; [|reflexivity].
      rewrite nr_darray_push. cbn [darray_push size].
      unfold nr, vsnprintf in *. cbn [data]. lia.
    + destruct (darray_vprintf_short allocs out fmt Hhd Hwf ltac:(lia))
        as (added & E & Hlen).
      fold out' in E. rewrite E. cbn [darray_push data size].
      split; [exists added; split; [reflexivity|unfold vsnprintf in *; lia]|].
      split; [|intros [H|H]; [lia|discriminate]].
      rewrite nr_darray_push. cbn [darray_push size]. lia.
Qed.


(** ** The worker prints, the caller reads *)

Lemma stdio_redirect_vprintf_prints env allocs nonblocking s fmt :
  done (stdio s) = false ->
  nr (output (stdio s)) < STDIO_REDIRECT_BUFSIZE ->
  stdio_redirect_vprintf env allocs s nonblocking fmt =
  Returns tt
    (log (wake_up output_wait)
       (set_output (darray_vprintf allocs (output (stdio s)) fmt) s)).
Proof.
  intros Hopen Hspace.
  assert (H : stdio_redirect_has_output_space s = true).
  { unfold stdio_redirect_has_output_space.
    apply Z.ltb_lt in Hspace. rewrite Hspace. reflexivity. }
  unfold stdio_redirect_vprintf, vprintf_checked.
  destruct nonblocking; cbn [negb].
  - rewrite H, Hopen. reflexivity.
  - rewrite wait_event_ready by exact H. rewrite Hopen. reflexivity.
Qed.

(** X6: what the worker prints is what the caller reads.  On an open channel
    whose output buffer is below the capacity, a stdio_redirect_vprintf of a
    text for which there is room, or memory, puts the whole text at the end
    of the output buffer, without the NUL that ends it; a
    thread_with_stdio_read of len bytes then returns the first len bytes of
    what the buffer held followed by the text, and leaves the rest.  A
    blocking read that was asleep on the empty buffer when the text came
    returns the same. *)
Theorem vprintf_then_read_round_trip
  (env : list interference) (allocs : list bool) (nonblocking : bool)
  (s : thread_with_stdio) (fmt : list byte)
  (rnonblock : bool) (renv : list wakeup) (a : read_answers)
  (k : list read_answers) (len : Z) :
  (forall n, n <= darray_grow n) ->
  done (stdio s) = false ->
  nr (output (stdio s)) < STDIO_REDIRECT_BUFSIZE ->
  nr (output (stdio s)) <= size (output (stdio s)) < 2 ^ 64 ->
  darray_grow (nr (output (stdio s)) + (vsnprintf fmt + 1)) < 2 ^ 64 ->
  vsnprintf fmt + 1 <= darray_room (output (stdio s)) \/ hd false allocs = true ->
  0 < Z.of_nat (length fmt) ->
  nr (output (stdio s)) + Z.of_nat (length fmt) < 2 ^ 63 ->
  0 < len ->
  fault_in_writeable a <> len ->
  copy_to_user_nofault a = 0 ->
  let print := fun s => stdio_redirect_vprintf env allocs s nonblocking fmt in
  let all := data (output (stdio s)) ++ fmt in
  let r := thread_with_stdio_read rnonblock renv (a :: k) (final (print s)) len in
  returned (print s) = Some tt /\
  data (output (stdio (final (print s)))) = all /\
  returned r = Some (Z.min len (Z.of_nat (length all)), firstn (Z.to_nat len) all) /\
  data (output (stdio (final r))) = skipn (Z.to_nat len) all /\
  (nr (output (stdio s)) = 0 ->
   thread_with_stdio_read false (Other (fun s => final (print s)) :: renv)
     (a :: k) s len = r).
Proof.
  intros Hge Hopen Hspace Hwf Hcap Hmem Hfmt Hsum Hlen Hfault Hcopy print all r.
  destruct (darray_vprintf_cases allocs (output (stdio s)) fmt Hge Hwf Hcap)
    as (_ & _ & Hwhole).
  specialize (Hwhole Hmem). fold all in Hwhole.
  assert (Hp : print s =
               Returns tt
                 (log (wake_up output_wait)
                    (set_output (darray_vprintf allocs (output (stdio s)) fmt) s)))
    by (apply stdio_redirect_vprintf_prints; assumption).
  set (s1 := log (wake_up output_wait)
               (set_output (darray_vprintf allocs (output (stdio s)) fmt) s)) in *.
  assert (Hdata : data (output (stdio s1)) = all) by exact Hwhole.
  assert (Hnr : nr (output (stdio s1)) = Z.of_nat (length all))
    by (unfold nr; rewrite Hdata; reflexivity).
  assert (Hall : Z.of_nat (length all) = nr (output (stdio s)) + Z.of_nat (length fmt))
    by (unfold all, nr; rewrite length_app; lia).
  pose proof (nr_nonneg (output (stdio s))) as Hnr0.
  assert (Hr : r = Returns
                 (Z.min len (Z.of_nat (length all)), firstn (Z.to_nat len) all)
                 (set_output (darray_remove_items (output (stdio s1)) 0
                                (Z.min len (Z.of_nat (length all)))) s1)).
  { subst r. rewrite Hp. cbn [final].
    rewrite thread_with_stdio_read_front by (try assumption; lia).
    rewrite Hnr, Hdata, firstn_min_length. reflexivity. }
  split; [rewrite Hp; reflexivity|].
  split; [rewrite Hp; exact Hdata|].
  split; [rewrite Hr; reflexivity|].
  split.
  - rewrite Hr. cbn [final set_output stdio output].
    rewrite data_darray_remove_front, Hdata. apply skipn_min_length.
  - intros Hempty. subst r.
    assert (H1 : stdio_redirect_has_output s = false)
      by (unfold stdio_redirect_has_output; rewrite Hempty, Hopen; reflexivity).
    assert (H2 : stdio_redirect_has_output (final (print s)) = true).
    { rewrite Hp. cbn [final]. apply has_output_nonempty. lia. }
    rewrite (thread_with_stdio_read_ready rnonblock renv _ _ _ H2).
    unfold thread_with_stdio_read. cbn [negb].
    assert (Hw : woken output_wait s (final (print s)) = true)
      by (rewrite Hp; cbn [final]; apply woken_log; reflexivity).
    rewrite (wait_event_interruptible_next _ _ (fun s => final (print s)) renv _
               H1 Hw H2).
    reflexivity.
Qed.

(** X7: the print looks at what the output buffer holds, not at the length of
    the text.  With STDIO_REDIRECT_BUFSIZE bytes or more in the buffer of an
    open channel, a non-blocking stdio_redirect_vprintf returns with nothing
    printed and nothing changed, and a blocking one sleeps; with fewer, and
    memory, the whole text goes in, however far that takes the buffer past
    STDIO_REDIRECT_BUFSIZE. *)
Theorem stdio_redirect_vprintf_capacity_check
  (env : list interference) (allocs : list bool) (s : thread_with_stdio)
  (fmt : list byte) :
  done (stdio s) = false ->
  (STDIO_REDIRECT_BUFSIZE <= nr (output (stdio s)) ->
   stdio_redirect_vprintf env allocs s true fmt = Returns tt s /\
   stdio_redirect_vprintf [] allocs s false fmt = Sleeps s) /\
  (nr (output (stdio s)) < STDIO_REDIRECT_BUFSIZE ->
   (forall n, n <= darray_grow n) ->
   nr (output (stdio s)) <= size (output (stdio s)) < 2 ^ 64 ->
   darray_grow (nr (output (stdio s)) + (vsnprintf fmt + 1)) < 2 ^ 64 ->
   hd false allocs = true ->
   forall nonblocking,
     nr (output (stdio (final (stdio_redirect_vprintf env allocs s nonblocking fmt)))) =
     nr (output (stdio s)) + Z.of_nat (length fmt)).
Proof.
  intros Hopen. split.
  - intros Hfull.
    assert (H : stdio_redirect_has_output_space s = false).
    { unfold stdio_redirect_has_output_space. rewrite Hopen, orb_false_r.
      apply Z.ltb_ge. exact Hfull. }
    unfold stdio_redirect_vprintf. cbn [negb].
    rewrite (wait_event_quiet _ _ _ H), H. split; reflexivity.
  - intros Hspace Hge Hwf Hcap Hmem nonblocking.
    rewrite stdio_redirect_vprintf_prints by assumption.
    cbn [final log logs set_output stdio output].
    destruct (darray_vprintf_cases allocs (output (stdio s)) fmt Hge Hwf Hcap)
      as (_ & _ & Hwhole).
    unfold nr. rewrite Hwhole by (right; exact Hmem).
    rewrite length_app. lia.
Qed.

(** X8: what the worker printed before its function returned is still there
    for the caller.  After thread_with_stdio_fn, a thread_with_stdio_read
    that has room for it returns all the output left, and every read after
    that returns 0, the end of the stream. *)
Theorem output_survives_close
  (fn : interference) (s : thread_with_stdio) (nonblock : bool)
  (env : list wakeup) (a : read_answers) (k : list read_answers) (len : Z) :
  let s1 := snd (thread_with_stdio_fn fn s) in
  let d := data (output (stdio (fn s))) in
  0 < Z.of_nat (length d) < 2 ^ 63 ->
  Z.of_nat (length d) <= len ->
  fault_in_writeable a <> len ->
  copy_to_user_nofault a = 0 ->
  let r := thread_with_stdio_read nonblock env (a :: k) s1 len in
  done (stdio s1) = true /\
  returned r = Some (Z.of_nat (length d), d) /\
  forall nonblock' env' k' len',
    thread_with_stdio_read nonblock' env' k' (final r) len' =
    Returns (0, []) (final r).
Proof.
  intros s1 d Hd Hlen Hfault Hcopy r.
  assert (Hnr : nr (output (stdio s1)) = Z.of_nat (length d)) by reflexivity.
  assert (Hr : r = Returns (Z.of_nat (length d), d)
                 (set_output (darray_remove_items (output (stdio s1)) 0
                                (Z.of_nat (length d))) s1)).
  { subst r. rewrite thread_with_stdio_read_front by (try assumption; lia).
    rewrite Hnr, Z.min_r by lia. rewrite Nat2Z.id.
    change (data (output (stdio s1))) with d. rewrite firstn_all. reflexivity. }
  split; [reflexivity|].
  split; [rewrite Hr; reflexivity|].
  intros nonblock' env' k' len'. rewrite Hr. cbn [final].
  apply thread_with_stdio_read_end_of_file; [reflexivity|].
  cbn [set_output stdio output]. rewrite nr_darray_remove_front. lia.
Qed.


(** ** Lines *)

Lemma memchr_found (c : byte) (rest : list byte) :
  forall l n,
    ~ In c l -> (length l < n)%nat ->
    memchr (l ++ c :: rest) c n = Some (Z.of_nat (length l)).
Proof using.
  clear STDIO_REDIRECT_BUFSIZE darray_grow.
  induction l as [|x l IH]; intros n Hin Hn.
  - destruct n; [inversion Hn|]. cbn [app memchr].
    destruct (Byte.eqb c c) eqn:E; [reflexivity|].
    apply Byte.eqb_false in E. congruence.
  - destruct n; [inversion Hn|]. cbn [app memchr].
    assert (Hx : Byte.eqb x c = false).
    { destruct (Byte.eqb x c) eqn:E; [|reflexivity].
      apply Byte.byte_dec_bl in E. subst x. exfalso. apply Hin. left. reflexivity. }
    rewrite Hx, IH.
    + f_equal. cbn [length]. lia.
    + intros H. apply Hin. right. exact H.
    + cbn [length] in Hn. lia.
Qed.

(** A turn of the loop that finds a whole line in the buffer. *)
Lemma readline_again_line fuel env s acc l rest len copied :
  done (stdio s) = false ->
  data (input (stdio s)) = l ++ newline :: rest ->
  ~ In newline l ->
  Z.of_nat (length l) < len ->
  0 <= copied ->
  copied + Z.of_nat (length l) + 1 < 2 ^ 31 ->
  readline_again (S fuel) env s acc len copied =
  Returns (copied + Z.of_nat (length l) + 1, acc ++ l ++ [newline])
    (log (wake_up input_wait)
       (set_input {| data := rest; size := size (input (stdio s)) |} s)).
Proof.
  intros Hopen Hdata Hin Hlen Hc Hsum.
  assert (Hnr : nr (input (stdio s)) =
                Z.of_nat (length l) + 1 + Z.of_nat (length rest)).
  { unfold nr. rewrite Hdata, length_app. cbn [length]. lia. }
  assert (Hhas : stdio_redirect_has_input s = true).
  { unfold stdio_redirect_has_input.
    assert (E : (nr (input (stdio s)) =? 0) = false) by (apply Z.eqb_neq; lia).
    rewrite E. reflexivity. }
  cbn [readline_again]. rewrite wait_event_timeout_ready by exact Hhas. rewrite Hopen.
  assert (Hm : memchr (data (input (stdio s))) newline
                 (Z.to_nat (Z.min len (nr (input (stdio s))))) =
               Some (Z.of_nat (length l))).
  { rewrite Hdata. apply memchr_found; [exact Hin | lia]. }
  rewrite Hm.
  assert (Hb : Z.min (Z.min len (nr (input (stdio s)))) (Z.of_nat (length l) + 1) =
               Z.of_nat (length (l ++ [newline]))).
  { rewrite length_app. cbn [length]. lia. }
  rewrite Hb.
  assert (Hall : data (input (stdio s)) = (l ++ [newline]) ++ rest)
    by (rewrite Hdata, <- app_assoc; reflexivity).
  rewrite (darray_remove_front_app _ _ _ Hall).
  rewrite Nat2Z.id, Hall, firstn_app, firstn_all, Nat.sub_diag.
  cbn [firstn]. rewrite app_nil_r.
  assert (Hr : C.to_int (C.elvis (copied + Z.of_nat (length (l ++ [newline]))) 0) =
               copied + Z.of_nat (length l) + 1).
  { rewrite length_app. cbn [length]. unfold C.elvis.
    assert (E : (copied + Z.of_nat (length l + 1) =? 0) = false)
      by (apply Z.eqb_neq; lia).
    rewrite E. rewrite to_int_small by lia. lia. }
  rewrite Hr. reflexivity.
Qed.

(** X9: with a whole line at the front of the input buffer of an open
    channel, and len greater than the length of the line without its
    newline, stdio_redirect_readline returns the line with its newline, and
    its length; what came after the newline stays in the buffer. *)
Theorem stdio_redirect_readline_line
  (env : list interference) (s : thread_with_stdio) (l rest : list byte)
  (len : Z) :
  done (stdio s) = false ->
  data (input (stdio s)) = l ++ newline :: rest ->
  ~ In newline l ->
  Z.of_nat (length l) < len < 2 ^ 31 ->
  stdio_redirect_readline env s len =
  Returns (Z.of_nat (length l) + 1, l ++ [newline])
    (log (wake_up input_wait)
       (set_input {| data := rest; size := size (input (stdio s)) |} s)).
Proof.
  intros Hopen Hdata Hin Hlen. unfold stdio_redirect_readline.
  rewrite (readline_again_line _ env s [] l rest len 0) by (try assumption; lia).
  reflexivity.
Qed.

(** X10: stdio_redirect_readline puts a line together from what comes in
    pieces.  Finding the start of a line and no newline, it takes it, sleeps,
    and when the caller has written the rest, returns the start and the rest
    up to the newline, as one line. *)
Theorem stdio_redirect_readline_assembles
  (f : interference) (env : list interference) (s : thread_with_stdio)
  (l1 l2 rest : list byte) (len : Z) :
  let s1 := log (wake_up input_wait)
              (set_input {| data := []; size := size (input (stdio s)) |} s) in
  done (stdio s) = false ->
  data (input (stdio s)) = l1 ->
  l1 <> [] ->
  ~ In newline l1 ->
  done (stdio (f s1)) = false ->
  data (input (stdio (f s1))) = l2 ++ newline :: rest ->
  ~ In newline l2 ->
  Z.of_nat (length l1) + Z.of_nat (length l2) < len < 2 ^ 31 ->
  stdio_redirect_readline (f :: env) s len =
  Returns (Z.of_nat (length l1) + Z.of_nat (length l2) + 1, l1 ++ l2 ++ [newline])
    (log (wake_up input_wait)
       (set_input {| data := rest; size := size (input (stdio (f s1))) |} (f s1))).
Proof.
  intros s1 Hopen Hdata Hne Hin1 Hopen' Hdata' Hin2 Hlen.
  assert (Hl1 : 0 < Z.of_nat (length l1)) by (destruct l1; [congruence | simpl; lia]).
  assert (Hnr : nr (input (stdio s)) = Z.of_nat (length l1))
    by (unfold nr; rewrite Hdata; reflexivity).
  assert (Hhas : stdio_redirect_has_input s = true).
  { unfold stdio_redirect_has_input.
    assert (E : (nr (input (stdio s)) =? 0) = false) by (apply Z.eqb_neq; lia).
    rewrite E. reflexivity. }
  unfold stdio_redirect_readline.
  cbn [readline_again]. rewrite wait_event_timeout_ready by exact Hhas. rewrite Hopen.
  rewrite Hnr, Z.min_r by lia. rewrite Hdata.
  rewrite (memchr_absent newline l1 _ Hin1), Nat2Z.id, firstn_all.
  assert (Hrem : darray_remove_items (input (stdio s)) 0 (Z.of_nat (length l1)) =
                 {| data := []; size := size (input (stdio s)) |}).
  { apply darray_remove_front_app. rewrite Hdata, app_nil_r. reflexivity. }
  rewrite Hrem. fold s1.
  assert (E : (len - Z.of_nat (length l1) =? 0) = false) by (apply Z.eqb_neq; lia).
  rewrite E. cbn [negb app Z.add].
  destruct (Z.to_nat len) as [|fuel] eqn:Efuel; [lia|].
  assert (H1 : stdio_redirect_has_input s1 = false) by (cbn; rewrite Hopen; reflexivity).
  assert (H2 : stdio_redirect_has_input (f s1) = true).
  { unfold stdio_redirect_has_input, nr. rewrite Hdata', length_app. cbn [length].
    assert (E2 : (Z.of_nat (length l2 + S (length rest)) =? 0) = false)
      by (apply Z.eqb_neq; lia).
    rewrite E2. reflexivity. }
  cbn [readline_again]. rewrite (wait_event_timeout_next _ _ _ _ H1 H2), Hopen'.
  pose proof (readline_again_line fuel env (f s1) l1 l2 rest
                (len - Z.of_nat (length l1)) (Z.of_nat (length l1))
                Hopen' Hdata' Hin2 ltac:(lia) ltac:(lia) ltac:(lia)) as Hline.
  cbn [readline_again] in Hline.
  rewrite (wait_event_timeout_ready _ env _ H2), Hopen' in Hline.
  exact Hline.
Qed.


(** ** poll and the calls it announces *)

Lemma thread_with_stdio_poll_bits s :
  let mask := fst (thread_with_stdio_poll s) in
  Z.land mask EPOLLIN = (if stdio_redirect_has_output s then EPOLLIN else 0) /\
  Z.land mask EPOLLOUT = (if stdio_redirect_has_input_space s then EPOLLOUT else 0).
Proof.
  unfold thread_with_stdio_poll. cbv zeta. cbn [fst].
  change (stdio_redirect_has_output (log (poll_wait input_wait)
            (log (poll_wait output_wait) s)))
    with (stdio_redirect_has_output s).
  change (stdio_redirect_has_input_space (log (poll_wait input_wait)
            (log (poll_wait output_wait) s)))
    with (stdio_redirect_has_input_space s).
  change (twf_done (thr (log (poll_wait input_wait) (log (poll_wait output_wait) s))))
    with (twf_done (thr s)).
  destruct (stdio_redirect_has_output s), (stdio_redirect_has_input_space s),
    (twf_done (thr s)); split; reflexivity.
Qed.

(** X11: thread_with_stdio_poll leaves EPOLLIN out of the mask exactly when a
    non-blocking thread_with_stdio_read would return -EAGAIN with nothing
    read. *)
Theorem poll_readable_iff_read_ready
  (env : list wakeup) (k : list read_answers) (s : thread_with_stdio) (len : Z) :
  0 <= len < 2 ^ 63 ->
  (Z.land (fst (thread_with_stdio_poll s)) EPOLLIN = 0 <->
   thread_with_stdio_read true env k s len = Returns (- EAGAIN, []) s).
Proof.
  intros Hlen. destruct (thread_with_stdio_poll_bits s) as [Hin _].
  rewrite Hin. destruct (stdio_redirect_has_output s) eqn:Hhas.
  - split; [discriminate|]. intros E. exfalso.
    rewrite thread_with_stdio_read_ready in E by exact Hhas.
    apply read_loop_accounts in E; try (cbn [length Z.of_nat]; lia).
    destruct E as (taken & _ & _ & _ & _ & _ & Hr).
    destruct (Hr eq_refl) as [H|H]; discriminate.
  - split; [|reflexivity]. intros _.
    unfold thread_with_stdio_read. cbn [negb]. rewrite Hhas. reflexivity.
Qed.

Section Capacity.

Hypothesis bufsize_range : 0 <= STDIO_REDIRECT_BUFSIZE < 2 ^ 63.
Hypothesis darray_grow_ge : forall n, n <= darray_grow n.
Hypothesis darray_grow_cap :
  forall n, n <= STDIO_REDIRECT_BUFSIZE -> darray_grow n <= STDIO_REDIRECT_BUFSIZE.

Lemma bufsize_range64 : 0 <= STDIO_REDIRECT_BUFSIZE < 2 ^ 64.
Proof. lia. Qed.

(** X12: on an open channel of a structure in use, when no byte faults
    and memory is there, thread_with_stdio_poll and a non-blocking
    thread_with_stdio_write of one byte or more agree: without EPOLLOUT in
    the mask the write returns -EAGAIN and changes nothing, with EPOLLOUT it
    takes at least one byte. *)
Theorem poll_writable_iff_write_ready
  (a1 a2 : write_answers) (k : list write_answers) (s : thread_with_stdio)
  (ubuf : list byte) :
  twf_done (thr s) = false ->
  done (stdio s) = false ->
  input_bounded s = true ->
  faultless a1 = true ->
  faultless a2 = true ->
  0 < Z.of_nat (length ubuf) < 2 ^ 63 ->
  let mask := fst (thread_with_stdio_poll s) in
  let w := thread_with_stdio_write true (a1 :: a2 :: k) s ubuf in
  (Z.land mask EPOLLOUT = 0 -> w = Returns (- EAGAIN) s) /\
  (Z.land mask EPOLLOUT <> 0 -> exists n s', 0 < n /\ w = Returns n s').
Proof.
  intros Htopen Hopen Hb Ha1 Ha2 Hlen mask w.
  destruct (thread_with_stdio_poll_bits s) as [_ Hout]. fold mask in Hout.
  rewrite Hout. unfold stdio_redirect_has_input_space. rewrite Hopen, orb_false_r.
  pose proof (proj1 (faultless_iff a1) Ha1) as (Hf1 & _ & _).
  destruct (nr (input (stdio s)) <? STDIO_REDIRECT_BUFSIZE) eqn:Hspace.
  - split; [discriminate|]. intros _. apply Z.ltb_lt in Hspace.
    apply input_bounded_iff in Hb.
    destruct (thread_with_stdio_write_append bufsize_range64 darray_grow_ge
                darray_grow_cap a1 a2 k s ubuf Ha1 Ha2 Htopen Hb Hspace Hlen)
      as (s' & Hw & _).
    eexists; exists s'. split; [|exact Hw]. lia.
  - split; [|intros H; congruence]. intros _. apply Z.ltb_ge in Hspace.
    apply thread_with_stdio_write_would_block; try assumption; lia.
Qed.

(** A write that fits is taken whole in one turn of the loop, blocking or
    not. *)
Lemma write_loop_fits nonblock a k s ubuf :
  faultless a = true ->
  twf_done (thr s) = false ->
  nr (input (stdio s)) <= size (input (stdio s)) <= STDIO_REDIRECT_BUFSIZE ->
  0 < Z.of_nat (length ubuf) ->
  nr (input (stdio s)) + Z.of_nat (length ubuf) <= STDIO_REDIRECT_BUFSIZE ->
  exists size1,
    nr (input (stdio s)) + Z.of_nat (length ubuf) <= size1 <= STDIO_REDIRECT_BUFSIZE /\
    write_loop nonblock (a :: k) s ubuf 0 0 =
    Returns (Z.of_nat (length ubuf))
      (log (wake_up input_wait)
         (set_input {| data := data (input (stdio s)) ++ ubuf; size := size1 |} s)).
Proof.
  intros Ha Htopen Hwf Hlen Hfit.
  pose proof (nr_nonneg (input (stdio s))) as Hnr0.
  destruct (write_locked_faultless bufsize_range64 darray_grow_ge darray_grow_cap
              a ubuf (input (stdio s)) Ha Hwf ltac:(lia) Hlen)
    as (size1 & Hsize1 & Hlocked).
  rewrite Z.min_l in Hsize1, Hlocked by lia.
  rewrite Nat2Z.id, firstn_all in Hlocked.
  pose proof (proj1 (faultless_iff a) Ha) as (Hf & _ & _).
  exists size1. split; [exact Hsize1|].
  rewrite write_loop_cons. cbv zeta.
  assert (H0 : (Z.of_nat (length ubuf) =? 0) = false) by (apply Z.eqb_neq; lia).
  rewrite H0, Htopen, Hf, Z.sub_0_r, to_size_t_small, H0, Hlocked by lia.
  rewrite H0. cbn [negb]. rewrite Nat2Z.id, skipn_all.
  destruct k; [rewrite write_loop_nil | rewrite write_loop_cons; cbv zeta];
    cbn [length Z.of_nat Z.eqb];
    rewrite Z.add_0_l, to_long_elvis, H0 by lia; reflexivity.
Qed.

(** X13: the input buffer grows with GFP_NOWAIT, and a refusal shows as a
    full buffer.  When the buffer is below STDIO_REDIRECT_BUFSIZE with no
    spare storage and the allocator gives none, thread_with_stdio_poll
    reports EPOLLOUT, yet a non-blocking thread_with_stdio_write returns
    -EAGAIN; a blocking one does not sleep, its wait condition holding: it
    goes round its loop again. *)
Theorem thread_with_stdio_write_no_memory
  (a : write_answers) (k : list write_answers) (s : thread_with_stdio)
  (ubuf : list byte) :
  twf_done (thr s) = false ->
  size (input (stdio s)) = nr (input (stdio s)) ->
  nr (input (stdio s)) < STDIO_REDIRECT_BUFSIZE ->
  alloc_ok a = false ->
  0 <= fault_in_readable a < Z.of_nat (length ubuf) ->
  Z.of_nat (length ubuf) < 2 ^ 64 ->
  Z.land (fst (thread_with_stdio_poll s)) EPOLLOUT = EPOLLOUT /\
  thread_with_stdio_write true (a :: k) s ubuf = Returns (- EAGAIN) s /\
  thread_with_stdio_write false (a :: k) s ubuf =
  thread_with_stdio_write false k s ubuf.
Proof.
  intros Htopen Hsize Hspace Halloc Hfault Hlen.
  pose proof (nr_nonneg (input (stdio s))) as Hnr0.
  assert (Hhas : stdio_redirect_has_input_space s = true).
  { unfold stdio_redirect_has_input_space.
    apply Z.ltb_lt in Hspace. rewrite Hspace. reflexivity. }
  assert (Hlocked : forall b, 0 < b ->
            write_locked a b ubuf (input (stdio s)) = (input (stdio s), 0, false)).
  { intros b Hb. unfold write_locked.
    assert (E1 : (nr (input (stdio s)) <? STDIO_REDIRECT_BUFSIZE) = true)
      by (apply Z.ltb_lt; lia).
    rewrite E1. unfold darray_make_room_gfp, __darray_resize.
    assert (E2 : (size (input (stdio s)) <?
                  nr (input (stdio s)) +
                  Z.min b (STDIO_REDIRECT_BUFSIZE - nr (input (stdio s)))) = true)
      by (apply Z.ltb_lt; lia).
    rewrite E2, Halloc. cbn [fst].
    assert (E3 : darray_room (input (stdio s)) = 0).
    { unfold darray_room. rewrite Hsize, Z.sub_diag. reflexivity. }
    rewrite E3, Z.min_r by lia. reflexivity. }
  assert (H0 : (Z.of_nat (length ubuf) =? 0) = false) by (apply Z.eqb_neq; lia).
  assert (H1 : (Z.of_nat (length ubuf) - fault_in_readable a =? 0) = false)
    by (apply Z.eqb_neq; lia).
  split; [|split].
  - destruct (thread_with_stdio_poll_bits s) as [_ Hout]. rewrite Hout, Hhas.
    reflexivity.
  - unfold thread_with_stdio_write. rewrite write_loop_cons. cbv zeta.
    rewrite H0, Htopen, to_size_t_small, H1, Hlocked by lia.
    cbn [negb Z.eqb]. rewrite set_input_same. reflexivity.
  - unfold thread_with_stdio_write. rewrite write_loop_cons. cbv zeta.
    rewrite H0, Htopen, to_size_t_small, H1, Hlocked by lia.
    cbn [negb Z.eqb]. rewrite set_input_same.
    rewrite wait_event_interruptible_ready by exact Hhas. reflexivity.
Qed.

(** X14: a non-blocking thread_with_stdio_write of more bytes than the input
    buffer has left under STDIO_REDIRECT_BUFSIZE takes the leading bytes that
    fit and returns their number; the buffer is then full, poll no longer
    reports EPOLLOUT, and writing the bytes that remain returns -EAGAIN. *)
Theorem thread_with_stdio_write_short
  (a1 a2 : write_answers) (k : list write_answers) (s : thread_with_stdio)
  (ubuf : list byte) :
  faultless a1 = true ->
  faultless a2 = true ->
  twf_done (thr s) = false ->
  done (stdio s) = false ->
  input_bounded s = true ->
  nr (input (stdio s)) < STDIO_REDIRECT_BUFSIZE ->
  STDIO_REDIRECT_BUFSIZE - nr (input (stdio s)) < Z.of_nat (length ubuf) < 2 ^ 63 ->
  let room := STDIO_REDIRECT_BUFSIZE - nr (input (stdio s)) in
  let w := thread_with_stdio_write true (a1 :: a2 :: k) s ubuf in
  returned w = Some room /\
  data (input (stdio (final w))) =
    data (input (stdio s)) ++ firstn (Z.to_nat room) ubuf /\
  nr (input (stdio (final w))) = STDIO_REDIRECT_BUFSIZE /\
  Z.land (fst (thread_with_stdio_poll (final w))) EPOLLOUT = 0 /\
  forall a k',
    0 <= fault_in_readable a < Z.of_nat (length ubuf) - room ->
    thread_with_stdio_write true (a :: k') (final w) (skipn (Z.to_nat room) ubuf) =
    Returns (- EAGAIN) (final w).
Proof.
  intros Ha1 Ha2 Htopen Hopen Hb Hspace Hlen room w.
  pose proof (nr_nonneg (input (stdio s))) as Hnr0.
  pose proof (proj1 (input_bounded_iff s) Hb) as Hwf.
  destruct (thread_with_stdio_write_append bufsize_range64 darray_grow_ge
              darray_grow_cap a1 a2 k s ubuf Ha1 Ha2 Htopen Hwf Hspace ltac:(lia))
    as (s' & Hw & Hdata & Hwf' & Hout & Hdone & Hthr).
  rewrite Z.min_r in Hw, Hdata by lia. fold room in Hw, Hdata. fold w in Hw.
  assert (Hnr : nr (input (stdio s')) = STDIO_REDIRECT_BUFSIZE).
  { unfold nr. rewrite Hdata, length_app, length_firstn.
    unfold room in *. unfold nr in *. lia. }
  rewrite Hw. cbn [returned final].
  split; [reflexivity|]. split; [exact Hdata|]. split; [exact Hnr|].
  split.
  - destruct (thread_with_stdio_poll_bits s') as [_ Hp]. rewrite Hp.
    unfold stdio_redirect_has_input_space. rewrite Hdone, Hopen, orb_false_r, Hnr.
    rewrite Z.ltb_irrefl. reflexivity.
  - intros a k' Hfault.
    assert (Hrest : Z.of_nat (length (skipn (Z.to_nat room) ubuf)) =
                    Z.of_nat (length ubuf) - room)
      by (rewrite length_skipn; unfold room in *; lia).
    apply thread_with_stdio_write_would_block.
    + rewrite Hthr. exact Htopen.
    + apply input_bounded_iff. exact Hwf'.
    + lia.
    + lia.
    + lia.
Qed.

(** X15: a blocking thread_with_stdio_write to a full input buffer sleeps,
    for good if nobody reads; once the worker has read at least as many bytes
    as the caller writes, the write takes them all and returns their number,
    and they follow in the buffer what the worker left. *)
Theorem blocked_write_resumes
  (a1 a2 : write_answers) (k : list write_answers) (s : thread_with_stdio)
  (ubuf : list byte) (renv : list interference) (env : list wakeup) (n : Z) :
  STDIO_REDIRECT_BUFSIZE < 2 ^ 31 ->
  twf_done (thr s) = false ->
  done (stdio s) = false ->
  input_bounded s = true ->
  nr (input (stdio s)) = STDIO_REDIRECT_BUFSIZE ->
  0 < Z.of_nat (length ubuf) <= n ->
  n <= STDIO_REDIRECT_BUFSIZE ->
  0 <= fault_in_readable a1 < Z.of_nat (length ubuf) ->
  faultless a2 = true ->
  (sleep a1 = [] ->
   thread_with_stdio_write false (a1 :: a2 :: k) s ubuf = Sleeps s) /\
  (sleep a1 = Other (fun s => final (stdio_redirect_read renv s n)) :: env ->
   exists s',
     thread_with_stdio_write false (a1 :: a2 :: k) s ubuf =
     Returns (Z.of_nat (length ubuf)) s' /\
     data (input (stdio s')) = skipn (Z.to_nat n) (data (input (stdio s))) ++ ubuf).
Proof.
  intros H31 Htopen Hopen Hb Hfull Hlen Hn Hfault Ha2.
  pose proof (proj1 (input_bounded_iff s) Hb) as Hwf.
  assert (H1 : stdio_redirect_has_input_space s = false).
  { unfold stdio_redirect_has_input_space. rewrite Hopen, orb_false_r.
    apply Z.ltb_ge. lia. }
  assert (H0 : (Z.of_nat (length ubuf) =? 0) = false) by (apply Z.eqb_neq; lia).
  assert (H3 : (Z.of_nat (length ubuf) - fault_in_readable a1 =? 0) = false)
    by (apply Z.eqb_neq; lia).
  assert (Hturn : thread_with_stdio_write false (a1 :: a2 :: k) s ubuf =
                  match wait_event_interruptible input_wait stdio_redirect_has_input_space
                          (sleep a1) s with
                  | (s, None) => Sleeps s
                  | (s, Some ret) =>
                      if negb (ret =? 0) then Returns (C.to_long (C.elvis 0 ret)) s
                      else write_loop false (a2 :: k) s ubuf 0 ret
                  end).
  { unfold thread_with_stdio_write. rewrite write_loop_cons. cbv zeta.
    rewrite H0, Htopen, to_size_t_small, H3, write_locked_full by lia.
    cbn [negb Z.eqb]. rewrite set_input_same. reflexivity. }
  rewrite Hturn. split.
  - intros Hs. rewrite Hs, (wait_event_interruptible_quiet _ _ _ H1). reflexivity.
  - intros Hs. rewrite Hs.
    set (read := fun s => final (stdio_redirect_read renv s n)).
    assert (Hread : read s =
                    log (wake_up input_wait)
                      (set_input (darray_remove_items (input (stdio s)) 0 n) s)).
    { unfold read. rewrite stdio_redirect_read_open by (try assumption; lia).
      rewrite Z.min_l by lia. reflexivity. }
    assert (Hnr : nr (input (stdio (read s))) = STDIO_REDIRECT_BUFSIZE - n).
    { rewrite Hread. cbn [log logs set_input stdio input].
      rewrite nr_darray_remove_front. lia. }
    assert (H2 : stdio_redirect_has_input_space (read s) = true).
    { unfold stdio_redirect_has_input_space. rewrite Hnr.
      assert (E : (STDIO_REDIRECT_BUFSIZE - n <? STDIO_REDIRECT_BUFSIZE) = true)
        by (apply Z.ltb_lt; lia).
      rewrite E. reflexivity. }
    assert (Hwoken : woken input_wait s (read s) = true)
      by (rewrite Hread; apply woken_log; reflexivity).
    rewrite (wait_event_interruptible_next _ _ read env s H1 Hwoken H2).
    cbn [Z.eqb negb].
    assert (Hsz : size (input (stdio (read s))) = size (input (stdio s)))
      by (rewrite Hread; reflexivity).
    assert (Htopen' : twf_done (thr (read s)) = false)
      by (rewrite Hread; exact Htopen).
    destruct (write_loop_fits false a2 k (read s) ubuf Ha2 Htopen'
                ltac:(lia) ltac:(lia) ltac:(lia)) as (size1 & _ & Hw).
    rewrite Hw. eexists. split; [reflexivity|].
    cbn [log logs set_input stdio input data]. rewrite Hread.
    cbn [log logs set_input stdio input]. rewrite data_darray_remove_front.
    reflexivity.
Qed.


(** X16: a signal ends the sleep of a blocking call.  Asleep on an empty
    output buffer, thread_with_stdio_read returns -ERESTARTSYS; asleep on a
    full input buffer with nothing written, thread_with_stdio_write returns
    -ERESTARTSYS; asleep after it has written the bytes that fitted, it
    returns their number. *)
Theorem signal_interrupts (s : thread_with_stdio) (env : list wakeup) :
  done (stdio s) = false ->
  (nr (output (stdio s)) = 0 ->
   forall k len,
     thread_with_stdio_read false (Signal :: env) k s len =
     Returns (- ERESTARTSYS, []) s) /\
  (twf_done (thr s) = false ->
   input_bounded s = true ->
   STDIO_REDIRECT_BUFSIZE <= nr (input (stdio s)) ->
   forall a k ubuf,
     Z.of_nat (length ubuf) < 2 ^ 64 ->
     0 <= fault_in_readable a < Z.of_nat (length ubuf) ->
     sleep a = Signal :: env ->
     thread_with_stdio_write false (a :: k) s ubuf = Returns (- ERESTARTSYS) s) /\
  (twf_done (thr s) = false ->
   input_bounded s = true ->
   nr (input (stdio s)) < STDIO_REDIRECT_BUFSIZE ->
   forall a1 a2 k ubuf,
     let room := STDIO_REDIRECT_BUFSIZE - nr (input (stdio s)) in
     room < Z.of_nat (length ubuf) < 2 ^ 63 ->
     faultless a1 = true ->
     0 <= fault_in_readable a2 < Z.of_nat (length ubuf) - room ->
     sleep a2 = Signal :: env ->
     returned (thread_with_stdio_write false (a1 :: a2 :: k) s ubuf) = Some room).
Proof.
  intros Hopen. split; [|split].
  - intros Hempty k len. unfold thread_with_stdio_read. cbn [negb].
    assert (H : stdio_redirect_has_output s = false)
      by (unfold stdio_redirect_has_output; rewrite Hempty, Hopen; reflexivity).
    rewrite (wait_event_interruptible_signal _ _ _ _ H). reflexivity.
  - intros Htopen Hb Hfull a k ubuf Hlen Hfault Hsleep.
    apply input_bounded_iff in Hb.
    assert (H1 : stdio_redirect_has_input_space s = false).
    { unfold stdio_redirect_has_input_space. rewrite Hopen, orb_false_r.
      apply Z.ltb_ge. exact Hfull. }
    unfold thread_with_stdio_write. rewrite write_loop_cons. cbv zeta.
    assert (H0 : (Z.of_nat (length ubuf) =? 0) = false) by (apply Z.eqb_neq; lia).
    rewrite H0, Htopen, to_size_t_small by lia.
    assert (H3 : (Z.of_nat (length ubuf) - fault_in_readable a =? 0) = false)
      by (apply Z.eqb_neq; lia).
    rewrite H3, write_locked_full by lia.
    cbn [negb Z.eqb]. rewrite set_input_same, Hsleep.
    rewrite (wait_event_interruptible_signal _ _ _ _ H1). reflexivity.
  - intros Htopen Hb Hspace a1 a2 k ubuf room Hlen Ha1 Hfault Hsleep.
    pose proof (nr_nonneg (input (stdio s))) as Hnr0.
    pose proof (proj1 (input_bounded_iff s) Hb) as Hwf.
    destruct (write_locked_faultless bufsize_range64 darray_grow_ge darray_grow_cap
                a1 ubuf (input (stdio s)) Ha1 Hwf Hspace ltac:(lia))
      as (size1 & Hsize1 & Hlocked).
    rewrite Z.min_r in Hsize1, Hlocked by (unfold room in *; lia).
    fold room in Hsize1, Hlocked.
    set (buf' := {| data := data (input (stdio s)) ++ firstn (Z.to_nat room) ubuf;
                    size := size1 |}) in *.
    assert (Hnr' : nr buf' = STDIO_REDIRECT_BUFSIZE).
    { unfold nr, buf'. cbn [data]. rewrite length_app, length_firstn.
      unfold room in *. unfold nr in *. lia. }
    pose proof (proj1 (faultless_iff a1) Ha1) as (Hf1 & _ & _).
    unfold thread_with_stdio_write. rewrite write_loop_cons. cbv zeta.
    assert (H0 : (Z.of_nat (length ubuf) =? 0) = false)
      by (apply Z.eqb_neq; unfold room in *; lia).
    rewrite H0, Htopen, Hf1, Z.sub_0_r, to_size_t_small, H0, Hlocked
      by (unfold room in *; lia).
    assert (Hn0 : (room =? 0) = false) by (apply Z.eqb_neq; unfold room; lia).
    rewrite Hn0. cbn [negb].
    assert (Hleft : Z.of_nat (length (skipn (Z.to_nat room) ubuf)) =
                    Z.of_nat (length ubuf) - room)
      by (rewrite length_skipn; unfold room in *; lia).
    rewrite write_loop_cons. cbv zeta. rewrite Hleft.
    assert (H1 : (Z.of_nat (length ubuf) - room =? 0) = false)
      by (apply Z.eqb_neq; lia).
    rewrite H1. cbn [log logs set_input thr twf_done stdio input]. rewrite Htopen.
    rewrite to_size_t_small by (unfold room in *; lia).
    assert (H2 : (Z.of_nat (length ubuf) - room - fault_in_readable a2 =? 0) = false)
      by (apply Z.eqb_neq; lia).
    rewrite H2.
    assert (Hfull1 : size buf' = nr buf') by (rewrite Hnr'; unfold buf'; cbn [size]; lia).
    assert (Hfull2 : STDIO_REDIRECT_BUFSIZE <= nr buf') by lia.
    rewrite (write_locked_full a2 _ _ buf' Hfull1 Hfull2).
    cbn [negb Z.eqb]. rewrite Hsleep.
    assert (Hc : stdio_redirect_has_input_space
                   (set_input buf' (log (wake_up input_wait) (set_input buf' s))) =
                 false).
    { unfold stdio_redirect_has_input_space. cbn [set_input log logs stdio input done].
      rewrite Hopen, orb_false_r, Hnr'. apply Z.ltb_irrefl. }
    rewrite (wait_event_interruptible_signal _ _ _ _ Hc).
    cbn [negb Z.eqb Z.opp ERESTARTSYS returned].
    rewrite Z.add_0_l, to_long_elvis, Hn0 by (unfold ERESTARTSYS, room in *; lia).
    reflexivity.
Qed.

End Capacity.


(** ** From the start of the thread to the release of the file *)

(** X17: from run_thread_with_stdio to thread_with_stdio_release, when the
    kernel creates the thread, the descriptor and the file.  The descriptor
    and the file are asked for with O_CLOEXEC|O_RDWR and the descriptor is
    returned; both buffers start empty.  The release returns 0 and leaves the
    channel closed and the buffers empty, having woken both wait queues,
    stopped the thread that was created, dropped the reference taken on it
    at the start, and called the exit callback last. *)
Theorem run_then_release (k : run_answers) (s : thread_with_stdio) :
  let task := kthread_create_ret k in
  let fd := get_unused_fd_flags_ret k in
  let file := anon_inode_getfile_ret k in
  let flags := Z.lor O_CLOEXEC O_RDWR in
  0 < task < 2 ^ 64 - MAX_ERRNO ->
  0 <= fd ->
  0 <= file < 2 ^ 64 - MAX_ERRNO ->
  let started := run_thread_with_stdio k s in
  let released := thread_with_stdio_release (snd started) in
  fst started = fd /\
  input (stdio (snd started)) = darray_init /\
  output (stdio (snd started)) = darray_init /\
  fst released = 0 /\
  closed (snd released) = true /\
  input (stdio (snd released)) = darray_init /\
  output (stdio (snd released)) = darray_init /\
  klog (snd released) =
    klog s ++
    [kthread_create; get_unused_fd_flags flags; anon_inode_getfile flags;
     get_task_struct task; wake_up_process task; fd_install fd file;
     wake_up input_wait; wake_up output_wait;
     kthread_stop task; put_task_struct task; call_exit].
Proof.
  intros task fd file flags Htask Hfd Hfile started released.
  assert (Hrun : run_thread_with_file k (thr s) thread_with_stdio_fops =
                 (fd, {| twf_task := task; twf_ret := 0; twf_done := twf_done (thr s) |},
                  [kthread_create; get_unused_fd_flags flags; anon_inode_getfile flags;
                   get_task_struct task; wake_up_process task; fd_install fd file])).
  { unfold run_thread_with_file. cbv zeta. cbn [twf_task].
    fold task fd file.
    rewrite (PTR_ERR_OR_ZERO_valid task) by lia.
    rewrite (PTR_ERR_OR_ZERO_valid file) by lia.
    cbn [Z.eqb negb].
    assert (E : (fd <? 0) = false) by (apply Z.ltb_ge; lia).
    rewrite E. reflexivity. }
  assert (Hs : snd started =
               {| thr := {| twf_task := task; twf_ret := 0;
                            twf_done := twf_done (thr s) |};
                  stdio := {| input := darray_init; output := darray_init;
                              done := done (stdio s) |};
                  klog := klog s ++
                    [kthread_create; get_unused_fd_flags flags;
                     anon_inode_getfile flags; get_task_struct task;
                     wake_up_process task; fd_install fd file] |} /\
               fst started = fd).
  { unfold started, run_thread_with_stdio. cbv zeta.
    cbn [set_input set_output thr stdio]. rewrite Hrun. split; reflexivity. }
  destruct Hs as [Hs Hfst].
  subst released. rewrite Hs. unfold thread_with_stdio_release, thread_with_file_exit.
  cbv zeta. cbn [thread_with_stdio_done thr twf_task].
  assert (E : (task =? 0) = false) by (apply Z.eqb_neq; lia).
  rewrite E. cbn [negb].
  repeat split; try assumption.
  cbn. rewrite <- !app_assoc. reflexivity.
Qed.


(** ** What a call leaves alone *)

(** X18: open or closed, a thread_with_stdio_read of len > 0 bytes
    that finds the output buffer not empty, the caller's memory writable and
    the copy good, returns after one copy with the first min(len, nr) bytes:
    they leave the front of the output buffer, and nothing else of the
    structure changes; no wake_up is issued on the output wait queue. *)
Theorem thread_with_stdio_read_delivers
  (nonblock : bool) (env : list wakeup) (a : read_answers)
  (k : list read_answers) (s : thread_with_stdio) (len : Z) :
  0 < len ->
  0 < nr (output (stdio s)) < 2 ^ 63 ->
  fault_in_writeable a <> len ->
  copy_to_user_nofault a = 0 ->
  let b := Z.min len (nr (output (stdio s))) in
  let r := thread_with_stdio_read nonblock env (a :: k) s len in
  returned r = Some (b, firstn (Z.to_nat b) (data (output (stdio s)))) /\
  data (output (stdio (final r))) = skipn (Z.to_nat b) (data (output (stdio s))) /\
  size (output (stdio (final r))) = size (output (stdio s)) /\
  input (stdio (final r)) = input (stdio s) /\
  done (stdio (final r)) = done (stdio s) /\
  thr (final r) = thr s /\
  klog (final r) = klog s.
Proof.
  intros Hlen Hnr Hfault Hcopy b r. subst r.
  rewrite thread_with_stdio_read_front by assumption. fold b.
  cbn [returned final set_output stdio output input done thr klog].
  rewrite data_darray_remove_front. repeat split; reflexivity.
Qed.

(** X19: a non-blocking stdio_redirect_vprintf only appends: whether it
    prints the whole text, a part of it or nothing, the bytes the output
    buffer held stay as they were, at most as many bytes as the text has are
    added, the buffer stays within its storage, and the input buffer and the
    flags are left alone. *)
Theorem stdio_redirect_vprintf_appends
  (env : list interference) (allocs : list bool) (s : thread_with_stdio)
  (fmt : list byte) :
  (forall n, n <= darray_grow n) ->
  nr (output (stdio s)) <= size (output (stdio s)) < 2 ^ 64 ->
  darray_grow (nr (output (stdio s)) + (vsnprintf fmt + 1)) < 2 ^ 64 ->
  let p := stdio_redirect_vprintf env allocs s true fmt in
  (exists added,
     data (output (stdio (final p))) = data (output (stdio s)) ++ added /\
     (length added <= length fmt)%nat) /\
  nr (output (stdio (final p))) <= size (output (stdio (final p))) /\
  input (stdio (final p)) = input (stdio s) /\
  done (stdio (final p)) = done (stdio s) /\
  thr (final p) = thr s.
Proof.
  intros Hge Hwf Hcap p.
  destruct (darray_vprintf_cases allocs (output (stdio s)) fmt Hge Hwf Hcap)
    as (Hadd & Hsize & _).
  assert (Hsame : (exists added,
                     data (output (stdio s)) = data (output (stdio s)) ++ added /\
                     (length added <= length fmt)%nat))
    by (exists []; split; [symmetry; apply app_nil_r | simpl; lia]).
  subst p. unfold stdio_redirect_vprintf, vprintf_checked. cbn [negb].
  destruct (negb (stdio_redirect_has_output_space s));
    [cbn [final]; repeat split; try assumption; lia|].
  destruct (done (stdio s)) eqn:Hdone;
    [cbn [final]; repeat split; try assumption; lia|].
  cbn [final log logs set_output stdio output input done thr].
  repeat split; assumption.
Qed.



(** ** Faults *)

(** X20: thread_with_stdio_read when the caller's memory gives trouble.
    With output to hand over and len > 0, a call that can fault in none of
    the caller's buffer returns -EFAULT and takes nothing; a call whose copy
    fails after the pages were faulted in takes nothing in that turn and
    tries again. *)
Theorem thread_with_stdio_read_faults
  (nonblock : bool) (env : list wakeup) (a : read_answers)
  (k : list read_answers) (s : thread_with_stdio) (len : Z) :
  0 < nr (output (stdio s)) ->
  len <> 0 ->
  (fault_in_writeable a = len ->
   thread_with_stdio_read nonblock env (a :: k) s len = Returns (- EFAULT, []) s) /\
  (fault_in_writeable a <> len ->
   copy_to_user_nofault a <> 0 ->
   thread_with_stdio_read nonblock env (a :: k) s len =
   thread_with_stdio_read nonblock env k s len).
Proof.
  intros Hnr Hlen.
  assert (Hhas : stdio_redirect_has_output s = true) by (apply has_output_nonempty; lia).
  rewrite !thread_with_stdio_read_ready by exact Hhas.
  assert (E1 : (len =? 0) = false) by (apply Z.eqb_neq; exact Hlen).
  assert (E2 : (nr (output (stdio s)) =? 0) = false) by (apply Z.eqb_neq; lia).
  cbn [read_loop]. rewrite E1, E2. cbn [negb andb]. split.
  - intros Hfault. apply Z.eqb_eq in Hfault. rewrite Hfault. reflexivity.
  - intros Hfault Hcopy.
    apply Z.eqb_neq in Hfault. apply Z.eqb_neq in Hcopy.
    rewrite Hfault, Hcopy, andb_false_r. reflexivity.
Qed.

(** X21: thread_with_stdio_write when the caller's memory gives trouble.  On
    an open channel, a write of one byte or more that can fault in none of
    them returns -EFAULT and changes nothing.  When the bytes are faulted in
    and the buffer has room for some, but the copy fails, the turn puts
    nothing in the buffer, still wakes the waiters of the input buffer, and
    the write tries again. *)
Theorem thread_with_stdio_write_faults
  (nonblock : bool) (a : write_answers) (k : list write_answers)
  (s : thread_with_stdio) (ubuf : list byte) :
  twf_done (thr s) = false ->
  0 < Z.of_nat (length ubuf) < 2 ^ 64 ->
  (fault_in_readable a = Z.of_nat (length ubuf) ->
   thread_with_stdio_write nonblock (a :: k) s ubuf = Returns (- EFAULT) s) /\
  ((forall n, n <= darray_grow n) ->
   0 <= fault_in_readable a < Z.of_nat (length ubuf) ->
   alloc_ok a = true ->
   copy_from_user_nofault a <> 0 ->
   nr (input (stdio s)) < STDIO_REDIRECT_BUFSIZE ->
   nr (input (stdio s)) <= size (input (stdio s)) ->
   darray_grow (nr (input (stdio s)) +
                Z.min (Z.of_nat (length ubuf) - fault_in_readable a)
                  (STDIO_REDIRECT_BUFSIZE - nr (input (stdio s)))) < 2 ^ 64 ->
   size (input (stdio s)) < 2 ^ 64 ->
   exists s1,
     thread_with_stdio_write nonblock (a :: k) s ubuf =
     thread_with_stdio_write nonblock k s1 ubuf /\
     data (input (stdio s1)) = data (input (stdio s)) /\
     klog s1 = klog s ++ [wake_up input_wait] /\
     output (stdio s1) = output (stdio s) /\
     done (stdio s1) = done (stdio s) /\
     thr s1 = thr s).
Proof.
  intros Htopen Hlen.
  assert (H0 : (Z.of_nat (length ubuf) =? 0) = false) by (apply Z.eqb_neq; lia).
  split.
  - intros Hfault. unfold thread_with_stdio_write. rewrite write_loop_cons. cbv zeta.
    rewrite H0, Htopen, Hfault, Z.sub_diag. reflexivity.
  - intros Hge Hfault Halloc Hcopy Hspace Hwf Hcap Hsize.
    pose proof (nr_nonneg (input (stdio s))) as Hnr0.
    set (b := Z.of_nat (length ubuf) - fault_in_readable a) in *.
    set (more := Z.min b (STDIO_REDIRECT_BUFSIZE - nr (input (stdio s)))) in *.
    set (buf := input (stdio s)) in *.
    set (buf' := fst (darray_make_room_gfp (alloc_ok a) buf more)).
    assert (Hbuf' : data buf' = data buf /\ nr buf + more <= size buf' < 2 ^ 64).
    { unfold buf', darray_make_room_gfp, __darray_resize. rewrite Halloc.
      destruct (size buf <? nr buf + more) eqn:E; cbn [fst data size].
      - split; [reflexivity|]. pose proof (Hge (nr buf + more)). lia.
      - apply Z.ltb_ge in E. split; [reflexivity | lia]. }
    destruct Hbuf' as [Hdata' Hsize'].
    assert (Hnr' : nr buf' = nr buf) by (unfold nr; rewrite Hdata'; reflexivity).
    assert (Hroom : darray_room buf' = size buf' - nr buf').
    { apply darray_room_small. subst more b. lia. }
    assert (Hlocked : write_locked a b ubuf buf =
                      (buf', Z.min (Z.of_nat (length ubuf)) (darray_room buf'), false)).
    { unfold write_locked.
      assert (E : (nr buf <? STDIO_REDIRECT_BUFSIZE) = true) by (apply Z.ltb_lt; lia).
      rewrite E. fold more. fold buf'.
      apply Z.eqb_neq in Hcopy. rewrite Hcopy, andb_false_r. reflexivity. }
    assert (Hb : (Z.min (Z.of_nat (length ubuf)) (darray_room buf') =? 0) = false).
    { apply Z.eqb_neq. rewrite Hroom. subst more b. lia. }
    exists (log (wake_up input_wait) (set_input buf' s)).
    split; [|repeat split; exact Hdata'].
    unfold thread_with_stdio_write. rewrite write_loop_cons. cbv zeta.
    fold b. rewrite H0, Htopen, to_size_t_small by (subst b; lia).
    assert (Hb0 : (b =? 0) = false) by (apply Z.eqb_neq; subst b; lia).
    fold buf. rewrite Hb0, Hlocked, Hb. reflexivity.
Qed.

(** ** kthread_create fails *)

(** X22: when kthread_create returns an error pointer, run_thread_with_file
    returns the error number in it, a negative number, having called nothing
    else: no descriptor is asked for and nothing is stopped.  thr->ret is 0
    and thr->task is left holding the error pointer, which is not NULL:
    thread_with_file_exit on the structure would hand it to kthread_stop and
    put_task_struct. *)
Theorem run_thread_with_file_no_thread
  (k : run_answers) (t : thread_with_file) (fops : file_operations) :
  let task := kthread_create_ret k in
  let t' := {| twf_task := task; twf_ret := 0; twf_done := twf_done t |} in
  2 ^ 64 - MAX_ERRNO <= task < 2 ^ 64 ->
  run_thread_with_file k t fops = (task - 2 ^ 64, t', [kthread_create]) /\
  - MAX_ERRNO <= task - 2 ^ 64 < 0 /\
  thread_with_file_exit t' = [kthread_stop task; put_task_struct task].
Proof.
  intros task t' Htask.
  destruct (PTR_ERR_OR_ZERO_error task Htask) as [Hval Hneg].
  rewrite Hval in Hneg.
  split; [|split; [exact Hneg|]].
  - unfold run_thread_with_file. cbv zeta. cbn [twf_task]. fold task.
    rewrite Hval.
    assert (E : (task - 2 ^ 64 =? 0) = false) by (apply Z.eqb_neq; lia).
    rewrite E. reflexivity.
  - unfold thread_with_file_exit, t'. cbn [twf_task].
    assert (E : (task =? 0) = false) by (apply Z.eqb_neq; unfold MAX_ERRNO in *; lia).
    rewrite E. reflexivity.
Qed.


(** ** A sleeper that nobody wakes *)

Lemma read_loop_klog k :
  forall s ubuf len copied ret,
    klog (final (read_loop k s ubuf len copied ret)) = klog s.
Proof.
  induction k as [|a k IH]; intros s ubuf len copied ret; cbn [read_loop].
  - destruct (negb (len =? 0) && negb (nr (output (stdio s)) =? 0)); reflexivity.
  - destruct (negb (len =? 0) && negb (nr (output (stdio s)) =? 0)); [|reflexivity].
    destruct (fault_in_writeable a =? len); [reflexivity|].
    destruct (negb _ && _); rewrite IH; reflexivity.
Qed.

(** X23: thread_with_stdio_read calls no wake_up, so it does not wake a
    worker asleep in a blocking stdio_redirect_vprintf on an output buffer at
    its capacity: whatever room the read has made, the print sleeps on until
    another call wakes the output wait queue. *)
Theorem blocked_print_not_woken_by_read
  (renv : list wakeup) (k : list read_answers) (len : Z) (allocs : list bool)
  (s : thread_with_stdio) (fmt : list byte) :
  done (stdio s) = false ->
  STDIO_REDIRECT_BUFSIZE <= nr (output (stdio s)) ->
  let read : interference :=
    fun s => final (thread_with_stdio_read true renv k s len) in
  klog (read s) = klog s /\
  woken output_wait s (read s) = false /\
  stdio_redirect_vprintf [read] allocs s false fmt = Sleeps (read s).
Proof.
  intros Hopen Hfull read.
  assert (Hlog : klog (read s) = klog s).
  { unfold read, thread_with_stdio_read. cbn [negb].
    destruct (negb (stdio_redirect_has_output s)); [reflexivity|].
    apply read_loop_klog. }
  assert (Hw : woken output_wait s (read s) = false).
  { unfold woken, wake_ups. rewrite Hlog. apply Nat.ltb_irrefl. }
  split; [exact Hlog|]. split; [exact Hw|].
  assert (H : stdio_redirect_has_output_space s = false).
  { unfold stdio_redirect_has_output_space. rewrite Hopen, orb_false_r.
    apply Z.ltb_ge. exact Hfull. }
  unfold stdio_redirect_vprintf. cbn [negb].
  rewrite (wait_event_missed _ _ read _ H Hw). reflexivity.
Qed.

(** ** The worker's print is a producer *)





End Proofs.

(** * The code as compiled

    A capacity of 4096 bytes, sizes rounded to powers of two. *)

Lemma roundup_pow_of_two_ge n : n <= roundup_pow_of_two n.
Proof.
  unfold roundup_pow_of_two.
  destruct (Z_lt_le_dec 1 n) as [H|H].
  - apply Z.log2_up_spec in H. lia.
  - pose proof (Z.log2_up_nonneg n).
    assert (0 < 2 ^ Z.log2_up n) by (apply Z.pow_pos_nonneg; lia). lia.
Qed.

Lemma roundup_pow_of_two_cap k n :
  0 <= k -> n <= 2 ^ k -> roundup_pow_of_two n <= 2 ^ k.
Proof.
  intros Hk Hn. unfold roundup_pow_of_two.
  apply Z.pow_le_mono_r; [lia|].
  destruct (Z_lt_le_dec 0 n) as [H|H].
  - apply Z.log2_up_le_pow2; assumption.
  - rewrite Z.log2_up_nonpos by assumption. exact Hk.
Qed.

Lemma roundup_pow_of_two_4096 n : n <= 4096 -> roundup_pow_of_two n <= 4096.
Proof. apply (roundup_pow_of_two_cap 12). lia. Qed.

Lemma roundup_pow_of_two_8 n : n <= 8 -> roundup_pow_of_two n <= 8.
Proof. apply (roundup_pow_of_two_cap 3). lia. Qed.

(** C3: with a capacity of 8 bytes, on an open channel whose input buffer is
    empty, a non-blocking write of "ABCDEFGHIJ" returns 8 and leaves
    "ABCDEFGH" in the buffer; a read of 4 bytes then returns "ABCD" and
    leaves "EFGH"; a non-blocking write of "IJ" then accepts both bytes and
    leaves "EFGHIJ", 6 bytes. *)
Theorem scenario_capacity_8 (darray_grow : Z -> Z) (s : thread_with_stdio) :
  (forall n, n <= darray_grow n) ->
  (forall n, n <= 8 -> darray_grow n <= 8) ->
  twf_done (thr s) = false ->
  done (stdio s) = false ->
  data (input (stdio s)) = [] ->
  0 <= size (input (stdio s)) <= 8 ->
  exists s1 s2 s3,
    thread_with_stdio_write 8 darray_grow true [no_fault; no_fault] s
      (list_byte_of_string "ABCDEFGHIJ") = Returns 8 s1 /\
    data (input (stdio s1)) = list_byte_of_string "ABCDEFGH" /\
    stdio_redirect_read [] s1 4 = Returns (4, list_byte_of_string "ABCD") s2 /\
    data (input (stdio s2)) = list_byte_of_string "EFGH" /\
    thread_with_stdio_write 8 darray_grow true [no_fault; no_fault] s2
      (list_byte_of_string "IJ") = Returns 2 s3 /\
    data (input (stdio s3)) = list_byte_of_string "EFGHIJ" /\
    nr (input (stdio s3)) = 6.
Proof.
  intros Hge Hcap Hopen Hd Hdata Hsize.
  assert (Hnr : nr (input (stdio s)) = 0) by (unfold nr; rewrite Hdata; reflexivity).
  destruct (thread_with_stdio_write_append 8 darray_grow ltac:(lia) Hge Hcap
              no_fault no_fault [] s (list_byte_of_string "ABCDEFGHIJ"))
    as (s1 & Hw1 & Hdata1 & Hwf1 & _ & Hd1 & Ht1);
    try reflexivity; try assumption; try lia; [simpl; lia|].
  rewrite Hnr, Hdata in *. simpl in Hw1, Hdata1.
  assert (Hnr1 : nr (input (stdio s1)) = 8) by (unfold nr; rewrite Hdata1; reflexivity).
  pose proof (stdio_redirect_read_open [] s1 4) as Hr.
  rewrite Hnr1, Hdata1 in Hr. simpl in Hr.
  specialize (Hr ltac:(congruence) ltac:(lia) ltac:(lia)).
  set (s2 := log (wake_up input_wait)
               (set_input (darray_remove_items (input (stdio s1)) 0 4) s1)) in *.
  assert (Hdata2 : data (input (stdio s2)) = list_byte_of_string "EFGH")
    by (simpl; rewrite Hdata1; reflexivity).
  assert (Hnr2 : nr (input (stdio s2)) = 4) by (unfold nr; rewrite Hdata2; reflexivity).
  destruct (thread_with_stdio_write_append 8 darray_grow ltac:(lia) Hge Hcap
              no_fault no_fault [] s2 (list_byte_of_string "IJ"))
    as (s3 & Hw3 & Hdata3 & _);
    try reflexivity; try lia.
  { simpl. congruence. }
  { rewrite Hnr2. simpl. lia. }
  { simpl; lia. }
  rewrite Hnr2, Hdata2 in *. simpl in Hw3, Hdata3.
  exists s1, s2, s3. repeat split; try assumption.
  unfold nr. rewrite Hdata3. reflexivity.
Qed.

Lemma scenario_capacity_8_witness :
  exists s1 s2 s3,
    thread_with_stdio_write 8 roundup_pow_of_two true [no_fault; no_fault] started
      (list_byte_of_string "ABCDEFGHIJ") = Returns 8 s1 /\
    data (input (stdio s1)) = list_byte_of_string "ABCDEFGH" /\
    stdio_redirect_read [] s1 4 = Returns (4, list_byte_of_string "ABCD") s2 /\
    data (input (stdio s2)) = list_byte_of_string "EFGH" /\
    thread_with_stdio_write 8 roundup_pow_of_two true [no_fault; no_fault] s2
      (list_byte_of_string "IJ") = Returns 2 s3 /\
    data (input (stdio s3)) = list_byte_of_string "EFGHIJ" /\
    nr (input (stdio s3)) = 6.
Proof.
  apply (scenario_capacity_8 roundup_pow_of_two started).
  - apply roundup_pow_of_two_ge.
  - apply roundup_pow_of_two_8.
  - reflexivity.
  - reflexivity.
  - reflexivity.
  - simpl. lia.
Defined.

(** The same at the capacity of the code: of 4098 bytes, 4096 are accepted;
    4 are read; 2 more are then accepted. *)
Example scenario_capacity_4096 :
  let w1 := thread_with_stdio_write 4096 roundup_pow_of_two true [no_fault; no_fault]
              started (repeat x41 4096 ++ list_byte_of_string "IJ") in
  let r := stdio_redirect_read [] (final w1) 4 in
  let w2 := thread_with_stdio_write 4096 roundup_pow_of_two true [no_fault; no_fault]
              (final r) (list_byte_of_string "IJ") in
  returned w1 = Some 4096 /\
  data (input (stdio (final w1))) = repeat x41 4096 /\
  returned r = Some (4, repeat x41 4) /\
  data (input (stdio (final r))) = repeat x41 4092 /\
  returned w2 = Some 2 /\
  data (input (stdio (final w2))) = repeat x41 4092 ++ list_byte_of_string "IJ".
Proof. vm_compute. repeat split; reflexivity. Qed.

(** ** The states defined above are states of a structure in use *)

Lemma reachable_started : reachable 4096 roundup_pow_of_two started.
Proof. apply reach_run; reflexivity. Qed.

Lemma reachable_write nonblock k ubuf s :
  Forall (system_step 4096 roundup_pow_of_two) (flat_map (fun a => others (sleep a)) k) ->
  reachable 4096 roundup_pow_of_two s ->
  reachable 4096 roundup_pow_of_two
    (final (thread_with_stdio_write 4096 roundup_pow_of_two nonblock k s ubuf)).
Proof.
  intros Hk Hs.
  apply (reach_step 4096 roundup_pow_of_two
           (fun s => final (thread_with_stdio_write 4096 roundup_pow_of_two nonblock k s ubuf)));
    [apply step_file_write; exact Hk | exact Hs].
Qed.

Lemma reachable_fn_returns s :
  reachable 4096 roundup_pow_of_two s ->
  reachable 4096 roundup_pow_of_two (snd (thread_with_stdio_fn (fun s => s) s)).
Proof.
  intros Hs.
  apply (reach_step 4096 roundup_pow_of_two
           (fun s => snd (thread_with_stdio_fn (fun s => s) s)));
    [apply step_fn, step_skip | exact Hs].
Qed.

Lemma reachable_wrote_A : reachable 4096 roundup_pow_of_two wrote_A.
Proof. apply reachable_write; [constructor | apply reachable_started]. Qed.

Lemma reachable_closed_A : reachable 4096 roundup_pow_of_two closed_A.
Proof. apply reachable_fn_returns, reachable_wrote_A. Qed.

Lemma reachable_closed_abc : reachable 4096 roundup_pow_of_two closed_abc.
Proof.
  apply reachable_fn_returns, reachable_write; [constructor | apply reachable_started].
Qed.

Lemma reachable_filled : reachable 4096 roundup_pow_of_two filled.
Proof. apply reachable_write; [constructor | apply reachable_started]. Qed.

(** ** C1 *)



(** ** C2 *)

(** C2 as stated fails: the channel closed with the partial line "abc" in
    the input buffer; stdio_redirect_readline returns Closed (-1) with
    nothing copied and leaves the three bytes where they are, so that no call
    ever returns them. *)
Lemma stdio_redirect_readline_closed_keeps_line :
  reachable 4096 roundup_pow_of_two closed_abc /\
  done (stdio closed_abc) = true /\
  data (input (stdio closed_abc)) = list_byte_of_string "abc" /\
  stdio_redirect_readline [] closed_abc 10 = Returns (-1, []) closed_abc /\
  stdio_redirect_read [] closed_abc 10 = Returns (-1, []) closed_abc.
Proof.
  split; [apply reachable_closed_abc|]. repeat split; reflexivity.
Qed.

Lemma feeds_write_xyz_and_close : feeds write_xyz_and_close.
Proof.
  apply (feeds_seq write_xyz thread_with_stdio_done).
  - apply (thread_with_stdio_write_feeds 4096 roundup_pow_of_two true
             [no_fault; no_fault] (list_byte_of_string "xyz")).
    constructor.
  - apply feeds_thread_with_stdio_done.
Qed.

Lemma stdio_redirect_readline_spec_witness :
  let r := stdio_redirect_readline [write_xyz_and_close] wrote_abc 10 in
  0 <= 10 < 2 ^ 31 /\
  Forall feeds [write_xyz_and_close] /\
  returned r = Some (3, list_byte_of_string "abc") /\
  done (stdio (final r)) = true /\
  data (input (stdio (final r))) = list_byte_of_string "xyz" /\
  (exists added,
     list_byte_of_string "abc" ++ data (input (stdio (final r))) =
     data (input (stdio wrote_abc)) ++ added) /\
  stdio_redirect_readline [thread_with_stdio_done] started 10 =
  Returns (-1, []) (thread_with_stdio_done started).
Proof.
  intros r.
  assert (Hlen : 0 <= 10 < 2 ^ 31) by lia.
  assert (Hfeeds : Forall feeds [write_xyz_and_close])
    by (constructor; [apply feeds_write_xyz_and_close | constructor]).
  destruct (stdio_redirect_readline_spec [write_xyz_and_close] wrote_abc 10 Hlen)
    as (_ & _ & _ & Hkeeps & _ & Hmid & _).
  destruct (stdio_redirect_readline_spec [thread_with_stdio_done] started 10 Hlen)
    as (_ & _ & _ & _ & _ & _ & Hfirst).
  assert (Hr : r = Returns (3, list_byte_of_string "abc") (final r)).
  { unfold r. rewrite (Hmid write_xyz_and_close []); try reflexivity.
    - discriminate.
    - cbn. intros [H|[H|[H|H]]];
        [discriminate H | discriminate H | discriminate H | exact H]. }
  split; [exact Hlen|]. split; [exact Hfeeds|].
  split; [rewrite Hr; reflexivity|].
  split; [reflexivity|]. split; [vm_compute; reflexivity|].
  split.
  - exact (Hkeeps Hfeeds 3 (list_byte_of_string "abc") (final r) Hr).
  - apply (Hfirst thread_with_stdio_done []); reflexivity.
Defined.


(** ** C4 *)

(** C4: in a structure in use, the input buffer holds at most 4096 bytes
    after every thread_with_stdio_write, and after every other step of the
    system: the write path of the caller copies only what fits below the
    capacity. *)
Theorem thread_with_stdio_write_within_capacity
  (darray_grow : Z -> Z) (nonblock : bool) (k : list write_answers)
  (s : thread_with_stdio) (ubuf : list byte) :
  (forall n, n <= darray_grow n) ->
  (forall n, n <= 4096 -> darray_grow n <= 4096) ->
  reachable 4096 darray_grow s ->
  Forall (system_step 4096 darray_grow) (flat_map (fun a => others (sleep a)) k) ->
  nr (input (stdio (final (thread_with_stdio_write 4096 darray_grow nonblock k s ubuf))))
    <= 4096 /\
  (forall f, system_step 4096 darray_grow f -> nr (input (stdio (f s))) <= 4096).
Proof.
  intros Hge Hcap Hs Hk.
  assert (Hb : input_bounded 4096 s = true)
    by (apply (reachable_input_bounded 4096 darray_grow); auto; lia).
  assert (Hstep : forall f, system_step 4096 darray_grow f ->
                            nr (input (stdio (f s))) <= 4096).
  { intros f Hf.
    assert (H : input_bounded 4096 (f s) = true)
      by (apply (input_bounded_stable 4096 darray_grow); auto; lia).
    apply input_bounded_iff in H. lia. }
  split; [|exact Hstep].
  apply (Hstep (fun s => final (thread_with_stdio_write 4096 darray_grow nonblock k s ubuf))).
  apply step_file_write, Hk.
Qed.

Lemma thread_with_stdio_write_within_capacity_witness :
  nr (input (stdio (final (thread_with_stdio_write 4096 roundup_pow_of_two true
                             [no_fault; no_fault] filled [x42]))))
    <= 4096 /\
  (forall f, system_step 4096 roundup_pow_of_two f -> nr (input (stdio (f filled))) <= 4096).
Proof.
  apply (thread_with_stdio_write_within_capacity roundup_pow_of_two true
           [no_fault; no_fault] filled [x42]).
  - apply roundup_pow_of_two_ge.
  - apply roundup_pow_of_two_4096.
  - apply reachable_filled.
  - constructor.
Defined.

(** The formatted write of the worker is not held to the capacity: a text of
    5000 bytes goes into the output buffer whole. *)
Example stdio_redirect_vprintf_past_capacity :
  nr (output (stdio (final (stdio_redirect_vprintf 4096 roundup_pow_of_two [] [true]
                              started true (repeat x41 5000))))) = 5000.
Proof. vm_compute. reflexivity. Qed.

(** ** C5 *)

(** C5 as stated fails: on a closed channel, a thread_with_stdio_write of no
    bytes accepts nothing and returns 0, not BrokenPipe; and the worker's
    stdio_redirect_vprintf returns nothing at all. *)
Lemma write_after_close_no_error :
  twf_done (thr closed_A) = true /\
  done (stdio closed_A) = true /\
  thread_with_stdio_write 4096 roundup_pow_of_two true [no_fault] closed_A [] =
    Returns 0 closed_A /\
  0 <> - EPIPE /\
  stdio_redirect_vprintf 4096 roundup_pow_of_two [] [true] closed_A true
    (list_byte_of_string "late") = Returns tt closed_A.
Proof. repeat split; try reflexivity. discriminate. Qed.

Lemma write_after_close_witness :
  thread_with_stdio_write 4096 roundup_pow_of_two true [no_fault] closed_A [x42] =
    Returns (- EPIPE) closed_A /\
  stdio_redirect_vprintf 4096 roundup_pow_of_two [] [true] closed_A true
    (list_byte_of_string "late") = Returns tt closed_A /\
  (forall r s',
     thread_with_stdio_write 4096 roundup_pow_of_two true [no_fault] closed_A [x42] =
       Returns r s' ->
     exists n taken,
       0 <= n <= 1 /\
       taken ++ data (input (stdio s')) =
         data (input (stdio closed_A)) ++ firstn (Z.to_nat n) [x42] /\
       (n <> 0 -> r = n) /\
       (n = 0 ->
        (r = 0 /\ [x42] = []) \/ In r [- EPIPE; - EFAULT; - EAGAIN; - ERESTARTSYS])).
Proof.
  pose proof (write_after_close 4096 roundup_pow_of_two true [no_fault] closed_A [x42]
                [] [true] true (list_byte_of_string "late")) as (H1 & H2 & H3).
  split; [|split].
  - apply H1; [reflexivity | discriminate].
  - apply H2. reflexivity.
  - apply H3; [constructor | simpl; lia].
Defined.

(** ** C6 *)

Lemma poll_after_close_witness :
  Forall (system_step 4096 roundup_pow_of_two)
    [fun s => final (stdio_redirect_read [] s 1)] /\
  closed closed_A = true /\
  reachable 4096 roundup_pow_of_two closed_A /\
  done (stdio closed_A) = true /\
  let mask :=
    fst (thread_with_stdio_poll 4096
           (fold_left (fun s f => f s) [fun s => final (stdio_redirect_read [] s 1)]
              closed_A)) in
  mask = EPOLL_ALL /\
  Z.land mask EPOLLIN = EPOLLIN /\
  Z.land mask EPOLLOUT = EPOLLOUT /\
  Z.land mask EPOLLHUP = EPOLLHUP /\
  Z.land mask EPOLLERR = EPOLLERR.
Proof.
  assert (Hfs : Forall (system_step 4096 roundup_pow_of_two)
                  [fun s => final (stdio_redirect_read [] s 1)]).
  { constructor; [|constructor]. apply step_read. constructor. }
  split; [exact Hfs|]. split; [reflexivity|].
  split; [apply reachable_closed_A|]. split; [reflexivity|].
  apply (poll_after_close 4096 roundup_pow_of_two closed_A
           [fun s => final (stdio_redirect_read [] s 1)] Hfs).
  reflexivity.
Defined.

(** ** C8 *)

Lemma close_flag_monotonic_witness :
  (forall f, system_step 4096 roundup_pow_of_two f ->
     (done (stdio closed_A) = true -> done (stdio (f closed_A)) = true) /\
     (twf_done (thr closed_A) = true -> twf_done (thr (f closed_A)) = true)) /\
  done (stdio (snd (thread_with_stdio_release closed_A))) = true /\
  closed (thread_with_stdio_done wrote_A) = true /\
  klog (thread_with_stdio_done wrote_A) =
    klog wrote_A ++ [wake_up input_wait; wake_up output_wait].
Proof.
  pose proof (close_flag_monotonic 4096 roundup_pow_of_two closed_A) as (Hmono & _).
  pose proof (close_flag_monotonic 4096 roundup_pow_of_two wrote_A)
    as (_ & Hset & _ & _ & Hwake).
  split; [exact Hmono|]. split; [|split; [exact Hset | exact Hwake]].
  apply (Hmono (fun s => snd (thread_with_stdio_release s))); [apply step_release | reflexivity].
Defined.

(** ** C9 *)

(** C9 as stated fails: the input buffer is full and the channel open; a
    non-blocking write of no bytes returns 0, and one from memory that cannot
    be read returns Fault (-EFAULT); neither returns WouldBlock. *)
Lemma nonblocking_write_full_not_would_block :
  reachable 4096 roundup_pow_of_two filled /\
  twf_done (thr filled) = false /\
  done (stdio filled) = false /\
  nr (input (stdio filled)) = 4096 /\
  thread_with_stdio_write 4096 roundup_pow_of_two true [no_fault] filled [] =
    Returns 0 filled /\
  thread_with_stdio_write 4096 roundup_pow_of_two true
    [{| fault_in_readable := 1; alloc_ok := true; copy_from_user_nofault := - EFAULT;
        sleep := [] |}] filled [x42] =
    Returns (- EFAULT) filled /\
  0 <> - EAGAIN /\ - EFAULT <> - EAGAIN.
Proof.
  split; [apply reachable_filled|].
  repeat split; try (vm_compute; reflexivity); discriminate.
Qed.

Lemma nonblocking_would_block_witness :
  thread_with_stdio_read true [] [] filled 16 = Returns (- EAGAIN, []) filled /\
  thread_with_stdio_write 4096 roundup_pow_of_two true [no_fault] filled [x42] =
    Returns (- EAGAIN) filled.
Proof.
  pose proof (nonblocking_would_block 4096 roundup_pow_of_two filled) as (Hr & Hw).
  split.
  - apply Hr; vm_compute; reflexivity.
  - apply Hw; try (vm_compute; reflexivity).
    + vm_compute. discriminate.
    + simpl. lia.
Defined.

(** ** C10 *)

Lemma run_thread_with_file_outcomes_witness :
  let no_fd :=
    {| kthread_create_ret := 2 ^ 47; get_unused_fd_flags_ret := - 24;
       anon_inode_getfile_ret := 0 |} in
  let no_file :=
    {| kthread_create_ret := 2 ^ 47; get_unused_fd_flags_ret := 3;
       anon_inode_getfile_ret := 2 ^ 64 - ENOMEM |} in
  let t' := {| twf_task := 2 ^ 47; twf_ret := 0; twf_done := false |} in
  let flags := run_fd_flags thread_with_stdio_fops in
  run_thread_with_file no_fd (thr zeroed) thread_with_stdio_fops =
    (- 24, t', [kthread_create; get_unused_fd_flags flags; kthread_stop (2 ^ 47)]) /\
  run_thread_with_file no_file (thr zeroed) thread_with_stdio_fops =
    (- ENOMEM, t',
     [kthread_create; get_unused_fd_flags flags; anon_inode_getfile flags;
      put_unused_fd 3; kthread_stop (2 ^ 47)]) /\
  run_thread_with_file run_ok (thr zeroed) thread_with_stdio_fops =
    (3, t',
     [kthread_create; get_unused_fd_flags flags; anon_inode_getfile flags;
      get_task_struct (2 ^ 47); wake_up_process (2 ^ 47);
      fd_install 3 (2 ^ 47 + 4096)]).
Proof.
  intros no_fd no_file t' flags.
  split; [|split].
  - apply (run_thread_with_file_outcomes no_fd (thr zeroed) thread_with_stdio_fops);
      simpl; lia.
  - apply (proj1 (proj2 (run_thread_with_file_outcomes no_file (thr zeroed)
                           thread_with_stdio_fops ltac:(simpl; lia) ltac:(simpl; lia)))).
    + simpl. lia.
    + reflexivity.
  - apply (proj2 (proj2 (run_thread_with_file_outcomes run_ok (thr zeroed)
                           thread_with_stdio_fops ltac:(simpl; lia) ltac:(simpl; lia)))).
    + simpl. lia.
    + reflexivity.
Defined.

(** ** C7 *)

(** C7 fails on the code: a non-blocking stdio_redirect_vprintf of "hello"
    finds room for 4 bytes and the allocator gives no more.  The output
    buffer then holds "hel" followed by a NUL byte: the loss of "lo" shows
    through a byte that is no part of the text, and "l", which had room, is
    lost with them. *)
Theorem stdio_redirect_vprintf_truncation_stores_nul :
  reachable 4096 roundup_pow_of_two drained /\
  done (stdio drained) = false /\
  output (stdio drained) = {| data := []; size := 4 |} /\
  stdio_redirect_vprintf 4096 roundup_pow_of_two [] [false] drained true
    (list_byte_of_string "hello") =
  Returns tt
    (log (wake_up output_wait)
       (set_output {| data := [x68; x65; x6c; x00]; size := 4 |} drained)).
Proof.
  split; [|repeat split; reflexivity].
  unfold drained.
  apply (reach_step 4096 roundup_pow_of_two
           (fun s => final (thread_with_stdio_read true []
                              [{| fault_in_writeable := 0; copy_to_user_nofault := 0 |}] s 3))).
  - apply step_file_read. constructor.
  - apply (reach_step 4096 roundup_pow_of_two
             (fun s => final (stdio_redirect_vprintf 4096 roundup_pow_of_two [] [true] s true
                                (list_byte_of_string "abc")))).
    + apply step_vprintf. constructor.
    + apply reachable_started.
Qed.

(** * Instances of the further properties *)


Lemma thread_with_stdio_read_delivers_witness :
  let r := thread_with_stdio_read true [] [read_ok] printed_abc 2 in
  returned r = Some (2, list_byte_of_string "ab") /\
  data (output (stdio (final r))) = list_byte_of_string "c" /\
  size (output (stdio (final r))) = size (output (stdio printed_abc)) /\
  input (stdio (final r)) = input (stdio printed_abc) /\
  done (stdio (final r)) = done (stdio printed_abc) /\
  thr (final r) = thr printed_abc /\
  klog (final r) = klog printed_abc.
Proof.
  apply (thread_with_stdio_read_delivers true [] read_ok [] printed_abc 2).
  - lia.
  - evaluate.
  - evaluate.
  - reflexivity.
Defined.


Lemma output_survives_close_witness :
  let s1 := snd (thread_with_stdio_fn print_abc started) in
  let r := thread_with_stdio_read true [] [read_ok] s1 16 in
  done (stdio s1) = true /\
  returned r = Some (3, list_byte_of_string "abc") /\
  forall nonblock' env' k' len',
    thread_with_stdio_read nonblock' env' k' (final r) len' =
    Returns (0, []) (final r).
Proof.
  apply (output_survives_close print_abc started true [] read_ok [] 16).
  - evaluate.
  - evaluate.
  - evaluate.
  - reflexivity.
Defined.

Lemma close_wakes_worker_witness :
  (forall len,
     stdio_redirect_read [thread_with_stdio_done] flooded len =
     Returns (-1, []) (thread_with_stdio_done flooded) /\
     stdio_redirect_readline [thread_with_stdio_done] flooded len =
     Returns (-1, []) (thread_with_stdio_done flooded)) /\
  (forall allocs fmt,
     stdio_redirect_vprintf 4096 roundup_pow_of_two [thread_with_stdio_done] allocs
       flooded false fmt =
     Returns tt (thread_with_stdio_done flooded)) /\
  woken input_wait flooded (thread_with_stdio_done flooded) = true /\
  woken output_wait flooded (thread_with_stdio_done flooded) = true.
Proof.
  destruct (close_wakes_worker 4096 roundup_pow_of_two thread_with_stdio_done []
              flooded eq_refl eq_refl) as (Hin & Hout & Hwin & Hwout).
  split; [|split; [|split]].
  - exact (Hin eq_refl).
  - apply Hout; evaluate.
  - exact Hwin.
  - exact Hwout.
Defined.

Lemma close_wakes_caller_witness :
  (forall k len,
     thread_with_stdio_read false [Other thread_with_stdio_done] k filled len =
     Returns (0, []) (thread_with_stdio_done filled)) /\
  thread_with_stdio_write 4096 roundup_pow_of_two false [until_done] filled [x42] =
  Returns (- EPIPE) (thread_with_stdio_done filled) /\
  woken input_wait filled (thread_with_stdio_done filled) = true /\
  woken output_wait filled (thread_with_stdio_done filled) = true.
Proof.
  destruct (close_wakes_caller 4096 roundup_pow_of_two thread_with_stdio_done []
              filled eq_refl eq_refl eq_refl)
    as (Hread & Hwrite & _ & _ & _ & _ & Hwin & Hwout).
  split; [|split; [|split]].
  - exact (Hread eq_refl eq_refl eq_refl).
  - clear Hread. apply Hwrite; evaluate.
  - exact Hwin.
  - exact Hwout.
Defined.

Lemma nonblocking_never_sleeps_witness :
  (forall s', thread_with_stdio_read true [] [] started 16 <> Sleeps s') /\
  (forall s',
     thread_with_stdio_write 4096 roundup_pow_of_two true [no_fault] filled [x42] <>
     Sleeps s') /\
  (exists s',
     stdio_redirect_vprintf 4096 roundup_pow_of_two [] [] flooded true
       (list_byte_of_string "abc") = Returns tt s').
Proof.
  pose proof (nonblocking_never_sleeps 4096 roundup_pow_of_two [] [] [] [no_fault] []
                started 16 [x42] (list_byte_of_string "abc")) as (Hr & _ & _).
  pose proof (nonblocking_never_sleeps 4096 roundup_pow_of_two [] [] [] [no_fault] []
                filled 16 [x42] (list_byte_of_string "abc")) as (_ & Hw & _).
  pose proof (nonblocking_never_sleeps 4096 roundup_pow_of_two [] [] [] [no_fault] []
                flooded 16 [x42] (list_byte_of_string "abc")) as (_ & _ & Hp).
  split; [exact Hr|]. split; [exact Hw | exact Hp].
Defined.

Lemma write_then_read_round_trip_witness :
  let write := fun s => thread_with_stdio_write 4096 roundup_pow_of_two true
                          [no_fault; no_fault] s (list_byte_of_string "hel") in
  let r := stdio_redirect_read [] (final (write started)) 16 in
  returned (write started) = Some 3 /\
  returned r = Some (3, list_byte_of_string "hel") /\
  data (input (stdio (final r))) = [] /\
  (nr (input (stdio started)) = 0 ->
   stdio_redirect_read [fun s => final (write s)] started 16 = r).
Proof.
  apply (write_then_read_round_trip 4096 roundup_pow_of_two ltac:(lia)
           roundup_pow_of_two_ge roundup_pow_of_two_4096
           no_fault no_fault [] started (list_byte_of_string "hel") [] 16);
    try reflexivity.
  - evaluate.
  - evaluate.
  - lia.
Defined.

Lemma vprintf_then_read_round_trip_witness :
  let r := thread_with_stdio_read true [] [read_ok] (print_abc started) 16 in
  returned (stdio_redirect_vprintf 4096 roundup_pow_of_two [] [true] started true
              (list_byte_of_string "abc")) = Some tt /\
  data (output (stdio (print_abc started))) = list_byte_of_string "abc" /\
  returned r = Some (3, list_byte_of_string "abc") /\
  data (output (stdio (final r))) = [] /\
  (nr (output (stdio started)) = 0 ->
   thread_with_stdio_read false [Other print_abc] [read_ok] started 16 = r).
Proof.
  apply (vprintf_then_read_round_trip 4096 roundup_pow_of_two [] [true] true started
           (list_byte_of_string "abc") true [] read_ok [] 16);
    try reflexivity.
  - apply roundup_pow_of_two_ge.
  - evaluate.
  - right. reflexivity.
  - evaluate.
Defined.

Lemma stdio_redirect_vprintf_appends_witness :
  let p := stdio_redirect_vprintf 4096 roundup_pow_of_two [] [false] drained true
             (list_byte_of_string "hello") in
  (exists added,
     data (output (stdio (final p))) = data (output (stdio drained)) ++ added /\
     (length added <= 5)%nat) /\
  nr (output (stdio (final p))) <= size (output (stdio (final p))) /\
  input (stdio (final p)) = input (stdio drained) /\
  done (stdio (final p)) = done (stdio drained) /\
  thr (final p) = thr drained.
Proof.
  apply (stdio_redirect_vprintf_appends 4096 roundup_pow_of_two [] [false] drained
           (list_byte_of_string "hello")).
  - apply roundup_pow_of_two_ge.
  - evaluate.
  - evaluate.
Defined.

Lemma stdio_redirect_vprintf_capacity_check_witness :
  (stdio_redirect_vprintf 4096 roundup_pow_of_two [] [true] flooded true
     (list_byte_of_string "abc") = Returns tt flooded /\
   stdio_redirect_vprintf 4096 roundup_pow_of_two [] [true] flooded false
     (list_byte_of_string "abc") = Sleeps flooded) /\
  nr (output (stdio flooded)) = 5000.
Proof.
  destruct (stdio_redirect_vprintf_capacity_check 4096 roundup_pow_of_two [] [true]
              flooded (list_byte_of_string "abc") eq_refl) as [Hfull _].
  destruct (stdio_redirect_vprintf_capacity_check 4096 roundup_pow_of_two [] [true]
              started (repeat x41 5000) eq_refl) as [_ Hspace].
  split.
  - apply Hfull. evaluate.
  - apply (Hspace ltac:(evaluate) roundup_pow_of_two_ge ltac:(evaluate)
             ltac:(evaluate) eq_refl true).
Defined.

Lemma stdio_redirect_readline_line_witness :
  stdio_redirect_readline [] wrote_line 16 =
  Returns (3, list_byte_of_string "hi" ++ [newline])
    (log (wake_up input_wait)
       (set_input {| data := list_byte_of_string "yo";
                     size := size (input (stdio wrote_line)) |} wrote_line)).
Proof.
  apply (stdio_redirect_readline_line [] wrote_line (list_byte_of_string "hi")
           (list_byte_of_string "yo") 16).
  - reflexivity.
  - reflexivity.
  - cbn. intros [H|[H|H]]; [discriminate H | discriminate H | exact H].
  - evaluate.
Defined.

Lemma stdio_redirect_readline_assembles_witness :
  let s1 := log (wake_up input_wait)
              (set_input {| data := []; size := size (input (stdio wrote_hel)) |}
                 wrote_hel) in
  stdio_redirect_readline [write_lo] wrote_hel 16 =
  Returns (6, list_byte_of_string "hello" ++ [newline])
    (log (wake_up input_wait)
       (set_input {| data := []; size := size (input (stdio (write_lo s1))) |}
          (write_lo s1))).
Proof.
  apply (stdio_redirect_readline_assembles write_lo [] wrote_hel
           (list_byte_of_string "hel") (list_byte_of_string "lo") [] 16).
  - reflexivity.
  - reflexivity.
  - discriminate.
  - cbn. intros [H|[H|[H|H]]]; [discriminate H | discriminate H | discriminate H | exact H].
  - reflexivity.
  - reflexivity.
  - cbn. intros [H|[H|H]]; [discriminate H | discriminate H | exact H].
  - evaluate.
Defined.

Lemma poll_readable_iff_read_ready_witness :
  Z.land (fst (thread_with_stdio_poll 4096 started)) EPOLLIN = 0 /\
  thread_with_stdio_read true [] [read_ok] started 16 = Returns (- EAGAIN, []) started /\
  Z.land (fst (thread_with_stdio_poll 4096 printed_abc)) EPOLLIN <> 0 /\
  thread_with_stdio_read true [] [read_ok] printed_abc 16 <>
  Returns (- EAGAIN, []) printed_abc.
Proof.
  pose proof (poll_readable_iff_read_ready 4096 [] [read_ok] started 16
                ltac:(evaluate)) as Hempty.
  pose proof (poll_readable_iff_read_ready 4096 [] [read_ok] printed_abc 16
                ltac:(evaluate)) as Hsome.
  assert (H0 : Z.land (fst (thread_with_stdio_poll 4096 started)) EPOLLIN = 0)
    by reflexivity.
  assert (H1 : Z.land (fst (thread_with_stdio_poll 4096 printed_abc)) EPOLLIN <> 0)
    by evaluate.
  split; [exact H0|].
  split; [exact (proj1 Hempty H0)|].
  split; [exact H1|].
  intros E. exact (H1 (proj2 Hsome E)).
Defined.

Lemma poll_writable_iff_write_ready_witness :
  thread_with_stdio_write 4096 roundup_pow_of_two true [no_fault; no_fault] filled
    [x42] = Returns (- EAGAIN) filled /\
  exists n s',
    0 < n /\
    thread_with_stdio_write 4096 roundup_pow_of_two true [no_fault; no_fault] started
      [x42] = Returns n s'.
Proof.
  destruct (poll_writable_iff_write_ready 4096 roundup_pow_of_two ltac:(lia)
              roundup_pow_of_two_ge roundup_pow_of_two_4096
              no_fault no_fault [] filled [x42]
              eq_refl eq_refl eq_refl eq_refl eq_refl ltac:(evaluate)) as [Hfull _].
  destruct (poll_writable_iff_write_ready 4096 roundup_pow_of_two ltac:(lia)
              roundup_pow_of_two_ge roundup_pow_of_two_4096
              no_fault no_fault [] started [x42]
              eq_refl eq_refl eq_refl eq_refl eq_refl ltac:(evaluate)) as [_ Hroom].
  split.
  - apply Hfull. reflexivity.
  - apply Hroom. evaluate.
Defined.

Lemma thread_with_stdio_write_no_memory_witness :
  Z.land (fst (thread_with_stdio_poll 4096 started)) EPOLLOUT = EPOLLOUT /\
  thread_with_stdio_write 4096 roundup_pow_of_two true [no_memory] started [x41] =
  Returns (- EAGAIN) started /\
  thread_with_stdio_write 4096 roundup_pow_of_two false [no_memory] started [x41] =
  thread_with_stdio_write 4096 roundup_pow_of_two false [] started [x41].
Proof.
  apply (thread_with_stdio_write_no_memory 4096 roundup_pow_of_two no_memory []
           started [x41]); evaluate.
Defined.

Lemma thread_with_stdio_write_short_witness :
  let w := thread_with_stdio_write 4096 roundup_pow_of_two true [no_fault; no_fault]
             started (repeat x41 5000) in
  returned w = Some 4096 /\
  data (input (stdio (final w))) = repeat x41 4096 /\
  nr (input (stdio (final w))) = 4096 /\
  Z.land (fst (thread_with_stdio_poll 4096 (final w))) EPOLLOUT = 0 /\
  thread_with_stdio_write 4096 roundup_pow_of_two true [no_fault] (final w)
    (repeat x41 904) = Returns (- EAGAIN) (final w).
Proof.
  destruct (thread_with_stdio_write_short 4096 roundup_pow_of_two ltac:(lia)
              roundup_pow_of_two_ge roundup_pow_of_two_4096
              no_fault no_fault [] started (repeat x41 5000)
              eq_refl eq_refl eq_refl eq_refl eq_refl ltac:(evaluate)
              ltac:(evaluate))
    as (H1 & H2 & H3 & H4 & H5).
  split; [exact H1|]. split; [exact H2|]. split; [exact H3|]. split; [exact H4|].
  apply (H5 no_fault []). evaluate.
Defined.

Lemma blocked_write_resumes_witness :
  thread_with_stdio_write 4096 roundup_pow_of_two false [no_fault; no_fault] filled
    [x42] = Sleeps filled /\
  exists s',
    thread_with_stdio_write 4096 roundup_pow_of_two false [until_read; no_fault]
      filled [x42] = Returns 1 s' /\
    data (input (stdio s')) = repeat x41 4095 ++ [x42].
Proof.
  destruct (blocked_write_resumes 4096 roundup_pow_of_two ltac:(lia)
              roundup_pow_of_two_ge roundup_pow_of_two_4096
              no_fault no_fault [] filled [x42] [] [] 1
              ltac:(evaluate) eq_refl eq_refl eq_refl eq_refl
              ltac:(evaluate) ltac:(evaluate) ltac:(evaluate) eq_refl)
    as [Hquiet _].
  destruct (blocked_write_resumes 4096 roundup_pow_of_two ltac:(lia)
              roundup_pow_of_two_ge roundup_pow_of_two_4096
              until_read no_fault [] filled [x42] [] [] 1
              ltac:(evaluate) eq_refl eq_refl eq_refl eq_refl
              ltac:(evaluate) ltac:(evaluate) ltac:(evaluate) eq_refl)
    as [_ Hread].
  split.
  - exact (Hquiet eq_refl).
  - exact (Hread eq_refl).
Defined.

Lemma signal_interrupts_witness :
  (forall k len,
     thread_with_stdio_read false [Signal] k started len =
     Returns (- ERESTARTSYS, []) started) /\
  thread_with_stdio_write 4096 roundup_pow_of_two false [until_signal] filled [x42] =
  Returns (- ERESTARTSYS) filled /\
  returned (thread_with_stdio_write 4096 roundup_pow_of_two false
              [no_fault; until_signal] started (repeat x41 5000)) = Some 4096.
Proof.
  destruct (signal_interrupts 4096 roundup_pow_of_two ltac:(lia)
              roundup_pow_of_two_ge roundup_pow_of_two_4096 started [] eq_refl)
    as (Hread & _ & Hshort).
  destruct (signal_interrupts 4096 roundup_pow_of_two ltac:(lia)
              roundup_pow_of_two_ge roundup_pow_of_two_4096 filled [] eq_refl)
    as (_ & Hfull & _).
  split; [exact (Hread eq_refl)|]. split.
  - clear Hread Hshort. apply Hfull; evaluate.
  - clear Hread Hfull.
    apply (Hshort eq_refl eq_refl ltac:(evaluate) no_fault until_signal []
             (repeat x41 5000)); evaluate.
Defined.

Lemma run_then_release_witness :
  let started := run_thread_with_stdio run_ok zeroed in
  let released := thread_with_stdio_release (snd started) in
  fst started = 3 /\
  input (stdio (snd started)) = darray_init /\
  output (stdio (snd started)) = darray_init /\
  fst released = 0 /\
  closed (snd released) = true /\
  input (stdio (snd released)) = darray_init /\
  output (stdio (snd released)) = darray_init /\
  klog (snd released) =
    [kthread_create; get_unused_fd_flags 524290; anon_inode_getfile 524290;
     get_task_struct (2 ^ 47); wake_up_process (2 ^ 47);
     fd_install 3 (2 ^ 47 + 4096);
     wake_up input_wait; wake_up output_wait;
     kthread_stop (2 ^ 47); put_task_struct (2 ^ 47); call_exit].
Proof.
  apply (run_then_release run_ok zeroed); evaluate.
Defined.

Lemma thread_with_stdio_read_faults_witness :
  thread_with_stdio_read true []
    [{| fault_in_writeable := 16; copy_to_user_nofault := 0 |}] printed_abc 16 =
  Returns (- EFAULT, []) printed_abc /\
  thread_with_stdio_read true []
    [{| fault_in_writeable := 0; copy_to_user_nofault := - EFAULT |}; read_ok]
    printed_abc 16 =
  thread_with_stdio_read true [] [read_ok] printed_abc 16.
Proof.
  destruct (thread_with_stdio_read_faults true []
              {| fault_in_writeable := 16; copy_to_user_nofault := 0 |} []
              printed_abc 16 ltac:(evaluate) ltac:(evaluate)) as [Hfault _].
  destruct (thread_with_stdio_read_faults true []
              {| fault_in_writeable := 0; copy_to_user_nofault := - EFAULT |} [read_ok]
              printed_abc 16 ltac:(evaluate) ltac:(evaluate)) as [_ Hcopy].
  split.
  - exact (Hfault eq_refl).
  - apply Hcopy; evaluate.
Defined.

Lemma thread_with_stdio_write_faults_witness :
  thread_with_stdio_write 4096 roundup_pow_of_two true
    [{| fault_in_readable := 1; alloc_ok := true; copy_from_user_nofault := 0;
        sleep := [] |}] started [x41] = Returns (- EFAULT) started /\
  exists s1,
    thread_with_stdio_write 4096 roundup_pow_of_two true
      [{| fault_in_readable := 0; alloc_ok := true;
          copy_from_user_nofault := - EFAULT; sleep := [] |}; no_fault] started [x41] =
    thread_with_stdio_write 4096 roundup_pow_of_two true [no_fault] s1 [x41] /\
    data (input (stdio s1)) = data (input (stdio started)) /\
    klog s1 = klog started ++ [wake_up input_wait] /\
    output (stdio s1) = output (stdio started) /\
    done (stdio s1) = done (stdio started) /\
    thr s1 = thr started.
Proof.
  destruct (thread_with_stdio_write_faults 4096 roundup_pow_of_two true
              {| fault_in_readable := 1; alloc_ok := true; copy_from_user_nofault := 0;
                 sleep := [] |} [] started [x41]
              eq_refl ltac:(evaluate)) as [Hfault _].
  destruct (thread_with_stdio_write_faults 4096 roundup_pow_of_two true
              {| fault_in_readable := 0; alloc_ok := true;
                 copy_from_user_nofault := - EFAULT; sleep := [] |} [no_fault]
              started [x41]
              eq_refl ltac:(evaluate)) as [_ Hcopy].
  split.
  - exact (Hfault eq_refl).
  - apply (Hcopy roundup_pow_of_two_ge); evaluate.
Defined.

Lemma run_thread_with_file_no_thread_witness :
  let k := {| kthread_create_ret := 2 ^ 64 - ENOMEM; get_unused_fd_flags_ret := 3;
              anon_inode_getfile_ret := 2 ^ 47 + 4096 |} in
  let t' := {| twf_task := 2 ^ 64 - ENOMEM; twf_ret := 0; twf_done := false |} in
  run_thread_with_file k (thr zeroed) thread_with_stdio_fops =
    (- ENOMEM, t', [kthread_create]) /\
  - MAX_ERRNO <= - ENOMEM < 0 /\
  thread_with_file_exit t' =
    [kthread_stop (2 ^ 64 - ENOMEM); put_task_struct (2 ^ 64 - ENOMEM)].
Proof.
  apply (run_thread_with_file_no_thread
           {| kthread_create_ret := 2 ^ 64 - ENOMEM; get_unused_fd_flags_ret := 3;
              anon_inode_getfile_ret := 2 ^ 47 + 4096 |}
           (thr zeroed) thread_with_stdio_fops).
  evaluate.
Defined.

Lemma blocked_print_not_woken_by_read_witness :
  let read : interference :=
    fun s => final (thread_with_stdio_read true [] [read_ok] s 1000) in
  nr (output (stdio (read flooded))) = 4000 /\
  stdio_redirect_has_output_space 4096 (read flooded) = true /\
  klog (read flooded) = klog flooded /\
  woken output_wait flooded (read flooded) = false /\
  stdio_redirect_vprintf 4096 roundup_pow_of_two [read] [true] flooded false
    (list_byte_of_string "abc") = Sleeps (read flooded).
Proof.
  intros read.
  split; [vm_compute; reflexivity|]. split; [vm_compute; reflexivity|].
  apply (blocked_print_not_woken_by_read 4096 roundup_pow_of_two [] [read_ok] 1000
           [true] flooded (list_byte_of_string "abc")); evaluate.
Defined.
